(** * node-coap-client: the IPSO object mapper ([src/lib/ipsoObject.ts])

    A shallow embedding of [IPSOObject] (parse, merge, serialize, clone, the
    metadata lookups behind the property decorators, and the proxy layer),
    followed by the properties of the mapper that the specification states.

    Modelling conventions.
    - A JavaScript value is a tree.  Primitives are compared by value;
      arrays, plain objects and instances carry the address [addr] of the
      heap cell they live in, and [===] on them compares addresses.
      Containers created by the code ([{}], [map], [filter]) take their
      address from an allocation counter threaded through the functions.
    - Numbers are the integers ([Z]); there is no NaN and no fraction, so
      every value of the model is [===] to itself.  Statements about
      values that are equal say so through [strict_eq].
    - An object is the list of its own enumerable properties, looked up by
      name.  The list is kept in the order of insertion; JavaScript lists
      integer-like names (every wire key is one) first and in ascending
      order, so what an object holds is stated by [lookup], not by the
      place of a property in the list.
    - Transform kernels and required-predicates are user code: they are
      pure, total functions of their arguments.
    - The metadata of a class is the table the lookups find once every
      class is defined.  A decorator adds to the table object the class
      has, which is the one it inherits when it has none of its own; the
      statements about decorators are about that table object.
    - [log] is modelled where [parse] warns: a list of diagnostics.  The
      "silly" trace that [isRequired] prints is left out. *)

From Stdlib Require Import List String Ascii ZArith Bool Lia Arith.
From Stdlib Require Import DecimalString Decimal Permutation.
Import ListNotations.
Local Open Scope string_scope.
Local Open Scope list_scope.

(** ** Values *)

Definition addr := nat.
Definition class_id := nat.

#[local] Set Warnings "-register-all".
Inductive value : Type :=
| VUndef
| VNull
| VBool (b : bool)
| VNum (z : Z)
| VStr (s : string)
| VArr (a : addr) (items : list value)
| VRec (a : addr) (props : list (string * value))
| VInst (a : addr) (cls : class_id) (props : list (string * value)).

Definition record := list (string * value).

(** [v == null]: null or undefined. *)
Definition is_nullish (v : value) : bool :=
  match v with
  | VUndef | VNull => true
  | _ => false
  end.

(** ToBoolean. *)
Definition truthy (v : value) : bool :=
  match v with
  | VUndef | VNull => false
  | VBool b => b
  | VNum z => negb (Z.eqb z 0)
  | VStr s => negb (String.eqb s "")
  | VArr _ _ | VRec _ _ | VInst _ _ _ => true
  end.

(** [a === b]. *)
Definition strict_eq (x y : value) : bool :=
  match x, y with
  | VUndef, VUndef => true
  | VNull, VNull => true
  | VBool a, VBool b => Bool.eqb a b
  | VNum a, VNum b => Z.eqb a b
  | VStr a, VStr b => String.eqb a b
  | VArr a _, VArr b _ => Nat.eqb a b
  | VRec a _, VRec b _ => Nat.eqb a b
  | VInst a _ _, VInst b _ _ => Nat.eqb a b
  | _, _ => false
  end.

(** [typeof v === "object"]: null, arrays, plain objects and instances. *)
Definition typeof_object (v : value) : bool :=
  match v with
  | VNull | VArr _ _ | VRec _ _ | VInst _ _ _ => true
  | _ => false
  end.

(** [v instanceof IPSOObject]. *)
Definition is_ipso (v : value) : bool :=
  match v with
  | VInst _ _ _ => true
  | _ => false
  end.

(** ** Own properties *)

Section Props.
Context {A : Type}.

(** [o.hasOwnProperty(k) ? o[k] : none] on a property list. *)
Fixpoint lookup (k : string) (ps : list (string * A)) : option A :=
  match ps with
  | [] => None
  | (k', v) :: ps' => if String.eqb k k' then Some v else lookup k ps'
  end.

Definition has_key (k : string) (ps : list (string * A)) : bool :=
  match lookup k ps with
  | Some _ => true
  | None => false
  end.

(** [o[k] = v]: overwrite in place, or append a new property. *)
Fixpoint set_prop (k : string) (v : A) (ps : list (string * A))
  : list (string * A) :=
  match ps with
  | [] => [(k, v)]
  | (k', v') :: ps' =>
      if String.eqb k k' then (k, v) :: ps' else (k', v') :: set_prop k v ps'
  end.

Definition keys (ps : list (string * A)) : list string := map fst ps.
End Props.

(** A canonical array index: the decimal numeral of a natural number. *)
Definition array_index (k : string) : option nat :=
  match NilZero.uint_of_string k with
  | Some u =>
      if String.eqb (NilZero.string_of_uint (Nat.to_uint (Nat.of_uint u))) k
      then Some (Nat.of_uint u)
      else None
  | None => None
  end.

Fixpoint string_chars (s : string) : list value :=
  match s with
  | EmptyString => []
  | String c s' => VStr (String c EmptyString) :: string_chars s'
  end.

(** The own properties of an indexed value: ["length"] and the indices. *)
Definition indexed_get (len : Z) (items : list value) (k : string)
  : option value :=
  if String.eqb k "length" then Some (VNum len)
  else match array_index k with
       | Some i => nth_error items i
       | None => None
       end.

(** [v.hasOwnProperty(k) ? Some v[k] : None] for a non-nullish [v]. *)
Definition own_prop (v : value) (k : string) : option value :=
  match v with
  | VRec _ ps | VInst _ _ ps => lookup k ps
  | VArr _ xs => indexed_get (Z.of_nat (List.length xs)) xs k
  | VStr s => indexed_get (Z.of_nat (String.length s)) (string_chars s) k
  | _ => None
  end.

(** [v[k]] where [k] is not a method name: an absent property reads as
    [undefined]. *)
Definition get_prop (v : value) (k : string) : value :=
  match own_prop v k with
  | Some x => x
  | None => VUndef
  end.

(** A property key given as [string | null]: [null] is coerced to the
    string ["null"]. *)
Definition to_key (k : option string) : string :=
  match k with
  | Some s => s
  | None => "null"
  end.

(** [s.startsWith("_")]. *)
Definition starts_with_underscore (s : string) : bool :=
  match s with
  | String c _ => Ascii.eqb c "_"%char
  | EmptyString => false
  end.

(** ** Field metadata

    The decorators store one metadata object per class and per metadata
    symbol; [Reflect.getMetadata(sym, constr) || {}] reads it back. *)

(** A [PropertyTransform]: the kernel [(value, parent) => any] and the two
    flags [buildPropertyTransform] attaches to it. *)
Record PropertyTransform : Type := {
  kernel : value -> value -> value;
  neverSkip : bool;
  splitArrays : bool
}.

(** [buildPropertyTransform(kernel, options)]: [splitArrays] defaults to
    true and [neverSkip] to false.  The code stores the two flags on the
    kernel function itself and returns it; here every transform has a
    kernel of its own, so no two transforms share their flags. *)
Definition buildPropertyTransform (k : value -> value -> value)
    (opt_splitArrays opt_neverSkip : option bool) : PropertyTransform :=
  {| kernel := k;
     neverSkip := match opt_neverSkip with Some b => b | None => false end;
     splitArrays := match opt_splitArrays with Some b => b | None => true end |}.

(** The argument of [@required]: a boolean or a predicate
    [(me, reference) => boolean]. *)
Inductive RequiredRule : Type :=
| ReqBool (b : bool)
| ReqPredicate (p : value -> value -> bool).

(** The metadata of one class (its own declarations merged with those it
    inherits).  [design_type] is the name of the constructor that the
    compiler records under ["design:type"] for a decorated property, and
    [initial_props] the own properties a freshly constructed instance has
    besides [isProxy] and [options]. *)
Record ClassInfo : Type := {
  md_ipsoKey : list (string * string);
  md_required : list (string * RequiredRule);
  md_serializeWith : list (string * PropertyTransform);
  md_deserializeWith : list (string * PropertyTransform);
  md_doNotSerialize : list (string * bool);
  design_type : string -> option string;
  initial_props : list (string * value)
}.

(** [@ipsoKey(key)] on [property]: the mapping is stored both ways in the
    same object. *)
Definition ipsoKey (key property : string) (c : ClassInfo) : ClassInfo :=
  {| md_ipsoKey := set_prop key property (set_prop property key (md_ipsoKey c));
     md_required := md_required c;
     md_serializeWith := md_serializeWith c;
     md_deserializeWith := md_deserializeWith c;
     md_doNotSerialize := md_doNotSerialize c;
     design_type := design_type c;
     initial_props := initial_props c |}.

(** [@ipsoKey] on one field after the other, each given as (wire key,
    field name). *)
Definition ipsoKeys (decls : list (string * string)) (c : ClassInfo)
  : ClassInfo :=
  fold_left (fun c kp => ipsoKey (fst kp) (snd kp) c) decls c.

(** [@required(predicate)] on [property]. *)
Definition required (predicate : RequiredRule) (property : string)
    (c : ClassInfo) : ClassInfo :=
  {| md_ipsoKey := md_ipsoKey c;
     md_required := set_prop property predicate (md_required c);
     md_serializeWith := md_serializeWith c;
     md_deserializeWith := md_deserializeWith c;
     md_doNotSerialize := md_doNotSerialize c;
     design_type := design_type c;
     initial_props := initial_props c |}.

(** [@serializeWith(kernel, options)] on [property]. *)
Definition serializeWith (t : PropertyTransform) (property : string)
    (c : ClassInfo) : ClassInfo :=
  {| md_ipsoKey := md_ipsoKey c;
     md_required := md_required c;
     md_serializeWith := set_prop property t (md_serializeWith c);
     md_deserializeWith := md_deserializeWith c;
     md_doNotSerialize := md_doNotSerialize c;
     design_type := design_type c;
     initial_props := initial_props c |}.

(** [@deserializeWith(kernel, options)] on [property]. *)
Definition deserializeWith (t : PropertyTransform) (property : string)
    (c : ClassInfo) : ClassInfo :=
  {| md_ipsoKey := md_ipsoKey c;
     md_required := md_required c;
     md_serializeWith := md_serializeWith c;
     md_deserializeWith := set_prop property t (md_deserializeWith c);
     md_doNotSerialize := md_doNotSerialize c;
     design_type := design_type c;
     initial_props := initial_props c |}.

(** [@doNotSerialize] on [property]. *)
Definition doNotSerialize (property : string) (c : ClassInfo) : ClassInfo :=
  {| md_ipsoKey := md_ipsoKey c;
     md_required := md_required c;
     md_serializeWith := md_serializeWith c;
     md_deserializeWith := md_deserializeWith c;
     md_doNotSerialize := set_prop property true (md_doNotSerialize c);
     design_type := design_type c;
     initial_props := initial_props c |}.

(** The class [IPSOObject] itself: [options], [isProxy] and [client] are
    decorated with [@doNotSerialize]; [isProxy] is declared [boolean], the
    other two have interface types, recorded as [Object]. *)
Definition IPSOObject_class : ClassInfo :=
  doNotSerialize "client"
    (doNotSerialize "isProxy"
       (doNotSerialize "options"
          {| md_ipsoKey := [];
             md_required := [];
             md_serializeWith := [];
             md_deserializeWith := [];
             md_doNotSerialize := [];
             design_type := fun p =>
               if String.eqb p "isProxy" then Some "Boolean"
               else if String.eqb p "options" then Some "Object"
               else if String.eqb p "client" then Some "Object"
               else None;
             initial_props := [] |})).

(** A field declared in a subclass, with its design type and, when it has
    an initializer, its initial value. *)
Definition declare_field (property : string) (ty : option string)
    (init : option value) (c : ClassInfo) : ClassInfo :=
  {| md_ipsoKey := md_ipsoKey c;
     md_required := md_required c;
     md_serializeWith := md_serializeWith c;
     md_deserializeWith := md_deserializeWith c;
     md_doNotSerialize := md_doNotSerialize c;
     design_type := fun p =>
       if String.eqb p property then ty else design_type c p;
     initial_props :=
       match init with
       | Some v => set_prop property v (initial_props c)
       | None => initial_props c
       end |}.

(** The default transforms, keyed by design type name. *)
Definition boolean_serializer_kernel (v parent : value) : value :=
  if truthy v then VNum 1 else VNum 0.

Definition boolean_deserializer_kernel (raw parent : value) : value :=
  VBool (strict_eq raw (VNum 1) || strict_eq raw (VStr "true")
         || strict_eq raw (VStr "on") || strict_eq raw (VBool true)).

Definition defaultSerializers : list (string * PropertyTransform) :=
  [("Boolean", buildPropertyTransform boolean_serializer_kernel None (Some true))].

Definition defaultDeserializers : list (string * PropertyTransform) :=
  [("Boolean", buildPropertyTransform boolean_deserializer_kernel None (Some true))].

(** ** Effects: allocation, diagnostics, exceptions *)

(** What [log(..., "warn")] is called with. *)
Inductive diagnostic : Type :=
| UnknownProperty (key : string)
| ObjectWas (obj : record)
| NoDeserializer (key : string).

(** The errors a call can end with: the [Error] that [serialize] throws
    for mismatched arrays, and the [TypeError] of the runtime for a
    property read on [null]/[undefined] or a call of a non-function. *)
Inductive error : Type :=
| ArrayMismatch
| TypeError.

Inductive outcome (A : Type) : Type :=
| Return (x : A)
| Throw (e : error).
Arguments Return {A} x.
Arguments Throw {A} e.

Record state : Type := { next : addr; logged : list diagnostic }.

Definition M (A : Type) : Type := state -> outcome (A * state).

Definition ret {A} (x : A) : M A := fun s => Return (x, s).
Definition throw {A} (e : error) : M A := fun _ => Throw e.
Definition bind {A B} (m : M A) (k : A -> M B) : M B :=
  fun s => match m s with
           | Return (x, s') => k x s'
           | Throw e => Throw e
           end.
Definition alloc : M addr :=
  fun s => Return (next s, {| next := S (next s); logged := logged s |}).
Definition log (d : diagnostic) : M unit :=
  fun s => Return (tt, {| next := next s; logged := logged s ++ [d] |}).

Notation "x <- m ;; k" := (bind m (fun x => k))
  (at level 61, m at next level, right associativity).
Notation "m ;;; k" := (bind m (fun _ => k))
  (at level 61, right associativity).

(** ** The mapper *)

Section Mapper.
(** The metadata of every class, by class identifier. *)
Variable classes : class_id -> ClassInfo.

(** [target.constructor], for an instance. *)
Definition class_of (target : value) : ClassInfo :=
  match target with
  | VInst _ c _ => classes c
  | _ => IPSOObject_class
  end.

Definition lookupKeyOrProperty (target : value) (keyOrProperty : string)
  : option string :=
  lookup keyOrProperty (md_ipsoKey (class_of target)).

Definition isRequired (target reference : value) (property : string) : bool :=
  match lookup property (md_required (class_of target)) with
  | Some (ReqBool b) => b
  | Some (ReqPredicate p) => p target reference
  | None => false
  end.

Definition getPropertyType (target : value) (property : string)
  : option string :=
  design_type (class_of target) property.

Definition getSerializer (target : value) (property : string)
  : option PropertyTransform :=
  match lookup property (md_serializeWith (class_of target)) with
  | Some t => Some t
  | None =>
      match getPropertyType target property with
      | Some ty => lookup ty defaultSerializers
      | None => None
      end
  end.

Definition getDeserializer (target : value) (property : string)
  : option PropertyTransform :=
  match lookup property (md_deserializeWith (class_of target)) with
  | Some t => Some t
  | None =>
      match getPropertyType target property with
      | Some ty => lookup ty defaultDeserializers
      | None => None
      end
  end.

Definition isSerializable (target : value) (property : string) : bool :=
  negb (has_key property (md_doNotSerialize (class_of target))).

(** [this.options.skipBasicSerializers], as a condition. *)
Definition skipBasicSerializers (this : value) : M bool :=
  match get_prop this "options" with
  | VUndef | VNull => throw TypeError
  | o => ret (truthy (get_prop o "skipBasicSerializers"))
  end.

(** [transform && (transform.neverSkip || !this.options.skipBasicSerializers)] *)
Definition transform_applies (this : value) (transform : option PropertyTransform)
  : M (option PropertyTransform) :=
  match transform with
  | None => ret None
  | Some t =>
      if neverSkip t then ret (Some t)
      else skip <- skipBasicSerializers this ;;
           ret (if skip then None else Some t)
  end.

(** [this[k] = v] *)
Definition assign (this : value) (k : string) (v : value) : value :=
  match this with
  | VInst a c ps => VInst a c (set_prop k v ps)
  | VRec a ps => VRec a (set_prop k v ps)
  | _ => this
  end.

(** *** parse *)

Fixpoint parseValue (this : value) (propKey : string) (v : value)
    (transform : option PropertyTransform) (requiresArraySplitting : bool)
    {struct v} : M value :=
  let scalar :=
    if typeof_object v then
      match transform with
      | Some t => ret (kernel t v this)
      | None => log (NoDeserializer propKey) ;;; ret VUndef
      end
    else
      t <- transform_applies this transform ;;
      match t with
      | Some t => ret (kernel t v this)
      | None => ret v
      end in
  match v with
  | VArr _ items =>
      if requiresArraySplitting then
        parsed <- (fix each (xs : list value) : M (list value) :=
                     match xs with
                     | [] => ret []
                     | x :: xs' =>
                         y <- parseValue this propKey x transform
                                requiresArraySplitting ;;
                         ys <- each xs' ;;
                         ret (y :: ys)
                     end) items ;;
        a <- alloc ;;
        ret (VArr a parsed)
      else scalar
  | _ => scalar
  end.

(** One turn of the loop of [parse]. *)
Definition parse_entry (this : value) (obj : record) (key : string)
    (v : value) : M value :=
  let continue_with (propName : string)
                    (deserializer : option PropertyTransform) :=
    let requiresArraySplitting :=
      match deserializer with
      | Some d => splitArrays d
      | None => true
      end in
    parsedValue <- parseValue this key v deserializer requiresArraySplitting ;;
    ret (assign this propName parsedValue) in
  match getDeserializer this key with
  | None =>
      match lookupKeyOrProperty this key with
      | None | Some "" =>
          log (UnknownProperty key) ;;;
          log (ObjectWas obj) ;;;
          ret this
      | Some propName => continue_with propName (getDeserializer this propName)
      end
  | Some d => continue_with key (Some d)
  end.

Fixpoint parse_entries (this : value) (obj : record) (es : record)
  : M value :=
  match es with
  | [] => ret this
  | (key, v) :: es' =>
      this' <- parse_entry this obj key v ;;
      parse_entries this' obj es'
  end.

Definition parse (this : value) (obj : record) : M value :=
  parse_entries this obj obj.

(** *** merge *)

Fixpoint merge_entries (this : value) (es : record) : value :=
  match es with
  | [] => this
  | (key, v) :: es' =>
      merge_entries
        (match own_prop this key with
         | Some _ => assign this key v
         | None => this
         end) es'
  end.

Definition merge (this : value) (obj : record) : value :=
  merge_entries this obj.

(** *** serialize *)

(** [IPSOObject.prototype.unproxy], on an instance that no proxy wraps:
    [isProxy] and [underlyingObject] are read as ordinary properties. *)
Definition unproxy (this : value) : value :=
  if truthy (get_prop this "isProxy") then get_prop this "underlyingObject"
  else this.

(** [this.isSerializedObjectEmpty(obj, refObj)] *)
Definition isSerializedObjectEmpty (this : value) (obj : record)
    (refObj : value) : bool :=
  forallb
    (fun key =>
       isRequired this refObj (to_key (lookupKeyOrProperty this key)))
    (keys obj).

(** The properties of a serialized object, [{}] for anything else. *)
Definition record_of (v : value) : record :=
  match v with
  | VRec _ ps => ps
  | _ => []
  end.

(** The closure [serializeValue] of [serialize]; [self] is the method
    [serialize], called on a nested instance. *)
Definition serializeValue (self : value -> value -> M value)
    (this reference : value) (propName : string) (v refValue : value)
    (transform : option PropertyTransform) : M value :=
  let _required := isRequired this reference propName in
  let finish (_ret : value) : M value :=
    t <- transform_applies this transform ;;
    match t with
    | Some t => ret (kernel t _ret this)
    | None => ret _ret
    end in
  match v with
  | VInst _ _ _ =>
      _ret <- self v refValue ;;
      if isSerializedObjectEmpty v (record_of _ret) reference then ret VNull
      else finish _ret
  | _ =>
      if negb (is_nullish refValue) && (negb _required && strict_eq refValue v)
      then ret VNull
      else finish v
  end.

(** [xs.filter(v => v != null)], and [null] for an empty result. *)
Definition compact (xs : list value) : M value :=
  match filter (fun v => negb (is_nullish v)) xs with
  | [] => ret VNull
  | ys => a <- alloc ;; ret (VArr a ys)
  end.

(** The reference value of a property: [null] unless the reference is
    non-null and has the property as its own. *)
Definition reference_value (reference : value) (propName : string) : value :=
  if is_nullish reference then VNull
  else match own_prop reference propName with
       | Some r => r
       | None => VNull
       end.

Section SerializeBody.
(** The method [serialize] itself, for the nested instances. *)
Variable self : value -> value -> M value.
Variables this reference : value.

(** [value.map((v, i) => serializeValue(propName, v, refValue[i], serializer))];
    [refItems] is [None] where the code maps against [null]. *)
Fixpoint serialize_items (propName : string)
    (serializer : option PropertyTransform) (xs : list value)
    (refItems : option (list value)) : M (list value) :=
  match xs with
  | [] => ret []
  | x :: xs' =>
      y <- serializeValue self this reference propName x
             (match refItems with
              | Some rs => hd VUndef rs
              | None => VNull
              end) serializer ;;
      ys <- serialize_items propName serializer xs'
              (option_map (@tl value) refItems) ;;
      ret (y :: ys)
  end.

(** What the loop body computes for one property before it stores it. *)
Definition serialize_property (propName : string) (v : value) : M value :=
  let refValue := reference_value reference propName in
  let serializer := getSerializer this propName in
  let requiresArraySplitting :=
    match serializer with
    | Some t => splitArrays t
    | None => true
    end in
  let direct :=
    serializeValue self this reference propName v refValue serializer in
  match v with
  | VArr _ items =>
      if requiresArraySplitting then
        if is_nullish refValue then
          mapped <- serialize_items propName serializer items None ;;
          compact mapped
        else
          match refValue with
          | VArr _ refItems =>
              if Nat.eqb (List.length refItems) (List.length items) then
                mapped <- serialize_items propName serializer items
                            (Some refItems) ;;
                compact mapped
              else throw ArrayMismatch
          | _ => throw ArrayMismatch
          end
      else direct
  | _ => direct
  end.

(** The loop over [Object.keys(this)]. *)
Fixpoint serialize_properties (ps : list (string * value)) (out : record)
  : M record :=
  match ps with
  | [] => ret out
  | (propName, v) :: ps' =>
      if negb (starts_with_underscore propName)
         && isSerializable this propName
      then
        v' <- serialize_property propName v ;;
        serialize_properties ps'
          (if is_nullish v' then out
           else set_prop (to_key (lookupKeyOrProperty this propName)) v' out)
      else serialize_properties ps' out
  end.

(** [this.unproxy().serialize(reference)] where [this.isProxy] holds on
    a plain instance: [underlyingObject] is looked up among its own
    properties and the call fails on anything but an instance. *)
Fixpoint serialize_underlying (ps : list (string * value)) : M value :=
  match ps with
  | [] => throw TypeError
  | (k, u) :: ps' =>
      if String.eqb "underlyingObject" k then self u reference
      else serialize_underlying ps'
  end.
End SerializeBody.

Fixpoint serialize (this : value) (reference0 : value) {struct this}
  : M value :=
  (* the default parameter: [reference = null] *)
  let reference1 :=
    match reference0 with
    | VUndef => VNull
    | r => r
    end in
  match this with
  | VInst _ _ props =>
      if truthy (get_prop this "isProxy") then
        serialize_underlying serialize reference1 props
      else
        let reference :=
          if is_ipso reference1 && truthy (get_prop reference1 "isProxy")
          then unproxy reference1
          else reference1 in
        a <- alloc ;;
        out <- serialize_properties serialize this reference props [] ;;
        ret (VRec a out)
  | _ => throw TypeError
  end.

(** *** clone *)

(** [new constructor(options)]: the initializer of [isProxy] runs first,
    then the constructor body stores [options] (a fresh [{}] when the
    argument is [undefined]), then the initializers of the subclass. *)
Definition construct (c : class_id) (options : value) : M value :=
  options' <- match options with
              | VUndef => a <- alloc ;; ret (VRec a [])
              | o => ret o
              end ;;
  a <- alloc ;;
  ret (VInst a c (("isProxy", VBool false) :: ("options", options')
                    :: initial_props (classes c))).

Definition clone (this : value) : M value :=
  match this with
  | VInst _ c _ =>
      fresh <- construct c (get_prop this "options") ;;
      serialized <- serialize this VUndef ;;
      parse fresh (record_of serialized)
  | _ => throw TypeError
  end.

End Mapper.

(** ** The proxy layer

    [createProxy] returns [new Proxy(this, {get, set})].  A proxy has an
    identity of its own and holds its target; the custom traps a caller
    passes are user code and are named by a [handler]. *)

Module ProxyLayer.

Definition handler := nat.

Inductive object : Type :=
| Plain (v : value)
| Wrapper (a : addr) (me : object) (get set : option handler)
| Items (a : addr) (xs : list object).

(** What reading a property yields: a datum, a method of
    [IPSOObject.prototype], the re-wrapping [clone] of the get trap, or
    whatever a custom getter returns. *)
Inductive read_result : Type :=
| Data (o : object)
| Method (name : string)
| WrappingClone (me : object)
| FromCustomGet (h : handler) (me : object) (key : string).

(** The functions an instance inherits from [IPSOObject.prototype]. *)
Definition is_method (key : string) : bool :=
  existsb (String.eqb key)
    ["parse"; "parseValue"; "merge"; "serialize"; "clone";
     "isSerializedObjectEmpty"; "unproxy"; "createProxy"; "link"].

(** The functions it inherits from [Object.prototype], and its
    [constructor].  What a subclass adds to the prototype chain (methods,
    accessors) is not part of the model, and neither is the accessor
    [__proto__]: reads of such names are outside the statements below. *)
Definition is_inherited (key : string) : bool :=
  existsb (String.eqb key)
    ["constructor"; "hasOwnProperty"; "isPrototypeOf";
     "propertyIsEnumerable"; "toLocaleString"; "toString"; "valueOf";
     "__defineGetter__"; "__defineSetter__"; "__lookupGetter__";
     "__lookupSetter__"].

(** [this.createProxy(get, set)] *)
Definition createProxy (this : object) (get set : option handler) : M object :=
  a <- alloc ;;
  ret (Wrapper a this get set).

(** [o instanceof IPSOObject] *)
Definition instanceof_IPSOObject (o : object) : bool :=
  match o with
  | Plain v => is_ipso v
  | Wrapper _ _ _ _ => true
  | Items _ _ => false
  end.

(** [xs.map(d => d.createProxy())] *)
Fixpoint wrap_each (xs : list object) : M (list object) :=
  match xs with
  | [] => ret []
  | d :: xs' =>
      if instanceof_IPSOObject d then
        w <- createProxy d None None ;;
        ws <- wrap_each xs' ;;
        ret (w :: ws)
      else throw TypeError
  end.

(** The elements of an array, as objects. *)
Definition elements (o : object) : option (list object) :=
  match o with
  | Plain (VArr _ xs) => Some (map Plain xs)
  | Items _ xs => Some xs
  | _ => None
  end.

(** [o[key]]: a method of [IPSOObject.prototype] (no field of an instance
    is named like one), else an own property, else a function inherited
    from [Object.prototype], else [undefined]; on a proxy, the get trap of
    [createProxy].  The trap reads [me[key]] several times; it is read
    once here. *)
Fixpoint read (o : object) (key : string) {struct o} : M read_result :=
  match o with
  | Plain v =>
      if is_ipso v && is_method key then ret (Method key)
      else
        match own_prop v key with
        | Some x => ret (Data (Plain x))
        | None =>
            if is_ipso v && is_inherited key then ret (Method key)
            else ret (Data (Plain VUndef))
        end
  | Items _ _ => ret (Data (Plain VUndef))
  | Wrapper _ me get _ =>
      if String.eqb key "isProxy" then ret (Data (Plain (VBool true)))
      else if String.eqb key "underlyingObject" then ret (Data me)
      else if String.eqb key "unproxy" then read me "unproxy"
      else
        match get with
        | Some h => ret (FromCustomGet h me key)
        | None =>
            r <- read me key ;;
            match r with
            | Method m =>
                if String.eqb key "clone" then ret (WrappingClone me)
                else ret (Method m)
            | Data d =>
                match elements d with
                | Some (first :: rest) =>
                    if instanceof_IPSOObject first then
                      ws <- wrap_each (first :: rest) ;;
                      a <- alloc ;;
                      ret (Data (Items a ws))
                    else ret (Data d)
                | Some [] => ret (Data d)
                | None =>
                    if instanceof_IPSOObject d then
                      w <- createProxy d None None ;;
                      ret (Data w)
                    else ret (Data d)
                end
            | other => ret other
            end
        end
  end.

(** ToBoolean of what a read yields. *)
Definition truthy_result (r : read_result) : bool :=
  match r with
  | Data (Plain v) => truthy v
  | _ => true
  end.

(** [IPSOObject.prototype.unproxy], with [this] a plain instance or a
    proxy: both property reads go through [read]. *)
Definition unproxy (this : object) : M read_result :=
  p <- read this "isProxy" ;;
  if truthy_result p then read this "underlyingObject"
  else ret (Data this).

(** [o.unproxy()]: the property [unproxy] is read off [o] and the
    function found is called with [this = o]. *)
Definition call_unproxy (o : object) : M read_result :=
  f <- read o "unproxy" ;;
  match f with
  | Method "unproxy" => unproxy o
  | _ => throw TypeError
  end.

(** An instance, or a proxy over one (over a proxy over one, ...): what
    [createProxy] can be called on. *)
Fixpoint is_domain_object (o : object) : bool :=
  match o with
  | Plain v => is_ipso v
  | Wrapper _ me _ _ => is_domain_object me
  | Items _ _ => false
  end.

End ProxyLayer.

(** ** Notions used in the statements *)

(** [v instanceof Array] *)
Definition is_array (v : value) : bool :=
  match v with
  | VArr _ _ => true
  | _ => false
  end.

(** The state after a warning. *)
Definition after_log (ds : list diagnostic) (s : state) : state :=
  {| next := next s; logged := logged s ++ ds |}.

(** The state after the two warnings of an unknown key. *)
Definition warned (key : string) (obj : record) (s : state) : state :=
  after_log [UnknownProperty key; ObjectWas obj] s.

(** The state after one more allocation. *)
Definition after_alloc (s : state) : state :=
  {| next := S (next s); logged := logged s |}.

(** The reference as [serialize] uses it: the default for a missing
    argument, then the unwrapping of a proxied reference. *)
Definition effective_reference (reference0 : value) : value :=
  let reference1 :=
    match reference0 with
    | VUndef => VNull
    | r => r
    end in
  if is_ipso reference1 && truthy (get_prop reference1 "isProxy")
  then unproxy reference1
  else reference1.

Definition default_reference (reference0 : value) : value :=
  match reference0 with
  | VUndef => VNull
  | r => r
  end.

(** An instance as the class declares it, nested instances included:
    [isProxy] is false and [options] is an object. *)
Fixpoint well_typed (v : value) : bool :=
  match v with
  | VInst _ _ ps =>
      negb (truthy (get_prop v "isProxy"))
      && negb (is_nullish (get_prop v "options"))
      && (fix props (ps : list (string * value)) : bool :=
            match ps with
            | [] => true
            | (_, x) :: ps' => well_typed x && props ps'
            end) ps
  | VArr _ xs =>
      (fix items (xs : list value) : bool :=
         match xs with
         | [] => true
         | x :: xs' => well_typed x && items xs'
         end) xs
  | _ => true
  end.

(** [refValue instanceof Array && refValue.length === value.length] *)
Definition same_length_array (refValue : value) (items : list value) : bool :=
  match refValue with
  | VArr _ refItems => Nat.eqb (List.length refItems) (List.length items)
  | _ => false
  end.

(** The reference value of the [i]-th item. *)
Definition item_reference (refItems : option (list value)) (i : nat) : value :=
  match refItems with
  | Some rs => nth i rs VUndef
  | None => VNull
  end.

Section Conditions.
Variable classes : class_id -> ClassInfo.

(** The loop of [serialize] processes the property. *)
Definition visited (this : value) (propName : string) : bool :=
  negb (starts_with_underscore propName) && isSerializable classes this propName.

(** Array values of the property are serialized item by item. *)
Definition splits (this : value) (propName : string) : bool :=
  match getSerializer classes this propName with
  | Some t => splitArrays t
  | None => true
  end.

(** [nested_call this reference propName v x rx]: while the property
    [propName] of [this], holding [v], is serialized against [reference],
    [serialize] is called on the nested instance [x] with reference [rx]. *)
Inductive nested_call (this reference : value) (propName : string) (v : value)
  : value -> value -> Prop :=
| call_on_field :
    is_ipso v = true ->
    nested_call this reference propName v v (reference_value reference propName)
| call_on_item_without_reference b items i x :
    v = VArr b items ->
    splits this propName = true ->
    is_nullish (reference_value reference propName) = true ->
    nth_error items i = Some x ->
    is_ipso x = true ->
    nested_call this reference propName v x VNull
| call_on_item b items b' refItems i x :
    v = VArr b items ->
    splits this propName = true ->
    reference_value reference propName = VArr b' refItems ->
    List.length refItems = List.length items ->
    nth_error items i = Some x ->
    is_ipso x = true ->
    nested_call this reference propName v x (nth i refItems VUndef).

(** [raises this reference0]: somewhere in [this.serialize(reference0)], in
    the instance itself or in an instance nested in it, a visited property
    holds an array that is split while its reference value is neither null
    nor an array of the same length. *)
Inductive raises : value -> value -> Prop :=
| raises_here a c ps reference0 propName b items :
    truthy (get_prop (VInst a c ps) "isProxy") = false ->
    In (propName, VArr b items) ps ->
    visited (VInst a c ps) propName = true ->
    splits (VInst a c ps) propName = true ->
    is_nullish (reference_value (effective_reference reference0) propName)
    = false ->
    same_length_array
      (reference_value (effective_reference reference0) propName) items
    = false ->
    raises (VInst a c ps) reference0
| raises_nested a c ps reference0 propName v x rx :
    truthy (get_prop (VInst a c ps) "isProxy") = false ->
    In (propName, v) ps ->
    visited (VInst a c ps) propName = true ->
    nested_call (VInst a c ps) (effective_reference reference0) propName v x rx ->
    raises x rx ->
    raises (VInst a c ps) reference0
| raises_underlying a c ps reference0 u :
    truthy (get_prop (VInst a c ps) "isProxy") = true ->
    lookup "underlyingObject" ps = Some u ->
    raises u (default_reference reference0) ->
    raises (VInst a c ps) reference0.

(** What a call of [serialize] that throws tells. *)
Definition throw_explained (x : value) : Prop :=
  forall reference s e,
    serialize classes x reference s = Throw e ->
    (e = ArrayMismatch /\ raises x reference)
    \/ (e = TypeError /\ (is_ipso x = false \/ well_typed x = false)).

End Conditions.

(** ** The round trip through the wire format *)

(** null, undefined, a boolean, a number or a string. *)
Definition is_primitive (v : value) : bool :=
  match v with
  | VUndef | VNull | VBool _ | VNum _ | VStr _ => true
  | _ => false
  end.

(** [transform ? transform(v, parent) : v] *)
Definition apply_transform (t : option PropertyTransform) (v parent : value)
  : value :=
  match t with
  | Some t => kernel t v parent
  | None => v
  end.

(** Two values with the same content: the same primitive, arrays whose
    items have the same content, objects or instances of one class whose
    properties, taken in a suitable order, have the same names and the
    same content.  The heap cells they live in may differ. *)
Inductive same_content : value -> value -> Prop :=
| same_undef : same_content VUndef VUndef
| same_null : same_content VNull VNull
| same_bool b : same_content (VBool b) (VBool b)
| same_num z : same_content (VNum z) (VNum z)
| same_str str : same_content (VStr str) (VStr str)
| same_arr a b xs ys :
    Forall2 same_content xs ys ->
    same_content (VArr a xs) (VArr b ys)
| same_rec a b ps qs qs' :
    Permutation qs qs' ->
    Forall2 (fun p q => fst p = fst q /\ same_content (snd p) (snd q)) ps qs' ->
    same_content (VRec a ps) (VRec b qs)
| same_inst a b c ps qs qs' :
    Permutation qs qs' ->
    Forall2 (fun p q => fst p = fst q /\ same_content (snd p) (snd q)) ps qs' ->
    same_content (VInst a c ps) (VInst b c qs).

(** Two wire objects with the same keys, each key holding the same content
    in both. *)
Definition same_wire (r1 r2 : record) : Prop :=
  forall k,
    match lookup k r1, lookup k r2 with
    | Some v, Some w => same_content v w
    | None, None => True
    | _, _ => False
    end.

(** The own properties of an instance. *)
Definition props_of (v : value) : record :=
  match v with
  | VInst _ _ ps => ps
  | _ => []
  end.

(** The options of an instance are an object that does not ask to skip
    the basic serializers. *)
Definition options_apply_all (this : value) : Prop :=
  is_nullish (get_prop this "options") = false
  /\ truthy (get_prop (get_prop this "options") "skipBasicSerializers") = false.

(** A key table, checked entry by entry, maps every entry back. *)
Definition symmetric_table (md : list (string * string)) : bool :=
  forallb
    (fun kp =>
       match lookup (snd kp) md with
       | Some k => String.eqb k (fst kp)
       | None => false
       end) md.

Section RoundTrip.
Variable classes : class_id -> ClassInfo.

(** An entry that [parse] takes for the wire key of a field and whose
    value it hands to the transform of the field, or keeps. *)
Definition plain_entry (this : value) (key : string) (w : value) : Prop :=
  getDeserializer classes this key = None
  /\ (exists p, lookupKeyOrProperty classes this key = Some p
                /\ p <> "" /\ p <> "options")
  /\ is_primitive w = true /\ is_nullish w = false.

(** The key table of the class of [this] maps every entry back. *)
Definition symmetric_keys (this : value) : Prop :=
  forall k p, lookupKeyOrProperty classes this k = Some p ->
              lookupKeyOrProperty classes this p = Some k.


(** [new C(x.options).parse(x.serialize()).serialize()], paired with
    [x.serialize()]. *)
Definition round_trip (x : value) : M (value * value) :=
  match x with
  | VInst _ c _ =>
      fresh <- construct classes c (get_prop x "options") ;;
      wire <- serialize classes x VUndef ;;
      y <- parse classes fresh (record_of wire) ;;
      again <- serialize classes y VUndef ;;
      expected <- serialize classes x VUndef ;;
      ret (again, expected)
  | _ => throw TypeError
  end.

(** What [serialize] emits for a visited property holding a primitive,
    without a reference and with no transform skipped. *)
Definition emitted (this : value) (propName : string) (v : value) : value :=
  apply_transform (getSerializer classes this propName) v this.

(** The record the loop of [serialize] builds from such properties. *)
Fixpoint emit (this : value) (ps : list (string * value)) (out : record)
  : record :=
  match ps with
  | [] => out
  | (propName, v) :: ps' =>
      emit this ps'
        (if visited classes this propName
            && negb (is_nullish (emitted this propName v))
         then set_prop (to_key (lookupKeyOrProperty classes this propName))
                (emitted this propName v) out
         else out)
  end.

(** The instance the loop of [parse] builds from entries that are wire
    keys of fields and carry primitives. *)
Fixpoint absorb (this : value) (es : record) : value :=
  match es with
  | [] => this
  | (key, w) :: es' =>
      absorb
        (assign this (to_key (lookupKeyOrProperty classes this key))
           (apply_transform
              (getDeserializer classes this
                 (to_key (lookupKeyOrProperty classes this key)))
              w this))
        es'
  end.

(** What the loop of [serialize], called without a reference, computes
    for the property [propName] holding [v]. *)
Definition serialized_field (this : value) (propName : string) (v : value)
  : M value :=
  serialize_property classes (serialize classes) this VNull propName v.

(** What the loop of [parse] computes for the raw value [w] under the wire
    key [key] of the field [propName], before it assigns it. *)
Definition parsed_field (this : value) (key propName : string) (w : value)
  : M value :=
  parseValue this key w (getDeserializer classes this propName)
    (match getDeserializer classes this propName with
     | Some d => splitArrays d
     | None => true
     end).

(** An instance of the class [c] that is not a proxy and has the options
    [o]. *)
Definition peer (c : class_id) (o : value) (y : value) : Prop :=
  exists a ps,
    y = VInst a c ps
    /\ lookup "isProxy" ps = Some (VBool false)
    /\ lookup "options" ps = Some o.

(** The field [propName] of [x], with the wire key [key] and holding [v],
    survives the round trip on its own.  Serializing it returns, and
    whether it is emitted does not depend on the moment; when it is
    emitted, parsing what was emitted into an instance of the class with
    the same options returns a value, and serializing that value in such
    an instance returns what [x] emits for the field, up to the identity
    of the arrays and objects in it. *)
Definition field_round_trips (c : class_id) (o : value) (x : value)
    (key propName : string) (v : value) : Prop :=
  (forall s, exists w s', serialized_field x propName v s = Return (w, s'))
  /\ (forall s w s' s0 w0 s0',
        serialized_field x propName v s = Return (w, s') ->
        serialized_field x propName v s0 = Return (w0, s0') ->
        is_nullish w = is_nullish w0)
  /\ (forall s w s',
        serialized_field x propName v s = Return (w, s') ->
        is_nullish w = false ->
        forall y s1, peer c o y ->
          exists v' s1',
            parsed_field y key propName w s1 = Return (v', s1')
            /\ forall y' s2, peer c o y' ->
                 exists w' s2',
                   serialized_field y' propName v' s2 = Return (w', s2')
                   /\ forall s0 w0 s0',
                        serialized_field x propName v s0 = Return (w0, s0') ->
                        same_content w' w0).

(** What the loop of [serialize] over the properties [ps] has stored under
    the key [k], when it started from [out] and ended with [out']: what
    some run of the loop body returned for the field of that key, unless
    that was null. *)
Definition stored (self : value -> value -> M value) (this reference : value)
    (ps out out' : record) (k : string) : Prop :=
  match lookupKeyOrProperty classes this k with
  | Some p =>
      if visited classes this p then
        match lookup p ps with
        | Some v =>
            exists s1 w s2,
              serialize_property classes self this reference p v s1
              = Return (w, s2)
              /\ lookup k out' = (if is_nullish w then lookup k out else Some w)
        | None => lookup k out' = lookup k out
        end
      else lookup k out' = lookup k out
  | None => lookup k out' = lookup k out
  end.

(** What the loop of [parse] over the entries [es] has assigned to the
    field [q], when it started from the properties [ps] and ended with
    [ps']: what some run of [parseValue] returned for the entry under the
    wire key of [q]. *)
Definition absorbed (c : class_id) (o : value) (this : value)
    (es ps ps' : record) (q : string) : Prop :=
  match lookupKeyOrProperty classes this q with
  | Some k =>
      match lookup k es with
      | Some w =>
          exists y s1 v' s1',
            peer c o y
            /\ parsed_field y k q w s1 = Return (v', s1')
            /\ lookup q ps' = Some v'
      | None => lookup q ps' = lookup q ps
      end
  | None => lookup q ps' = lookup q ps
  end.

(** The conditions under which the round trip gives back the wire object
    of the instance [VInst a c ps]. *)
Record round_trip_conditions (a : addr) (c : class_id) (ps : record)
  : Prop := {
  (* the key table maps every entry back *)
  rt_keys :
    forall k p, lookup k (md_ipsoKey (classes c)) = Some p ->
                lookup p (md_ipsoKey (classes c)) = Some k;
  (* [isProxy] and [options] are not serialized *)
  rt_isProxy : isSerializable classes (VInst a c ps) "isProxy" = false;
  rt_options : isSerializable classes (VInst a c ps) "options" = false;
  (* the instance is an object: distinct property names, not a proxy,
     options that are an object *)
  rt_nodup : NoDup (keys ps);
  rt_plain : lookup "isProxy" ps = Some (VBool false);
  rt_object :
    exists o, lookup "options" ps = Some o /\ is_nullish o = false;
  (* every serialized field has a wire key, which is not the name of a
     field with a deserializer, and survives the round trip on its own *)
  rt_fields :
    forall p v, In (p, v) ps -> visited classes (VInst a c ps) p = true ->
      p <> ""
      /\ exists k, lookup p (md_ipsoKey (classes c)) = Some k
                   /\ getDeserializer classes (VInst a c ps) k = None
                   /\ field_round_trips c (get_prop (VInst a c ps) "options")
                        (VInst a c ps) k p v;
  (* the constructor initialises distinct fields, and each of them that is
     serialized is emitted by the instance *)
  rt_initial_nodup :
    NoDup ("isProxy" :: "options" :: keys (initial_props (classes c)));
  rt_initial :
    forall q v0, In (q, v0) (initial_props (classes c)) ->
      visited classes (VInst a c ps) q = true ->
      exists v, lookup q ps = Some v
                /\ forall s w s',
                     serialized_field (VInst a c ps) q v s = Return (w, s') ->
                     is_nullish w = false
}.

End RoundTrip.

(** ** Sample classes

    Three classes declared with the decorators, the way the device
    catalogue declares them, and a few instances of them. *)

Module Sample.

(** [class Light]: [@ipsoKey("5850") onOff: boolean],
    [@ipsoKey("5851") @required() dimmer: number], and an undecorated
    [note]. *)
Definition Light : ClassInfo :=
  required (ReqBool true) "dimmer"
    (ipsoKey "5851" "dimmer"
       (declare_field "dimmer" (Some "Number") None
          (ipsoKey "5850" "onOff"
             (declare_field "onOff" (Some "Boolean") None
                (declare_field "note" None None IPSOObject_class))))).

(** [class Accessory]: [@ipsoKey("9001") name: string],
    [@ipsoKey("15001") levels: number[]], [@ipsoKey("3311") light: Light]. *)
Definition Accessory : ClassInfo :=
  ipsoKey "3311" "light"
    (declare_field "light" (Some "Light") None
       (ipsoKey "15001" "levels"
          (declare_field "levels" (Some "Array") None
             (ipsoKey "9001" "name"
                (declare_field "name" (Some "String") None
                   IPSOObject_class))))).

(** [class Group]: [@ipsoKey("3311") @required() light: Light]. *)
Definition Group : ClassInfo :=
  required (ReqBool true) "light"
    (ipsoKey "3311" "light"
       (declare_field "light" (Some "Light") None IPSOObject_class)).

Definition accessory_id : class_id := 0.
Definition light_id : class_id := 1.
Definition group_id : class_id := 2.

Definition classes (c : class_id) : ClassInfo :=
  match c with
  | 0 => Accessory
  | 1 => Light
  | 2 => Group
  | _ => IPSOObject_class
  end.

(** [new C({})] followed by assignments to the fields. *)
Definition instance (a : addr) (c : class_id) (fields : record) : value :=
  VInst a c (("isProxy", VBool false) :: ("options", VRec (S a) []) :: fields).

(** The same with [{skipBasicSerializers: true}]. *)
Definition raw_instance (a : addr) (c : class_id) (fields : record) : value :=
  VInst a c (("isProxy", VBool false)
               :: ("options", VRec (S a) [("skipBasicSerializers", VBool true)])
               :: fields).

(** A few instances. *)
Definition lamp : value :=
  instance 10 light_id [("onOff", VBool true); ("dimmer", VNum 5)].

Definition annotated_lamp : value :=
  instance 12 light_id
    [("onOff", VBool true); ("dimmer", VNum 5); ("note", VStr "hi")].

Definition dark_lamp : value :=
  instance 14 light_id [("onOff", VBool false)].

Definition socket : value :=
  instance 20 accessory_id
    [("name", VStr "socket"); ("levels", VArr 22 [VNum 1; VNum 2; VNum 3]);
     ("light", lamp)].

Definition dimmed_lamp : value :=
  instance 16 light_id [("dimmer", VNum 5)].

(** An accessory whose only field is [light]. *)
Definition fixture (light : value) : value :=
  instance 30 accessory_id [("light", light)].

(** A group whose only field is the required [light]. *)
Definition group_of (light : value) : value :=
  instance 40 group_id [("light", light)].

(** The socket, with a string where [levels] should hold an array. *)
Definition odd_socket : value :=
  instance 24 accessory_id
    [("name", VStr "socket"); ("levels", VStr "abc"); ("light", lamp)].

(** The socket, with two levels. *)
Definition short_socket : value :=
  instance 26 accessory_id
    [("name", VStr "socket"); ("levels", VArr 28 [VNum 1; VNum 2]);
     ("light", lamp)].

Definition state0 : state := {| next := 1000; logged := [] |}.

End Sample.

(** ** Further operations and notions *)

Section ParseEach.
Variables (this : value) (propKey : string)
          (transform : option PropertyTransform) (requiresArraySplitting : bool).

(** [value.map(v => this.parseValue(propKey, v, transform, split))], the
    loop inside [parseValue], by name. *)
Fixpoint parse_each (xs : list value) : M (list value) :=
  match xs with
  | [] => ret []
  | x :: xs' =>
      y <- parseValue this propKey x transform requiresArraySplitting ;;
      ys <- parse_each xs' ;;
      ret (y :: ys)
  end.
End ParseEach.

Section ParseTurns.
Variable classes : class_id -> ClassInfo.
Variable obj : record.



(** The field that the loop of [parse] assigns the entry with the key
    [key] to, if it assigns it at all. *)
Definition assigned_field (this : value) (key : string) : option string :=
  match getDeserializer classes this key with
  | Some _ => Some key
  | None =>
      match lookupKeyOrProperty classes this key with
      | None | Some "" => None
      | Some propName => Some propName
      end
  end.
End ParseTurns.

(** What [serializeValue] makes of the items of an array of values that
    are not instances, item by item against the reference items, when no
    transform applies: an item equal to its reference item becomes [null]
    unless the field is required. *)
Definition differing_items (is_required : bool) (items refItems : list value)
  : list value :=
  map (fun xr =>
         if negb (is_nullish (snd xr))
            && (negb is_required && strict_eq (snd xr) (fst xr))
         then VNull else fst xr)
      (combine items refItems).

(** The properties [ps] with the value of every property that the partial
    object [p] has too replaced by the value [p] gives it. *)
Definition overwritten (p : record) (ps : record) : record :=
  map (fun kv =>
         (fst kv, match lookup (fst kv) p with
                  | Some v => v
                  | None => snd kv
                  end)) ps.

(** Further instances for the examples. *)
Module Cases.

(** A lamp whose options ask to skip the basic serializers. *)
Definition raw_lamp : value :=
  Sample.raw_instance 50 Sample.light_id
    [("onOff", VBool true); ("dimmer", VNum 5)].

(** The socket with other levels. *)
Definition other_socket : value :=
  Sample.instance 60 Sample.accessory_id
    [("name", VStr "socket"); ("levels", VArr 62 [VNum 1; VNum 7; VNum 3]);
     ("light", Sample.lamp)].

(** An accessory with an empty list of levels. *)
Definition bare_socket : value :=
  Sample.instance 70 Sample.accessory_id
    [("name", VStr "bare"); ("levels", VArr 72 [])].

(** An accessory holding two lamps in a list. *)
Definition chandelier : value :=
  Sample.instance 80 Sample.accessory_id
    [("name", VStr "chandelier");
     ("lightList", VArr 82 [Sample.lamp; Sample.dark_lamp])].

(** The same with a number among the lamps. *)
Definition odd_chandelier : value :=
  Sample.instance 84 Sample.accessory_id
    [("lightList", VArr 86 [Sample.lamp; VNum 3])].

(** [class Twin]: [@ipsoKey("5850") onOff: number] and then
    [@ipsoKey("5850") power: number], the same wire key twice. *)
Definition Twin : ClassInfo :=
  ipsoKey "5850" "power"
    (declare_field "power" (Some "Number") None
       (ipsoKey "5850" "onOff"
          (declare_field "onOff" (Some "Number") None IPSOObject_class))).

Definition twin_classes (c : class_id) : ClassInfo := Twin.

Definition twin : value :=
  Sample.instance 100 0 [("onOff", VNum 1); ("power", VNum 60)].

(** An accessory with a name and a list of levels. *)
Definition levelled_socket : value :=
  Sample.instance 90 Sample.accessory_id
    [("name", VStr "socket"); ("levels", VArr 92 [VNum 1; VNum 2; VNum 3])].

(** A transform that doubles a number and leaves anything else. *)
Definition doubling : PropertyTransform :=
  buildPropertyTransform
    (fun v _ => match v with VNum z => VNum (2 * z) | _ => VNull end)
    None None.


(** [class Scaled]: [@ipsoKey("5851") @serializeWith(doubling) dimmer],
    a serializer without a deserializer that undoes it. *)
Definition Scaled : ClassInfo :=
  serializeWith doubling "dimmer"
    (ipsoKey "5851" "dimmer"
       (declare_field "dimmer" (Some "Number") None IPSOObject_class)).

Definition scaled_classes (c : class_id) : ClassInfo := Scaled.

Definition scaled : value := Sample.instance 110 0 [("dimmer", VNum 5)].

(** [class Preset]: [@ipsoKey("5851") dimmer: number = 50], a field the
    constructor initialises. *)
Definition Preset : ClassInfo :=
  ipsoKey "5851" "dimmer"
    (declare_field "dimmer" (Some "Number") (Some (VNum 50)) IPSOObject_class).

Definition preset_classes (c : class_id) : ClassInfo := Preset.

(** An instance whose [dimmer] has been set to [null]. *)
Definition unset_preset : value := Sample.instance 120 0 [("dimmer", VNull)].

(** [obj => new Light().parse(obj)], the deserializer of a field that
    holds a lamp.  The kernel is a function of the model, so the lamp it
    makes and its options live at fixed addresses. *)
Definition light_of_wire (raw parent : value) : value :=
  match parse Sample.classes
          (VInst 0 Sample.light_id
             [("isProxy", VBool false); ("options", VRec 1 [])])
          (record_of raw) Sample.state0 with
  | Return (y, _) => y
  | Throw _ => VUndef
  end.

(** [class Hub]: [@ipsoKey("3311") @deserializeWith(light_of_wire)
    light: Light]. *)
Definition Hub : ClassInfo :=
  deserializeWith (buildPropertyTransform light_of_wire None None) "light"
    (ipsoKey "3311" "light"
       (declare_field "light" (Some "Light") None IPSOObject_class)).

Definition hub_id : class_id := 3.

Definition hub_classes (c : class_id) : ClassInfo :=
  match c with
  | 3 => Hub
  | _ => Sample.classes c
  end.

Definition hub : value :=
  Sample.instance 130 hub_id [("light", Sample.lamp)].

End Cases.

(** * Properties *)

(** ** Property lists *)

Section PropsFacts.
Context {A : Type}.
Implicit Types (k : string) (ps : list (string * A)).

Lemma lookup_set_prop_same k (v : A) ps :
  lookup k (set_prop k v ps) = Some v.
Proof.
  induction ps as [|[k' v'] ps IH]; simpl.
  - now rewrite String.eqb_refl.
  - destruct (String.eqb k k') eqn:E; simpl.
    + now rewrite String.eqb_refl.
    + now rewrite E.
Qed.

Lemma lookup_set_prop_other k k' (v : A) ps :
  k <> k' -> lookup k (set_prop k' v ps) = lookup k ps.
Proof.
  intros Hne. induction ps as [|[k0 v0] ps IH]; simpl.
  - apply String.eqb_neq in Hne. now rewrite Hne.
  - destruct (String.eqb k' k0) eqn:E; simpl.
    + apply String.eqb_eq in E. subst k0.
      apply String.eqb_neq in Hne. now rewrite Hne.
    + now rewrite IH.
Qed.

Lemma keys_set_prop_present k (v : A) ps :
  has_key k ps = true -> keys (set_prop k v ps) = keys ps.
Proof.
  unfold has_key, keys.
  induction ps as [|[k0 v0] ps IH]; simpl; [discriminate|].
  destruct (String.eqb k k0) eqn:E; simpl.
  - intros _. apply String.eqb_eq in E. now subst.
  - intros H. now rewrite IH.
Qed.

Lemma lookup_not_in k ps : ~ In k (keys ps) -> lookup k ps = None.
Proof.
  unfold keys. induction ps as [|[k0 v0] ps IH]; simpl; [reflexivity|].
  intros H. destruct (String.eqb k k0) eqn:E.
  - apply String.eqb_eq in E. subst. exfalso. apply H. now left.
  - apply IH. intros Hin. apply H. now right.
Qed.

End PropsFacts.

(** ** merge *)

Section MergeFacts.
Variables (a : addr) (c : class_id).

Lemma merge_entries_instance es : forall ps,
  exists ps', merge_entries (VInst a c ps) es = VInst a c ps'
              /\ keys ps' = keys ps.
Proof.
  induction es as [|[k v] es IH]; intros ps; simpl.
  - now exists ps.
  - destruct (lookup k ps) eqn:E.
    + destruct (IH (set_prop k v ps)) as (ps' & -> & Hk).
      exists ps'. split; [reflexivity|].
      rewrite Hk. apply keys_set_prop_present.
      unfold has_key. now rewrite E.
    + apply IH.
Qed.

Lemma merge_entries_lookup es : forall ps ps' k,
  NoDup (keys es) ->
  merge_entries (VInst a c ps) es = VInst a c ps' ->
  lookup k ps' =
    match lookup k ps, lookup k es with
    | Some _, Some v => Some v
    | old, _ => old
    end.
Proof.
  induction es as [|[k0 v0] es IH]; intros ps ps' k Hnd H; simpl in *.
  - injection H as <-. now destruct (lookup k ps).
  - inversion Hnd as [|? ? Hnotin Hnd']; subst.
    destruct (lookup k0 ps) eqn:E0.
    + rewrite (IH _ _ k Hnd' H).
      destruct (String.eqb k k0) eqn:E.
      * apply String.eqb_eq in E. subst k0.
        rewrite lookup_set_prop_same, E0.
        now rewrite (lookup_not_in _ _ Hnotin).
      * apply String.eqb_neq in E.
        now rewrite (lookup_set_prop_other _ _ _ _ E).
    + rewrite (IH _ _ k Hnd' H).
      destruct (String.eqb k k0) eqn:E.
      * apply String.eqb_eq in E. subst k0. now rewrite E0.
      * reflexivity.
Qed.
End MergeFacts.

(** C7.  [t.merge(p)] returns [t] itself (same address, same class, same
    own property names in the same order); a property of [t] that [p] has
    too now holds exactly [p]'s value, every other property of [t] holds
    what it held, and a property of [p] that [t] does not own is not
    added.  [p] is an object, so its keys are distinct. *)
Theorem merge_overwrites_present_own_fields :
  forall (a : addr) (c : class_id) (ps p : record),
    NoDup (keys p) ->
    exists ps',
      merge (VInst a c ps) p = VInst a c ps'
      /\ keys ps' = keys ps
      /\ (forall k v old, lookup k ps = Some old -> lookup k p = Some v ->
                          lookup k ps' = Some v)
      /\ (forall k, lookup k p = None -> lookup k ps' = lookup k ps)
      /\ (forall k, lookup k ps = None -> lookup k ps' = None).
Proof.
  intros a c ps p Hnd. unfold merge.
  destruct (merge_entries_instance a c p ps) as (ps' & Hm & Hk).
  exists ps'. split; [exact Hm|]. split; [exact Hk|].
  pose proof (fun k => merge_entries_lookup a c p ps ps' k Hnd Hm) as L.
  repeat split.
  - intros k v old H1 H2. now rewrite L, H1, H2.
  - intros k H. rewrite L, H. now destruct (lookup k ps).
  - intros k H. now rewrite L, H.
Qed.

(** ** parse *)

Section ParseFacts.
Variable classes : class_id -> ClassInfo.


Lemma getDeserializer_class this this' k :
  class_of classes this' = class_of classes this ->
  getDeserializer classes this' k = getDeserializer classes this k.
Proof.
  intros H. unfold getDeserializer, getPropertyType. now rewrite H.
Qed.

Lemma lookupKeyOrProperty_class this this' k :
  class_of classes this' = class_of classes this ->
  lookupKeyOrProperty classes this' k = lookupKeyOrProperty classes this k.
Proof. intros H. unfold lookupKeyOrProperty. now rewrite H. Qed.





(** C5, as the code has it.  When the raw value of an entry is
    object-shaped ([typeof] gives ["object"]) and not an array, and the
    field its key names has no deserializer, [parseValue] logs the
    missing deserializer and returns [undefined], and [parse] assigns
    that to the field: the field is overwritten with [undefined]. *)
Theorem parse_nested_without_deserializer :
  forall (this : value) (obj : record) (key propName : string) (v : value)
         (s : state),
    typeof_object v = true ->
    is_array v = false ->
    getDeserializer classes this key = None ->
    lookupKeyOrProperty classes this key = Some propName ->
    propName <> "" ->
    getDeserializer classes this propName = None ->
    parse_entry classes this obj key v s
    = Return (assign this propName VUndef, after_log [NoDeserializer key] s).
Proof.
  intros this obj key propName v s Hobj Harr Hd Hk Hne Hd'.
  unfold parse_entry. rewrite Hd, Hk, Hd'.
  destruct propName as [|ch p]; [congruence|].
  destruct v; try discriminate; reflexivity.
Qed.

End ParseFacts.

(** C5, the claim as stated fails: [light] holds an instance, the wire
    object carries a nested object under the key of [light], [Accessory]
    declares no deserializer for it, and after [parse] the field holds
    [undefined]. *)
Lemma parse_nested_overwrites_field :
  exists x' s',
    parse Sample.classes Sample.socket
      [("3311", VRec 70 [("5850", VNum 0)])] Sample.state0
    = Return (x', s')
    /\ get_prop Sample.socket "light" = Sample.lamp
    /\ get_prop x' "light" = VUndef
    /\ logged s' = [NoDeserializer "3311"].
Proof.
  do 2 eexists. split; [vm_compute; reflexivity|].
  repeat split.
Qed.

Lemma parse_nested_without_deserializer_witness :
  parse_entry Sample.classes Sample.socket [("3311", VNull)] "3311" VNull
    Sample.state0
  = Return (assign Sample.socket "light" VUndef,
            after_log [NoDeserializer "3311"] Sample.state0).
Proof.
  apply (parse_nested_without_deserializer Sample.classes Sample.socket
           [("3311", VNull)] "3311" "light" VNull);
    try reflexivity.
  discriminate.
Defined.

Lemma merge_overwrites_present_own_fields_witness :
  exists ps',
    merge (VInst 10 Sample.light_id [("onOff", VBool true); ("dimmer", VNum 5)])
          [("dimmer", VNum 9); ("colour", VStr "red")]
    = VInst 10 Sample.light_id ps'
    /\ keys ps' = ["onOff"; "dimmer"]
    /\ (forall k v old,
           lookup k [("onOff", VBool true); ("dimmer", VNum 5)] = Some old ->
           lookup k [("dimmer", VNum 9); ("colour", VStr "red")] = Some v ->
           lookup k ps' = Some v)
    /\ (forall k, lookup k [("dimmer", VNum 9); ("colour", VStr "red")] = None ->
                  lookup k ps'
                  = lookup k [("onOff", VBool true); ("dimmer", VNum 5)])
    /\ (forall k, lookup k [("onOff", VBool true); ("dimmer", VNum 5)] = None ->
                  lookup k ps' = None).
Proof.
  apply (merge_overwrites_present_own_fields 10 Sample.light_id
           [("onOff", VBool true); ("dimmer", VNum 5)]
           [("dimmer", VNum 9); ("colour", VStr "red")]).
  repeat constructor; simpl; intuition discriminate.
Defined.

(** ** The default transforms of boolean fields *)

Section BooleanDefaults.
Variable classes : class_id -> ClassInfo.

Lemma boolean_deserializer_true (raw parent : value) :
  boolean_deserializer_kernel raw parent = VBool true
  <-> raw = VNum 1 \/ raw = VStr "true" \/ raw = VStr "on" \/ raw = VBool true.
Proof.
  unfold boolean_deserializer_kernel. split.
  - intros [= H].
    destruct raw; simpl in H; try discriminate.
    + destruct b; [auto|discriminate].
    + destruct (Z.eqb_spec z 1); [subst; auto|discriminate].
    + destruct (String.eqb_spec s "true"); [subst; auto|].
      destruct (String.eqb_spec s "on"); [subst; auto|discriminate].
  - intros [-> | [-> | [-> | ->]]]; reflexivity.
Qed.

Lemma boolean_deserializer_total (raw parent : value) :
  boolean_deserializer_kernel raw parent = VBool true
  \/ boolean_deserializer_kernel raw parent = VBool false.
Proof.
  unfold boolean_deserializer_kernel.
  match goal with |- VBool ?b = _ \/ _ => destruct b end; auto.
Qed.

Lemma parseValue_neverSkip this key raw t s :
  neverSkip t = true ->
  is_array raw = false ->
  parseValue this key raw (Some t) (splitArrays t) s
  = Return (kernel t raw this, s).
Proof.
  intros Hn Ha.
  destruct raw; try discriminate; simpl;
    unfold transform_applies, bind, ret; rewrite ?Hn; reflexivity.
Qed.

Lemma parseValue_split_scalars this key t a raws s :
  neverSkip t = true ->
  splitArrays t = true ->
  forallb (fun r => negb (is_array r)) raws = true ->
  parseValue this key (VArr a raws) (Some t) (splitArrays t) s
  = Return (VArr (next s) (map (fun r => kernel t r this) raws), after_alloc s).
Proof.
  intros Hn Hs Hall. simpl. rewrite Hs. unfold bind at 1.
  assert (E : forall xs, forallb (fun r => negb (is_array r)) xs = true ->
     (fix each (xs : list value) : M (list value) :=
        match xs with
        | [] => ret []
        | x :: xs' =>
            y <- parseValue this key x (Some t) true ;;
            ys <- each xs' ;; ret (y :: ys)
        end) xs s = Return (map (fun r => kernel t r this) xs, s)).
  { induction xs as [|x xs IH]; simpl; [reflexivity|].
    intros H. apply andb_prop in H as [Hx Hxs].
    unfold bind at 1.
    rewrite <- Hs at 1. rewrite parseValue_neverSkip; auto.
    - unfold bind at 1. rewrite (IH Hxs). reflexivity.
    - now destruct (is_array x). }
  rewrite (E raws Hall). reflexivity.
Qed.

(** C6, as the code has it.  For a field whose design type is [Boolean]
    and that declares no transform, both lookups find the default
    transforms, both marked [neverSkip].  Whatever the options of the
    instance, [parseValue] maps a raw value that is not an array to [true]
    when it is [1], ["true"], ["on"] or [true] and to [false] otherwise,
    and maps an array of such values element by element (the default
    transform splits arrays); [serializeValue] maps [true] to [1] and
    [false] to [0] unless the differential rule omits the value. *)
Theorem boolean_default_transforms :
  forall (this : value) (f : string),
    design_type (class_of classes this) f = Some "Boolean" ->
    lookup f (md_serializeWith (class_of classes this)) = None ->
    lookup f (md_deserializeWith (class_of classes this)) = None ->
    exists d t,
      getDeserializer classes this f = Some d
      /\ getSerializer classes this f = Some t
      /\ neverSkip d = true /\ neverSkip t = true
      /\ (forall key raw s,
             is_array raw = false ->
             exists b,
               parseValue this key raw (Some d) (splitArrays d) s
               = Return (VBool b, s)
               /\ (b = true <-> raw = VNum 1 \/ raw = VStr "true"
                                \/ raw = VStr "on" \/ raw = VBool true))
      /\ (forall key a raws s,
             forallb (fun r => negb (is_array r)) raws = true ->
             parseValue this key (VArr a raws) (Some d) (splitArrays d) s
             = Return (VArr (next s) (map (fun r => kernel d r this) raws),
                       after_alloc s))
      /\ (forall self reference refValue b s,
             serializeValue classes self this reference f (VBool b) refValue
               (Some t) s
             = Return
                 (if negb (is_nullish refValue)
                     && (negb (isRequired classes this reference f)
                         && strict_eq refValue (VBool b))
                  then VNull
                  else VNum (if b then 1 else 0), s)).
Proof.
  intros this f Hty Hs Hd.
  unfold getDeserializer, getSerializer, getPropertyType.
  rewrite Hty, Hs, Hd. simpl.
  do 2 eexists. repeat split.
  - intros key raw s Ha.
    rewrite (parseValue_neverSkip this key raw
               (buildPropertyTransform boolean_deserializer_kernel None (Some true)) s
               eq_refl Ha).
    simpl.
    destruct (boolean_deserializer_total raw this) as [E|E];
      rewrite E; eexists; split; try reflexivity.
    + split; [intros _|reflexivity].
      now apply (boolean_deserializer_true raw this).
    + split; [discriminate|].
      intros H. apply (boolean_deserializer_true raw this) in H. congruence.
  - intros key a raws s Hall.
    apply (parseValue_split_scalars this key
             (buildPropertyTransform boolean_deserializer_kernel None (Some true))
             a raws s eq_refl eq_refl Hall).
  - intros self reference refValue b s.
    unfold serializeValue.
    destruct (negb (is_nullish refValue)
              && (negb (isRequired classes this reference f)
                  && strict_eq refValue (VBool b))); [reflexivity|].
    now destruct b.
Qed.

End BooleanDefaults.

(** C6, the claim as stated fails: the raw value [[1]] of a boolean field
    is parsed element by element, to the array [[true]], not to [false]. *)
Lemma parse_boolean_array_is_split :
  exists x' s',
    parse Sample.classes Sample.dark_lamp [("5850", VArr 3 [VNum 1])]
      Sample.state0
    = Return (x', s')
    /\ get_prop x' "onOff" = VArr 1000 [VBool true]
    /\ get_prop x' "onOff" <> VBool false.
Proof.
  do 2 eexists. split; [vm_compute; reflexivity|].
  split; [reflexivity|discriminate].
Qed.

Lemma boolean_default_transforms_witness :
  exists d t,
    getDeserializer Sample.classes (Sample.raw_instance 16 Sample.light_id []) "onOff"
    = Some d
    /\ getSerializer Sample.classes (Sample.raw_instance 16 Sample.light_id []) "onOff"
       = Some t
    /\ parseValue (Sample.raw_instance 16 Sample.light_id []) "5850" (VStr "on")
         (Some d) (splitArrays d) Sample.state0
       = Return (VBool true, Sample.state0)
    /\ serializeValue Sample.classes (serialize Sample.classes)
         (Sample.raw_instance 16 Sample.light_id []) VNull "onOff" (VBool true)
         VNull (Some t) Sample.state0
       = Return (VNum 1, Sample.state0).
Proof.
  destruct (boolean_default_transforms Sample.classes
              (Sample.raw_instance 16 Sample.light_id []) "onOff"
              eq_refl eq_refl eq_refl)
    as (d & t & Hd & Ht & _ & _ & Hp & _ & Hs).
  exists d, t. repeat split; try assumption.
  - destruct (Hp "5850" (VStr "on") Sample.state0 eq_refl) as (b & E & Hb).
    rewrite E. replace b with true; [reflexivity|].
    symmetry. apply Hb. auto.
  - apply (Hs (serialize Sample.classes) VNull VNull true Sample.state0).
Defined.

(** ** serialize: the loop over the properties *)

Section SerializeLoop.
Variable classes : class_id -> ClassInfo.
Variable self : value -> value -> M value.
Variables this reference : value.

Lemma serialize_properties_skipped propName v ps out s :
  negb (starts_with_underscore propName) && isSerializable classes this propName
  = false ->
  serialize_properties classes self this reference ((propName, v) :: ps) out s
  = serialize_properties classes self this reference ps out s.
Proof. intros H. simpl. now rewrite H. Qed.

Lemma serialize_properties_step propName v ps out s v' s' :
  starts_with_underscore propName = false ->
  isSerializable classes this propName = true ->
  serialize_property classes self this reference propName v s = Return (v', s') ->
  serialize_properties classes self this reference ((propName, v) :: ps) out s
  = serialize_properties classes self this reference ps
      (if is_nullish v' then out
       else set_prop (to_key (lookupKeyOrProperty classes this propName)) v' out)
      s'.
Proof.
  intros Hu Hs Hp. simpl. rewrite Hu, Hs. simpl.
  unfold bind. now rewrite Hp.
Qed.

Lemma serialize_properties_throws propName v ps out s e :
  starts_with_underscore propName = false ->
  isSerializable classes this propName = true ->
  serialize_property classes self this reference propName v s = Throw e ->
  serialize_properties classes self this reference ((propName, v) :: ps) out s
  = Throw e.
Proof.
  intros Hu Hs Hp. simpl. rewrite Hu, Hs. simpl.
  unfold bind. now rewrite Hp.
Qed.



End SerializeLoop.


(** ** Induction on values *)

Section ValueInduction.
Variable P : value -> Prop.
Hypothesis HUndef : P VUndef.
Hypothesis HNull : P VNull.
Hypothesis HBool : forall b, P (VBool b).
Hypothesis HNum : forall z, P (VNum z).
Hypothesis HStr : forall s, P (VStr s).
Hypothesis HArr : forall a xs, Forall P xs -> P (VArr a xs).
Hypothesis HRec :
  forall a ps, Forall (fun kv => P (snd kv)) ps -> P (VRec a ps).
Hypothesis HInst :
  forall a c ps, Forall (fun kv => P (snd kv)) ps -> P (VInst a c ps).

Fixpoint value_nested_ind (v : value) : P v :=
  let props_ind :=
    fix props_ind (ps : list (string * value))
      : Forall (fun kv => P (snd kv)) ps :=
      match ps with
      | [] => Forall_nil _
      | kv :: ps' => Forall_cons kv (value_nested_ind (snd kv)) (props_ind ps')
      end in
  match v with
  | VUndef => HUndef
  | VNull => HNull
  | VBool b => HBool b
  | VNum z => HNum z
  | VStr s => HStr s
  | VArr a xs =>
      HArr a xs
        ((fix items_ind (xs : list value) : Forall P xs :=
            match xs with
            | [] => Forall_nil _
            | x :: xs' => Forall_cons x (value_nested_ind x) (items_ind xs')
            end) xs)
  | VRec a ps => HRec a ps (props_ind ps)
  | VInst a c ps => HInst a c ps (props_ind ps)
  end.
End ValueInduction.

(** ** serialize: unfolding and shape of the result *)

Section SerializeShape.
Variable classes : class_id -> ClassInfo.

Lemma serialize_instance a c ps reference0 :
  serialize classes (VInst a c ps) reference0
  = if truthy (get_prop (VInst a c ps) "isProxy") then
      serialize_underlying (serialize classes) (default_reference reference0) ps
    else
      (r <- alloc ;;
       out <- serialize_properties classes (serialize classes) (VInst a c ps)
                (effective_reference reference0) ps [] ;;
       ret (VRec r out)).
Proof. destruct reference0; reflexivity. Qed.

Lemma serialize_underlying_lookup self reference ps s :
  serialize_underlying self reference ps s
  = match lookup "underlyingObject" ps with
    | Some u => self u reference s
    | None => Throw TypeError
    end.
Proof.
  induction ps as [|[k u] ps IH]; [reflexivity|].
  cbn [serialize_underlying lookup].
  destruct (String.eqb "underlyingObject" k); [reflexivity|apply IH].
Qed.

Lemma lookup_In {A} k (ps : list (string * A)) v :
  lookup k ps = Some v -> In (k, v) ps.
Proof.
  induction ps as [|[k' v'] ps IH]; simpl; [discriminate|].
  destruct (String.eqb_spec k k').
  - intros [= ->]. subst. now left.
  - intros H. right. now apply IH.
Qed.

Lemma default_reference_idem r :
  default_reference (default_reference r) = default_reference r.
Proof. now destruct r. Qed.

(** Whenever [serialize] returns, it returns a plain object. *)
Lemma serialize_returns_record this :
  forall reference s w s',
    serialize classes this reference s = Return (w, s') ->
    exists a out, w = VRec a out.
Proof.
  induction this as [| |b|z|str|a xs _|a ps _|a c ps IH]
    using value_nested_ind;
    intros reference s w s'; try discriminate.
  rewrite serialize_instance.
  destruct (truthy (get_prop (VInst a c ps) "isProxy")).
  - rewrite serialize_underlying_lookup.
    destruct (lookup "underlyingObject" ps) as [u|] eqn:E; [|discriminate].
    apply lookup_In in E.
    rewrite Forall_forall in IH. apply (IH _ E).
  - unfold bind, alloc, ret.
    destruct (serialize_properties _ _ _ _ _ _ _) as [[out s1]|];
      [|discriminate].
    intros [= <- _]. now eauto.
Qed.

End SerializeShape.

(** ** serialize: nested instances *)

Section NestedObjects.
Variable classes : class_id -> ClassInfo.

Lemma isSerializedObjectEmpty_iff this obj refObj :
  isSerializedObjectEmpty classes this obj refObj = true
  <-> forall key, In key (keys obj) ->
        isRequired classes this refObj
          (to_key (lookupKeyOrProperty classes this key)) = true.
Proof. unfold isSerializedObjectEmpty. apply forallb_forall. Qed.

Lemma serialize_property_instance self this reference propName a c ps :
  serialize_property classes self this reference propName (VInst a c ps)
  = serializeValue classes self this reference propName (VInst a c ps)
      (reference_value reference propName) (getSerializer classes this propName).
Proof. reflexivity. Qed.

(** C1, as the code has it.  A nested instance handed to [serializeValue]
    (the value of a field, or an element of an array field) is treated as
    empty exactly when every key of its serialized form belongs to a
    required field of the nested instance (required being judged against
    the parent's reference), in particular when it has no key at all;
    [serializeValue] then returns [null] and a field holding it is left out
    of the parent's output.  When some key belongs to a field that is not
    required, the nested object is not empty: the serialize transform of
    the field, if one applies, is run on it, and without a transform the
    serialized object itself is stored under the wire key of the field. *)
Theorem nested_object_empty_iff_all_keys_required :
  forall (this reference : value) (propName : string) (a : addr) (c : class_id)
         (ps : record) (refValue : value) (transform : option PropertyTransform)
         (s s1 : state) (w : value),
    serialize classes (VInst a c ps) refValue s = Return (w, s1) ->
    (isSerializedObjectEmpty classes (VInst a c ps) (record_of w) reference = true
     <-> forall key, In key (keys (record_of w)) ->
           isRequired classes (VInst a c ps) reference
             (to_key (lookupKeyOrProperty classes (VInst a c ps) key)) = true)
    /\ (isSerializedObjectEmpty classes (VInst a c ps) (record_of w) reference
        = true ->
        serializeValue classes (serialize classes) this reference propName
          (VInst a c ps) refValue transform s
        = Return (VNull, s1))
    /\ (isSerializedObjectEmpty classes (VInst a c ps) (record_of w) reference
        = false ->
        serializeValue classes (serialize classes) this reference propName
          (VInst a c ps) refValue transform s
        = (t <- transform_applies this transform ;;
           ret (match t with
                | Some t => kernel t w this
                | None => w
                end)) s1)
    /\ (forall (rest : list (string * value)) (out : record),
          starts_with_underscore propName = false ->
          isSerializable classes this propName = true ->
          refValue = reference_value reference propName ->
          transform = getSerializer classes this propName ->
          (isSerializedObjectEmpty classes (VInst a c ps) (record_of w) reference
           = true ->
           serialize_properties classes (serialize classes) this reference
             ((propName, VInst a c ps) :: rest) out s
           = serialize_properties classes (serialize classes) this reference
               rest out s1)
          /\ (isSerializedObjectEmpty classes (VInst a c ps) (record_of w)
                reference = false ->
              transform = None ->
              serialize_properties classes (serialize classes) this reference
                ((propName, VInst a c ps) :: rest) out s
              = serialize_properties classes (serialize classes) this reference
                  rest
                  (set_prop (to_key (lookupKeyOrProperty classes this propName))
                     w out)
                  s1)).
Proof.
  intros this reference propName a c ps refValue transform s s1 w Hw.
  assert (Hp : forall e,
    isSerializedObjectEmpty classes (VInst a c ps) (record_of w) reference = e ->
    serializeValue classes (serialize classes) this reference propName
      (VInst a c ps) refValue transform s
    = if e then Return (VNull, s1)
      else (t <- transform_applies this transform ;;
            ret (match t with
                 | Some t => kernel t w this
                 | None => w
                 end)) s1).
  { intros e He. unfold serializeValue. unfold bind at 1. rewrite Hw, He.
    destruct e; [reflexivity|].
    unfold bind.
    destruct (transform_applies this transform s1) as [[[t|] s2]|];
      reflexivity. }
  split; [apply isSerializedObjectEmpty_iff|].
  split; [|split].
  - intros He. apply (Hp true He).
  - intros He. apply (Hp false He).
  - intros rest out Hu Hs Hr Ht. split.
    + intros He.
      rewrite (serialize_properties_step classes _ this reference propName
                 _ rest out s VNull s1 Hu Hs); [reflexivity|].
      rewrite serialize_property_instance, <- Hr, <- Ht. apply (Hp true He).
    + intros He Hnone.
      destruct (serialize_returns_record classes _ _ _ _ _ Hw) as (r & o & ->).
      rewrite (serialize_properties_step classes _ this reference propName
                 _ rest out s (VRec r o) s1 Hu Hs); [reflexivity|].
      rewrite serialize_property_instance, <- Hr, <- Ht.
      rewrite (Hp false He), Hnone. reflexivity.
Qed.

End NestedObjects.

(** C1, the claim as stated fails both ways.  The serialized form of the
    nested lamp has the one key ["5850"], of the field [onOff] that is not
    required, and the lamp is emitted; the serialized form of the other
    lamp has the one key ["5851"], of the required field [dimmer], and the
    lamp is left out. *)
Lemma nested_object_with_optional_key_is_emitted :
  serialize Sample.classes (Sample.fixture Sample.dark_lamp) VNull Sample.state0
  = Return (VRec 1000 [("3311", VRec 1001 [("5850", VNum 0)])],
            {| next := 1002; logged := [] |})
  /\ isRequired Sample.classes Sample.dark_lamp VNull "onOff" = false
  /\ lookupKeyOrProperty Sample.classes Sample.dark_lamp "5850" = Some "onOff"
  /\ serialize Sample.classes (Sample.fixture Sample.dimmed_lamp) VNull
       Sample.state0
     = Return (VRec 1000 [], {| next := 1002; logged := [] |})
  /\ serialize Sample.classes Sample.dimmed_lamp VNull Sample.state0
     = Return (VRec 1000 [("5851", VNum 5)], {| next := 1001; logged := [] |})
  /\ isRequired Sample.classes Sample.dimmed_lamp VNull "dimmer" = true.
Proof. repeat split. Qed.

Lemma nested_object_empty_iff_all_keys_required_witness :
  serializeValue Sample.classes (serialize Sample.classes)
    (Sample.fixture Sample.dimmed_lamp) VNull "light" Sample.dimmed_lamp VNull
    None Sample.state0
  = Return (VNull, {| next := 1001; logged := [] |}).
Proof.
  apply (nested_object_empty_iff_all_keys_required Sample.classes
           (Sample.fixture Sample.dimmed_lamp) VNull "light" 16 Sample.light_id
           _ VNull None Sample.state0 {| next := 1001; logged := [] |}
           (VRec 1000 [("5851", VNum 5)]));
    reflexivity.
Defined.

(** ** serialize: the differential rule *)

Section DifferentialRule.
Variable classes : class_id -> ClassInfo.
Variable self : value -> value -> M value.

Lemma serialize_property_direct this reference propName v :
  is_array v
  && match getSerializer classes this propName with
     | Some t => splitArrays t
     | None => true
     end = false ->
  serialize_property classes self this reference propName v
  = serializeValue classes self this reference propName v
      (reference_value reference propName) (getSerializer classes this propName).
Proof.
  intros H. unfold serialize_property.
  destruct v; try reflexivity.
  simpl in H. now rewrite H.
Qed.

(** C3, as the code has it.  For a value that is not a nested instance and
    a reference value that is not null: when the field is not required and
    the raw value is strictly equal to the raw reference value,
    [serializeValue] returns [null] without running any transform, and the
    loop stores nothing for the field; otherwise, in particular when the
    field is required, the transform (if one applies) is run on the raw
    value after the comparison, and what it returns (the raw value without
    a transform) is stored under the wire key of the field when it is not
    null. *)
Theorem equal_to_reference_is_omitted_unless_required :
  forall (this reference : value) (propName : string) (v refValue : value)
         (transform : option PropertyTransform) (s : state),
    is_ipso v = false ->
    is_nullish refValue = false ->
    (isRequired classes this reference propName = false ->
     strict_eq refValue v = true ->
     serializeValue classes self this reference propName v refValue transform s
     = Return (VNull, s))
    /\ (isRequired classes this reference propName = true
        \/ strict_eq refValue v = false ->
        serializeValue classes self this reference propName v refValue
          transform s
        = (t <- transform_applies this transform ;;
           ret (match t with
                | Some t => kernel t v this
                | None => v
                end)) s)
    /\ (forall (rest : list (string * value)) (out : record),
          starts_with_underscore propName = false ->
          isSerializable classes this propName = true ->
          refValue = reference_value reference propName ->
          transform = getSerializer classes this propName ->
          is_array v
          && match transform with
             | Some t => splitArrays t
             | None => true
             end = false ->
          (isRequired classes this reference propName = false ->
           strict_eq refValue v = true ->
           serialize_properties classes self this reference
             ((propName, v) :: rest) out s
           = serialize_properties classes self this reference rest out s)
          /\ (isRequired classes this reference propName = true ->
              forall t s',
                transform_applies this transform s = Return (t, s') ->
                is_nullish (match t with
                            | Some t => kernel t v this
                            | None => v
                            end) = false ->
                serialize_properties classes self this reference
                  ((propName, v) :: rest) out s
                = serialize_properties classes self this reference rest
                    (set_prop (to_key (lookupKeyOrProperty classes this propName))
                       (match t with
                        | Some t => kernel t v this
                        | None => v
                        end) out) s')).
Proof.
  intros this reference propName v refValue transform s Hv Hr.
  assert (Homit : isRequired classes this reference propName = false ->
                  strict_eq refValue v = true ->
                  serializeValue classes self this reference propName v refValue
                    transform s = Return (VNull, s)).
  { intros Hq He. unfold serializeValue.
    destruct v; try discriminate; rewrite Hr, Hq, He; reflexivity. }
  assert (Hkeep : isRequired classes this reference propName = true
                  \/ strict_eq refValue v = false ->
                  serializeValue classes self this reference propName v refValue
                    transform s
                  = (t <- transform_applies this transform ;;
                     ret (match t with
                          | Some t => kernel t v this
                          | None => v
                          end)) s).
  { intros H. unfold serializeValue.
    assert (E : negb (is_nullish refValue)
                && (negb (isRequired classes this reference propName)
                    && strict_eq refValue v) = false).
    { rewrite Hr. destruct H as [-> | ->]; simpl; [reflexivity|].
      apply andb_false_r. }
    destruct v; try discriminate; rewrite E; unfold bind;
      destruct (transform_applies this transform s) as [[[t|] s2]|];
      reflexivity. }
  split; [exact Homit|]. split; [exact Hkeep|].
  intros rest out Hu Hs Href Ht Hdirect. subst refValue transform. split.
  - intros Hq He.
    rewrite (serialize_properties_step classes self this reference propName
               v rest out s VNull s Hu Hs); [reflexivity|].
    rewrite (serialize_property_direct this reference propName v Hdirect).
    now apply Homit.
  - intros Hq t s' Happ Hnn.
    rewrite (serialize_properties_step classes self this reference propName
               v rest out s
               (match t with
                | Some t => kernel t v this
                | None => v
                end) s' Hu Hs).
    + now rewrite Hnn.
    + rewrite (serialize_property_direct this reference propName v Hdirect).
      rewrite (Hkeep (or_introl Hq)). unfold bind. rewrite Happ.
      reflexivity.
Qed.

End DifferentialRule.

(** C3, the claim as stated fails: [light] is a required field of [Group],
    the group is serialized against itself, so the raw value of [light] is
    strictly equal to the reference value, which is not null, and the
    output has no key ["3311"]: the nested lamp serializes to its required
    key alone and is dropped as empty. *)
Lemma required_nested_object_is_omitted :
  serialize Sample.classes (Sample.group_of Sample.lamp)
    (Sample.group_of Sample.lamp) Sample.state0
  = Return (VRec 1000 [], {| next := 1002; logged := [] |})
  /\ isRequired Sample.classes (Sample.group_of Sample.lamp)
       (Sample.group_of Sample.lamp) "light" = true
  /\ lookupKeyOrProperty Sample.classes (Sample.group_of Sample.lamp) "light"
     = Some "3311"
  /\ reference_value (Sample.group_of Sample.lamp) "light" = Sample.lamp
  /\ strict_eq (reference_value (Sample.group_of Sample.lamp) "light")
       (get_prop (Sample.group_of Sample.lamp) "light") = true.
Proof. repeat split. Qed.

Lemma equal_to_reference_is_omitted_unless_required_witness :
  serializeValue Sample.classes (serialize Sample.classes) Sample.lamp
    Sample.lamp "onOff" (VBool true) (VBool true)
    (getSerializer Sample.classes Sample.lamp "onOff") Sample.state0
  = Return (VNull, Sample.state0)
  /\ serializeValue Sample.classes (serialize Sample.classes) Sample.lamp
       Sample.lamp "dimmer" (VNum 5) (VNum 5) None Sample.state0
     = Return (VNum 5, Sample.state0).
Proof.
  split.
  - apply (equal_to_reference_is_omitted_unless_required Sample.classes
             (serialize Sample.classes) Sample.lamp Sample.lamp "onOff"
             (VBool true) (VBool true)
             (getSerializer Sample.classes Sample.lamp "onOff") Sample.state0
             eq_refl eq_refl); reflexivity.
  - apply (equal_to_reference_is_omitted_unless_required Sample.classes
             (serialize Sample.classes) Sample.lamp Sample.lamp "dimmer"
             (VNum 5) (VNum 5) None Sample.state0 eq_refl eq_refl).
    left. reflexivity.
Defined.

(** ** The proxy layer *)

Section ProxyFacts.
Import ProxyLayer.

Lemma read_unproxy_method (x : object) :
  is_domain_object x = true ->
  forall s, read x "unproxy" s = Return (Method "unproxy", s).
Proof.
  induction x as [v|a me IH g st|a xs]; intros H s.
  - cbn [read]. cbn [is_domain_object] in H. rewrite H. reflexivity.
  - cbn [read]. cbn [is_domain_object] in H.
    change (String.eqb "unproxy" "isProxy") with false.
    change (String.eqb "unproxy" "underlyingObject") with false.
    change (String.eqb "unproxy" "unproxy") with true.
    cbv iota. now apply IH.
  - discriminate.
Qed.

Lemma read_own_or_undefined v key s :
  is_method key = false -> is_inherited key = false ->
  read (Plain v) key s = Return (Data (Plain (get_prop v key)), s).
Proof.
  intros Hm Hi. cbn [read]. rewrite Hm, Hi, !andb_false_r.
  unfold get_prop. now destruct (own_prop v key).
Qed.

Lemma read_own v key x s :
  is_method key = false -> own_prop v key = Some x ->
  read (Plain v) key s = Return (Data (Plain x), s).
Proof.
  intros Hm Ho. cbn [read]. now rewrite Hm, Ho, andb_false_r.
Qed.

(** C9.  For a domain object [x] (an instance, or a proxy over one) and
    the proxy [w] that [x.createProxy(get, set)] returns, whatever the
    custom traps, [w.unproxy()] returns [x] itself; and for an instance [x]
    whose [isProxy] is false, [x.unproxy()] returns [x] itself, so that
    unwrapping what has been unwrapped changes nothing. *)
Theorem unproxy_returns_underlying_object :
  forall (x : object) (get set : option handler) (s : state),
    is_domain_object x = true ->
    (exists w,
        createProxy x get set s = Return (w, after_alloc s)
        /\ forall s', call_unproxy w s' = Return (Data x, s'))
    /\ (forall v s',
          x = Plain v ->
          truthy (get_prop v "isProxy") = false ->
          call_unproxy x s' = Return (Data x, s')).
Proof.
  intros x get set s Hx. split.
  - exists (Wrapper (next s) x get set). split; [reflexivity|].
    intros s'. unfold call_unproxy, bind.
    rewrite (read_unproxy_method (Wrapper (next s) x get set) Hx s').
    reflexivity.
  - intros v s' -> Hp. unfold call_unproxy, bind.
    rewrite (read_unproxy_method (Plain v) Hx s').
    cbn [is_domain_object] in Hx.
    unfold unproxy, bind.
    rewrite (read_own_or_undefined v "isProxy" s' eq_refl eq_refl).
    cbn [truthy_result]. rewrite Hp. reflexivity.
Qed.

End ProxyFacts.

Lemma unproxy_returns_underlying_object_witness :
  (exists w,
      ProxyLayer.createProxy (ProxyLayer.Plain Sample.lamp) (Some 7) None
        Sample.state0
      = Return (w, after_alloc Sample.state0)
      /\ forall s', ProxyLayer.call_unproxy w s'
                    = Return (ProxyLayer.Data (ProxyLayer.Plain Sample.lamp), s'))
  /\ ProxyLayer.call_unproxy (ProxyLayer.Plain Sample.lamp) Sample.state0
     = Return (ProxyLayer.Data (ProxyLayer.Plain Sample.lamp), Sample.state0).
Proof.
  destruct (unproxy_returns_underlying_object (ProxyLayer.Plain Sample.lamp)
              (Some 7) None Sample.state0 eq_refl) as [H1 H2].
  split; [exact H1|].
  apply (H2 Sample.lamp Sample.state0 eq_refl eq_refl).
Defined.

(** ** serialize: where it throws *)

Section Throws.
Variable classes : class_id -> ClassInfo.
Variable self : value -> value -> M value.
Variables this reference : value.

Lemma transform_applies_throws transform s e :
  transform_applies this transform s = Throw e ->
  e = TypeError /\ is_nullish (get_prop this "options") = true.
Proof.
  unfold transform_applies, skipBasicSerializers, bind, ret, throw.
  destruct transform as [t|]; [|discriminate].
  destruct (neverSkip t); [discriminate|].
  destruct (get_prop this "options"); try discriminate;
    intros [= <-]; auto.
Qed.


Lemma serializeValue_throws propName x rx transform s e :
  serializeValue classes self this reference propName x rx transform s = Throw e ->
  (is_ipso x = true /\ self x rx s = Throw e)
  \/ (e = TypeError /\ is_nullish (get_prop this "options") = true).
Proof.
  unfold serializeValue.
  assert (F : forall r s1,
    (t <- transform_applies this transform ;;
     match t with
     | Some t => ret (kernel t r this)
     | None => ret r
     end) s1 = Throw e ->
    e = TypeError /\ is_nullish (get_prop this "options") = true).
  { intros r s1. unfold bind.
    destruct (transform_applies this transform s1) as [[[t|] s2]|e'] eqn:E;
      try discriminate.
    intros [= <-]. eapply transform_applies_throws; eassumption. }
  destruct x;
    try (destruct (negb (is_nullish rx)
                   && (negb (isRequired classes this reference propName)
                       && strict_eq rx _));
         [discriminate | intros H; right; eapply F; eassumption]).
  unfold bind at 1.
  destruct (self (VInst a cls props) rx s) as [[w s1]|e'] eqn:E.
  - destruct (isSerializedObjectEmpty _ _ _ _); [discriminate|].
    intros H. right. eapply F; eassumption.
  - intros [= <-]. left. auto.
Qed.

Lemma serialize_items_throws propName serializer xs :
  forall refItems s e,
    serialize_items classes self this reference propName serializer xs refItems s
    = Throw e ->
    (e = TypeError /\ is_nullish (get_prop this "options") = true)
    \/ exists i x s',
         nth_error xs i = Some x /\ is_ipso x = true
         /\ self x (item_reference refItems i) s' = Throw e.
Proof.
  induction xs as [|x xs IH]; intros refItems s e; [discriminate|].
  cbn [serialize_items]. unfold bind at 1.
  destruct (serializeValue _ _ _ _ _ _ _ _ s) as [[y s1]|e'] eqn:E.
  - unfold bind at 1.
    destruct (serialize_items _ _ _ _ _ _ xs _ s1) as [[ys s2]|e''] eqn:E';
      [discriminate|].
    intros [= <-]. apply IH in E' as [H|(i & x' & s' & Hn & Hi & Hs)];
      [now left|].
    right. exists (S i), x', s'. repeat split; try assumption.
    destruct refItems as [[|r rs]|]; simpl in *; try assumption.
    now destruct i.
  - intros [= <-].
    apply serializeValue_throws in E as [[Hi Hs]|H]; [|now left].
    right. exists 0, x, s. repeat split; try assumption.
    destruct refItems as [[|r rs]|]; exact Hs.
Qed.

Lemma compact_returns xs s : exists w s', compact xs s = Return (w, s').
Proof.
  unfold compact.
  destruct (filter _ xs); unfold bind, alloc, ret; eauto.
Qed.

Lemma bind_compact_throws (m : M (list value)) s e :
  (mapped <- m ;; compact mapped) s = Throw e -> m s = Throw e.
Proof.
  unfold bind. destruct (m s) as [[xs s1]|e']; [|now intros [= <-]].
  destruct (compact_returns xs s1) as (w & s' & ->). discriminate.
Qed.

Lemma serialize_property_throws propName v s e :
  serialize_property classes self this reference propName v s = Throw e ->
  (e = ArrayMismatch
   /\ exists b items,
        v = VArr b items /\ splits classes this propName = true
        /\ is_nullish (reference_value reference propName) = false
        /\ same_length_array (reference_value reference propName) items = false)
  \/ (e = TypeError /\ is_nullish (get_prop this "options") = true)
  \/ exists x rx s',
       nested_call classes this reference propName v x rx
       /\ self x rx s' = Throw e.
Proof.
  assert (D : serializeValue classes self this reference propName v
                (reference_value reference propName)
                (getSerializer classes this propName) s = Throw e ->
              (e = TypeError /\ is_nullish (get_prop this "options") = true)
              \/ exists x rx s',
                   nested_call classes this reference propName v x rx
                   /\ self x rx s' = Throw e).
  { intros H. apply serializeValue_throws in H as [[Hi Hs]|H]; [|now left].
    right. exists v, (reference_value reference propName), s.
    split; [now constructor|assumption]. }
  unfold serialize_property. fold (splits classes this propName).
  destruct v as [| | | | |b items| |]; try (intros H; right; now apply D).
  destruct (splits classes this propName) eqn:Hsp;
    [|intros H; right; now apply D].
  destruct (is_nullish (reference_value reference propName)) eqn:Hn.
  - intros H. apply bind_compact_throws in H.
    apply serialize_items_throws in H as [H|(i & x & s' & Hx & Hi & Hs)];
      [now right; left|].
    right. right. exists x, VNull, s'. split; [|exact Hs].
    eapply call_on_item_without_reference; eauto.
  - destruct (reference_value reference propName) as [| | | | |b' rs| |] eqn:Hr;
      try (intros [= <-]; left; split; [reflexivity|];
           exists b, items; auto).
    destruct (Nat.eqb (List.length rs) (List.length items)) eqn:Hl.
    + intros H. apply bind_compact_throws in H.
      apply serialize_items_throws in H as [H|(i & x & s' & Hx & Hi & Hs)];
        [now right; left|].
      right. right. exists x, (nth i rs VUndef), s'. split; [|exact Hs].
      eapply call_on_item; eauto. now apply Nat.eqb_eq.
    + intros [= <-]. left. split; [reflexivity|].
      exists b, items. simpl. auto.
Qed.

Lemma serialize_properties_throws_somewhere ps : forall out s e,
  serialize_properties classes self this reference ps out s = Throw e ->
  exists propName v s1,
    In (propName, v) ps /\ visited classes this propName = true
    /\ serialize_property classes self this reference propName v s1 = Throw e.
Proof.
  induction ps as [|[p v] ps IH]; intros out s e; [discriminate|].
  cbn [serialize_properties]. fold (visited classes this p).
  destruct (visited classes this p) eqn:Hv.
  - unfold bind at 1.
    destruct (serialize_property classes self this reference p v s)
      as [[v' s1]|e'] eqn:E.
    + intros H. apply IH in H as (p' & v0 & s2 & Hin & Hv' & H).
      exists p', v0, s2. repeat split; auto. now right.
    + intros [= <-]. exists p, v, s. repeat split; auto. now left.
  - intros H. apply IH in H as (p' & v0 & s2 & Hin & Hv' & H).
    exists p', v0, s2. repeat split; auto. now right.
Qed.

End Throws.

Section ArrayMismatch.
Variable classes : class_id -> ClassInfo.

Lemma nested_call_is_ipso this reference propName v x rx :
  nested_call classes this reference propName v x rx -> is_ipso x = true.
Proof. now destruct 1. Qed.

Lemma well_typed_props ps : forall p v,
  In (p, v) ps ->
  (fix props (ps : list (string * value)) : bool :=
     match ps with
     | [] => true
     | (_, x) :: ps' => well_typed x && props ps'
     end) ps = true ->
  well_typed v = true.
Proof.
  induction ps as [|[k x] ps IH]; intros p v; [contradiction|].
  intros Hin Hwt. apply andb_prop in Hwt as [Hx Hps].
  destruct Hin as [E|Hin]; [|eauto].
  injection E as _ <-. exact Hx.
Qed.

Lemma well_typed_items xs : forall i x,
  nth_error xs i = Some x ->
  well_typed (VArr 0 xs) = true ->
  well_typed x = true.
Proof.
  induction xs as [|y xs IH]; intros [|i] x; try discriminate.
  - intros [= ->] H. cbn in H. now apply andb_prop in H as [Hx _].
  - intros Hn H. cbn in H. apply andb_prop in H as [_ Hxs].
    apply (IH i x Hn). exact Hxs.
Qed.

Lemma well_typed_instance a c ps :
  well_typed (VInst a c ps) = true ->
  truthy (get_prop (VInst a c ps) "isProxy") = false
  /\ is_nullish (get_prop (VInst a c ps) "options") = false
  /\ forall p v, In (p, v) ps -> well_typed v = true.
Proof.
  cbn [well_typed]. intros H.
  apply andb_prop in H as [H' Hps]. apply andb_prop in H' as [Hp Ho].
  apply negb_true_iff in Hp, Ho. repeat split; try assumption.
  intros p v Hin. eapply well_typed_props; eassumption.
Qed.

Lemma well_typed_nested_call a c ps reference propName v x rx :
  well_typed (VInst a c ps) = true ->
  In (propName, v) ps ->
  nested_call classes (VInst a c ps) reference propName v x rx ->
  well_typed x = true.
Proof.
  intros Hwt Hin Hcall.
  destruct (well_typed_instance a c ps Hwt) as (_ & _ & Hps).
  pose proof (Hps _ _ Hin) as Hv.
  destruct Hcall as [Hi|b items i y -> _ _ Hn _|b items b' rs i y -> _ _ _ Hn _];
    [assumption| |]; eapply well_typed_items; eauto.
Qed.

Lemma serialize_throw_explained (x : value) :
  throw_explained classes x
  /\ match x with
     | VArr _ items => Forall (throw_explained classes) items
     | _ => True
     end.
Proof.
  induction x as [| |b|z|str|a xs IH|a ps _|a c ps IH]
    using value_nested_ind;
    try (split; [|exact I]; intros reference s e [= <-]; right; auto).
  - split.
    + intros reference s e [= <-]. right. auto.
    + rewrite Forall_forall in *. intros x Hx. now apply IH.
  - split; [|exact I]. intros reference s e.
    rewrite serialize_instance.
    destruct (truthy (get_prop (VInst a c ps) "isProxy")) eqn:Hp.
    + assert (Hwt : well_typed (VInst a c ps) = false).
      { destruct (well_typed (VInst a c ps)) eqn:W; [|reflexivity].
        apply well_typed_instance in W as (W & _). congruence. }
      rewrite serialize_underlying_lookup.
      destruct (lookup "underlyingObject" ps) as [u|] eqn:E.
      * pose proof (lookup_In _ _ _ E) as Hin.
        rewrite Forall_forall in IH. destruct (IH _ Hin) as [Hu _].
        intros H. apply Hu in H as [[-> Hr]|[-> _]].
        -- left. split; [reflexivity|]. eapply raises_underlying; eauto.
        -- right. auto.
      * intros [= <-]. right. auto.
    + unfold bind at 1. unfold alloc. unfold bind at 1.
      destruct (serialize_properties _ _ _ _ _ _ _) as [[out s1]|e'] eqn:E;
        [discriminate|].
      intros [= <-].
      apply serialize_properties_throws_somewhere
        in E as (p & v & s2 & Hin & Hv & E).
      apply serialize_property_throws
        in E as [[-> (b & items & -> & Hsp & Hn & Hl)]
                |[[-> Ho]|(x & rx & s' & Hcall & Hx)]].
      * left. split; [reflexivity|]. eapply raises_here; eauto.
      * right. split; [reflexivity|]. right.
        destruct (well_typed (VInst a c ps)) eqn:W; [|reflexivity].
        apply well_typed_instance in W as (_ & W & _). congruence.
      * assert (Qx : throw_explained classes x).
        { rewrite Forall_forall in IH. destruct (IH _ Hin) as [Qv Qitems].
          cbn [snd] in Qv, Qitems.
          destruct Hcall
            as [Hi|b items i y -> _ _ Hn _|b items b' rs i y -> _ _ _ Hn _];
            [assumption| |];
            rewrite Forall_forall in Qitems; apply Qitems;
            eapply nth_error_In; eassumption. }
        apply Qx in Hx as [[-> Hr]|[-> [Hi|Hw]]].
        -- left. split; [reflexivity|]. eapply raises_nested; eauto.
        -- rewrite (nested_call_is_ipso _ _ _ _ _ _ Hcall) in Hi.
           discriminate.
        -- right. split; [reflexivity|]. right.
           destruct (well_typed (VInst a c ps)) eqn:W; [|reflexivity].
           rewrite (well_typed_nested_call _ _ _ _ _ _ _ _ W Hin Hcall) in Hw.
           discriminate.
Qed.

Lemma serialize_properties_app self this reference pre post : forall out s,
  serialize_properties classes self this reference (pre ++ post) out s
  = match serialize_properties classes self this reference pre out s with
    | Return (out1, s1) =>
        serialize_properties classes self this reference post out1 s1
    | Throw e => Throw e
    end.
Proof.
  induction pre as [|[p v] pre IH]; intros out s.
  { cbn [app serialize_properties]. reflexivity. }
  change (((p, v) :: pre) ++ post) with ((p, v) :: (pre ++ post)).
  cbn [serialize_properties].
  destruct (negb (starts_with_underscore p) && isSerializable classes this p);
    [|apply IH].
  unfold bind.
  destruct (serialize_property classes self this reference p v s)
    as [[v' s1]|]; [apply IH|reflexivity].
Qed.

Lemma serialize_property_mismatch self this reference propName b items s :
  splits classes this propName = true ->
  is_nullish (reference_value reference propName) = false ->
  same_length_array (reference_value reference propName) items = false ->
  serialize_property classes self this reference propName (VArr b items) s
  = Throw ArrayMismatch.
Proof.
  intros Hsp Hn Hl. unfold serialize_property.
  fold (splits classes this propName). rewrite Hsp, Hn.
  destruct (reference_value reference propName); try reflexivity.
  simpl in Hl. now rewrite Hl.
Qed.

(** C2, as the code has it.  When the loop of [serialize] reaches a
    visited property that holds an array to be split, and the reference
    value of the property is not null and is not an array of the same
    length, the call ends with the error for mismatched arrays.  That is
    the only [throw] of [serialize]: a call ends with this error only if a
    property of the instance, or of an instance nested in it, meets that
    condition; and on an instance that is well typed (with the instances
    nested in it, [isProxy] is false and [options] is an object) a call
    ends with no other error. *)
Theorem serialize_throws_on_array_mismatch :
  (forall (a : addr) (c : class_id) (pre post : list (string * value))
          (propName : string) (b : addr) (items : list value)
          (reference : value) (s s1 : state) (out1 : record),
      truthy (get_prop (VInst a c (pre ++ (propName, VArr b items) :: post))
                "isProxy") = false ->
      serialize_properties classes (serialize classes)
        (VInst a c (pre ++ (propName, VArr b items) :: post))
        (effective_reference reference) pre [] (after_alloc s)
      = Return (out1, s1) ->
      visited classes (VInst a c (pre ++ (propName, VArr b items) :: post))
        propName = true ->
      splits classes (VInst a c (pre ++ (propName, VArr b items) :: post))
        propName = true ->
      is_nullish (reference_value (effective_reference reference) propName)
      = false ->
      same_length_array
        (reference_value (effective_reference reference) propName) items
      = false ->
      serialize classes (VInst a c (pre ++ (propName, VArr b items) :: post))
        reference s
      = Throw ArrayMismatch)
  /\ (forall (this reference : value) (s : state),
        serialize classes this reference s = Throw ArrayMismatch ->
        raises classes this reference)
  /\ (forall (this reference : value) (s : state) (e : error),
        is_ipso this = true ->
        well_typed this = true ->
        serialize classes this reference s = Throw e ->
        e = ArrayMismatch).
Proof.
  split; [|split].
  - intros a c pre post propName b items reference s s1 out1
           Hp Hpre Hv Hsp Hn Hl.
    rewrite serialize_instance, Hp.
    unfold bind at 1. unfold alloc. unfold bind at 1.
    change {| next := S (next s); logged := logged s |} with (after_alloc s).
    rewrite serialize_properties_app, Hpre.
    unfold visited in Hv. apply andb_prop in Hv as [Hu Hs].
    apply negb_true_iff in Hu.
    rewrite (serialize_properties_throws classes _ _ _ propName _ post out1 s1
               ArrayMismatch Hu Hs); [reflexivity|].
    now apply serialize_property_mismatch.
  - intros this reference s H.
    destruct (serialize_throw_explained this) as [Q _].
    apply Q in H as [[_ H]|[H _]]; [assumption|discriminate].
  - intros this reference s e Hi Hw H.
    destruct (serialize_throw_explained this) as [Q _].
    apply Q in H as [[H _]|[_ [H|H]]]; [assumption|congruence|congruence].
Qed.

End ArrayMismatch.

(** C2, the claim as stated fails: the reference holds the string ["abc"]
    where the instance holds an array of three items.  The two lengths are
    the same, and [serialize] throws all the same, because the reference
    value is not an array. *)
Lemma string_reference_of_equal_length_throws :
  serialize Sample.classes Sample.socket Sample.odd_socket Sample.state0
  = Throw ArrayMismatch
  /\ get_prop Sample.socket "levels" = VArr 22 [VNum 1; VNum 2; VNum 3]
  /\ reference_value Sample.odd_socket "levels" = VStr "abc"
  /\ get_prop (get_prop Sample.socket "levels") "length" = VNum 3
  /\ get_prop (reference_value Sample.odd_socket "levels") "length" = VNum 3.
Proof. repeat split. Qed.

Lemma serialize_throws_on_array_mismatch_witness :
  serialize Sample.classes Sample.socket Sample.short_socket Sample.state0
  = Throw ArrayMismatch
  /\ raises Sample.classes Sample.socket Sample.short_socket.
Proof.
  destruct (serialize_throws_on_array_mismatch Sample.classes) as (A & B & _).
  assert (E : serialize Sample.classes Sample.socket Sample.short_socket
                Sample.state0 = Throw ArrayMismatch).
  { apply (A 20 Sample.accessory_id
             [("isProxy", VBool false); ("options", VRec 21 []);
              ("name", VStr "socket")]
             [("light", Sample.lamp)] "levels" 22 [VNum 1; VNum 2; VNum 3]
             Sample.short_socket Sample.state0
             {| next := 1001; logged := [] |} []);
      reflexivity. }
  split; [exact E|]. apply (B _ _ _ E).
Defined.

(** ** The round trip through the wire format *)

Section RoundTripFacts.
Variable classes : class_id -> ClassInfo.

Lemma transform_applies_all this transform s :
  options_apply_all this ->
  transform_applies this transform s = Return (transform, s).
Proof.
  intros [Hn Hs]. unfold transform_applies, skipBasicSerializers.
  destruct transform as [t|]; [|reflexivity].
  destruct (neverSkip t); [reflexivity|].
  unfold bind.
  destruct (get_prop this "options"); try discriminate;
    unfold ret; rewrite Hs; reflexivity.
Qed.

Lemma serialize_property_primitive self this propName v s :
  options_apply_all this ->
  is_primitive v = true ->
  serialize_property classes self this VNull propName v s
  = Return (emitted classes this propName v, s).
Proof.
  intros Ho Hv.
  rewrite serialize_property_direct by (destruct v; try discriminate; reflexivity).
  unfold serializeValue, emitted, apply_transform.
  change (reference_value VNull propName) with VNull.
  destruct v; try discriminate; cbn [is_nullish negb andb]; unfold bind;
    rewrite (transform_applies_all this _ s Ho);
    destruct (getSerializer classes this propName); reflexivity.
Qed.

Lemma serialize_properties_primitive self this ps : forall out s,
  options_apply_all this ->
  (forall p v, In (p, v) ps -> visited classes this p = true ->
               is_primitive v = true) ->
  serialize_properties classes self this VNull ps out s
  = Return (emit classes this ps out, s).
Proof.
  induction ps as [|[p v] ps IH]; intros out s Ho Hflat; [reflexivity|].
  cbn [serialize_properties emit]. fold (visited classes this p).
  destruct (visited classes this p) eqn:Hv.
  - unfold bind.
    rewrite serialize_property_primitive; auto.
    + cbn [andb].
      destruct (is_nullish (emitted classes this p v)); cbn [negb];
        apply IH; auto; intros; eapply Hflat; eauto; now right.
    + apply (Hflat p v); [now left|assumption].
  - cbn [andb]. apply IH; auto. intros; eapply Hflat; eauto; now right.
Qed.

Lemma serialize_primitive_instance a c ps s :
  truthy (get_prop (VInst a c ps) "isProxy") = false ->
  options_apply_all (VInst a c ps) ->
  (forall p v, In (p, v) ps -> visited classes (VInst a c ps) p = true ->
               is_primitive v = true) ->
  serialize classes (VInst a c ps) VUndef s
  = Return (VRec (next s) (emit classes (VInst a c ps) ps []), after_alloc s).
Proof.
  intros Hp Ho Hflat. rewrite serialize_instance, Hp.
  unfold bind at 1. unfold alloc. unfold bind at 1.
  change (effective_reference VUndef) with VNull.
  rewrite serialize_properties_primitive; auto.
Qed.

Lemma parseValue_primitive this key w transform split s :
  options_apply_all this ->
  is_primitive w = true -> is_nullish w = false ->
  parseValue this key w transform split s
  = Return (apply_transform transform w this, s).
Proof.
  intros Ho Hp Hn.
  destruct w; try discriminate; cbn [parseValue typeof_object];
    unfold bind; rewrite (transform_applies_all this _ s Ho);
    destruct transform; reflexivity.
Qed.

Lemma parse_entry_plain this obj key w s :
  options_apply_all this ->
  plain_entry classes this key w ->
  parse_entry classes this obj key w s
  = Return (assign this (to_key (lookupKeyOrProperty classes this key))
              (apply_transform
                 (getDeserializer classes this
                    (to_key (lookupKeyOrProperty classes this key)))
                 w this), s).
Proof.
  intros Ho (Hd & (p & Hk & Hne & _) & Hp & Hn).
  unfold parse_entry. rewrite Hd, Hk. cbn [to_key].
  destruct p as [|ch p]; [congruence|].
  unfold bind. rewrite parseValue_primitive; auto.
Qed.

Lemma options_apply_all_assign a c ps p v :
  p <> "options" ->
  options_apply_all (VInst a c ps) ->
  options_apply_all (assign (VInst a c ps) p v).
Proof.
  intros Hne. unfold options_apply_all, get_prop. cbn [assign own_prop].
  rewrite lookup_set_prop_other by congruence. auto.
Qed.

Lemma plain_entry_class this this' key w :
  class_of classes this' = class_of classes this ->
  plain_entry classes this key w -> plain_entry classes this' key w.
Proof.
  intros Hc (Hd & Hk & Hp). split; [|split]; auto.
  - now rewrite (getDeserializer_class classes this this' key Hc).
  - now rewrite (lookupKeyOrProperty_class classes this this' key Hc).
Qed.

Lemma parse_entries_plain obj es : forall a c ps s,
  options_apply_all (VInst a c ps) ->
  (forall key w, In (key, w) es -> plain_entry classes (VInst a c ps) key w) ->
  parse_entries classes (VInst a c ps) obj es s
  = Return (absorb classes (VInst a c ps) es, s).
Proof.
  induction es as [|[key w] es IH]; intros a c ps s Ho Hes; [reflexivity|].
  cbn [parse_entries absorb]. unfold bind.
  pose proof (Hes key w (or_introl eq_refl)) as He.
  rewrite parse_entry_plain by assumption.
  destruct He as (_ & (p & Hk & _ & Hopt) & _).
  rewrite Hk. cbn [to_key assign].
  apply IH.
  - apply (options_apply_all_assign a c ps p _ Hopt Ho).
  - intros key' w' Hin.
    apply (plain_entry_class (VInst a c ps)); [reflexivity|].
    apply Hes. now right.
Qed.

Lemma lookup_emit this ps : forall out k,
  symmetric_keys classes this ->
  NoDup (keys ps) ->
  (forall p v, In (p, v) ps -> visited classes this p = true ->
               exists kp, lookupKeyOrProperty classes this p = Some kp) ->
  lookup k (emit classes this ps out)
  = match lookupKeyOrProperty classes this k with
    | Some p =>
        if visited classes this p then
          match lookup p ps with
          | Some v =>
              if is_nullish (emitted classes this p v) then lookup k out
              else Some (emitted classes this p v)
          | None => lookup k out
          end
        else lookup k out
    | None => lookup k out
    end.
Proof.
  induction ps as [|[p0 v0] ps IH]; intros out k Hsym Hnd Hkeys.
  - cbn [emit lookup].
    destruct (lookupKeyOrProperty classes this k) as [p|]; [|reflexivity].
    now destruct (visited classes this p).
  - cbn [emit].
    match goal with
    | |- context [emit classes this ps ?o] => set (out1 := o)
    end.
    inversion Hnd as [|? ? Hnotin Hnd']; subst.
    rewrite IH; auto;
      [|intros p v Hin Hv; apply (Hkeys p v); [now right|assumption]].
    (* the record after the first property, away from its key *)
    assert (Hother :
      lookupKeyOrProperty classes this k <> Some p0
      \/ visited classes this p0 = false ->
      lookup k out1 = lookup k out).
    { intros H. unfold out1.
      destruct (visited classes this p0) eqn:Hv0; [|reflexivity].
      destruct H as [H|H]; [|discriminate].
      cbn [andb].
      destruct (is_nullish (emitted classes this p0 v0)); [reflexivity|].
      cbn [negb].
      destruct (Hkeys p0 v0 (or_introl eq_refl) Hv0) as (kp & Hkp).
      rewrite Hkp. cbn [to_key].
      apply lookup_set_prop_other. intros ->.
      apply H. now apply Hsym. }
    destruct (lookupKeyOrProperty classes this k) as [p|] eqn:Ek.
    + destruct (visited classes this p) eqn:Hvp.
      * change (lookup p ((p0, v0) :: ps))
          with (if String.eqb p p0 then Some v0 else lookup p ps).
        destruct (String.eqb_spec p p0) as [->|Hne].
        -- rewrite (lookup_not_in _ _ Hnotin). unfold out1.
           rewrite Hvp. cbn [andb].
           rewrite (Hsym _ _ Ek). cbn [to_key].
           destruct (is_nullish (emitted classes this p0 v0)); cbn [negb];
             [reflexivity|apply lookup_set_prop_same].
        -- rewrite Hother by (left; congruence). reflexivity.
      * apply Hother.
        destruct (String.eqb_spec p p0) as [->|Hne];
          [now right|left; congruence].
    + apply Hother. left. discriminate.
Qed.

Lemma keys_set_prop_nodup {A} k (v : A) ps :
  NoDup (keys ps) -> NoDup (keys (set_prop k v ps)).
Proof.
  unfold keys. induction ps as [|[k0 v0] ps IH]; intros Hnd.
  - repeat constructor. intros [].
  - cbn [set_prop]. inversion Hnd as [|? ? Hnotin Hnd']; subst.
    destruct (String.eqb_spec k k0) as [->|Hne].
    + now constructor.
    + cbn [map fst]. constructor; [|now apply IH].
      intros Hin. apply Hnotin.
      clear - Hin Hne. induction ps as [|[k1 v1] ps IH]; cbn in *.
      * destruct Hin as [E|[]]. congruence.
      * destruct (String.eqb_spec k k1) as [->|Hne1]; cbn in *.
        -- destruct Hin as [E|Hin]; [congruence|now right].
        -- destruct Hin as [E|Hin]; [now left|right; auto].
Qed.

Lemma emit_nodup this ps : forall out,
  NoDup (keys out) -> NoDup (keys (emit classes this ps out)).
Proof.
  induction ps as [|[p v] ps IH]; intros out Hnd; [assumption|].
  cbn [emit]. apply IH.
  destruct (visited classes this p && negb (is_nullish (emitted classes this p v)));
    [now apply keys_set_prop_nodup|assumption].
Qed.

Lemma lookup_absorb es : forall a c ps,
  symmetric_keys classes (VInst a c ps) ->
  NoDup (keys es) ->
  (forall k w, In (k, w) es ->
               exists p, lookupKeyOrProperty classes (VInst a c ps) k = Some p) ->
  exists ps',
    absorb classes (VInst a c ps) es = VInst a c ps'
    /\ (NoDup (keys ps) -> NoDup (keys ps'))
    /\ forall q,
         match lookupKeyOrProperty classes (VInst a c ps) q with
         | Some k =>
             match lookup k es with
             | Some w =>
                 exists parent,
                   lookup q ps'
                   = Some (apply_transform
                             (getDeserializer classes (VInst a c ps) q) w parent)
             | None => lookup q ps' = lookup q ps
             end
         | None => lookup q ps' = lookup q ps
         end.
Proof.
  induction es as [|[k0 w0] es IH]; intros a c ps Hsym Hnd Hkeys.
  - exists ps. split; [reflexivity|]. split; [auto|]. intros q.
    destruct (lookupKeyOrProperty classes (VInst a c ps) q); reflexivity.
  - inversion Hnd as [|? ? Hnotin Hnd']; subst.
    destruct (Hkeys k0 w0 (or_introl eq_refl)) as (p0 & Hk0).
    cbn [absorb]. rewrite Hk0. cbn [to_key assign].
    set (dv0 := apply_transform (getDeserializer classes (VInst a c ps) p0)
                  w0 (VInst a c ps)).
    destruct (IH a c (set_prop p0 dv0 ps) Hsym Hnd') as (ps' & Hab & Hnd1 & Hall).
    { intros k w Hin. apply (Hkeys k w). now right. }
    exists ps'. split; [exact Hab|].
    split; [intros H; apply Hnd1; now apply keys_set_prop_nodup|].
    intros q. pose proof (Hall q) as Hq.
    change (lookupKeyOrProperty classes (VInst a c (set_prop p0 dv0 ps)) q)
      with (lookupKeyOrProperty classes (VInst a c ps) q) in Hq.
    change (getDeserializer classes (VInst a c (set_prop p0 dv0 ps)) q)
      with (getDeserializer classes (VInst a c ps) q) in Hq.
    pose proof (Hsym _ _ Hk0) as Hp0.
    destruct (lookupKeyOrProperty classes (VInst a c ps) q) as [k|] eqn:Eq.
    + change (lookup k ((k0, w0) :: es))
        with (if String.eqb k k0 then Some w0 else lookup k es).
      destruct (String.eqb_spec k k0) as [->|Hne].
      * assert (q = p0) as -> by (apply Hsym in Eq; congruence).
        rewrite (lookup_not_in _ _ Hnotin) in Hq.
        rewrite lookup_set_prop_same in Hq.
        exists (VInst a c ps). exact Hq.
      * assert (Hqp : q <> p0) by (intros ->; congruence).
        destruct (lookup k es); [exact Hq|].
        now rewrite (lookup_set_prop_other _ _ _ _ Hqp) in Hq.
    + assert (Hqp : q <> p0) by (intros ->; congruence).
      now rewrite (lookup_set_prop_other _ _ _ _ Hqp) in Hq.
Qed.

Lemma In_lookup_nodup {A} (ps : list (string * A)) k v :
  NoDup (keys ps) -> In (k, v) ps -> lookup k ps = Some v.
Proof.
  unfold keys. induction ps as [|[k0 v0] ps IH]; intros Hnd Hin; [contradiction|].
  inversion Hnd as [|? ? Hnotin Hnd']; subst. cbn [lookup].
  destruct Hin as [E|Hin].
  - injection E as -> ->. now rewrite String.eqb_refl.
  - destruct (String.eqb_spec k k0) as [->|Hne]; [|now apply IH].
    exfalso. apply Hnotin. change k0 with (fst (k0, v)). now apply in_map.
Qed.

Lemma lookup_in_keys {A} (ps : list (string * A)) k v :
  lookup k ps = Some v -> In k (keys ps).
Proof.
  intros H. apply lookup_In in H. unfold keys.
  change k with (fst (k, v)). now apply in_map.
Qed.

End RoundTripFacts.

Section RoundTripLoops.
Variable classes : class_id -> ClassInfo.

Lemma same_content_nullish v w :
  same_content v w -> is_nullish v = is_nullish w.
Proof. now intros []. Qed.

(** The loop of [serialize] returns when each turn does, and stores under
    every key what the turn of its field returned. *)
Lemma serialize_properties_outcome self this reference ps0 :
  symmetric_keys classes this ->
  forall out s,
    NoDup (keys ps0) ->
    (forall p v, In (p, v) ps0 -> visited classes this p = true ->
       (exists kp, lookupKeyOrProperty classes this p = Some kp)
       /\ forall s0, exists w s',
            serialize_property classes self this reference p v s0
            = Return (w, s')) ->
    exists out' s',
      serialize_properties classes self this reference ps0 out s
      = Return (out', s')
      /\ (NoDup (keys out) -> NoDup (keys out'))
      /\ forall k, stored classes self this reference ps0 out out' k.
Proof.
  intros Hsym. induction ps0 as [|[p0 v0] ps0 IH]; intros out s Hnd Hfields.
  - exists out, s. split; [reflexivity|]. split; [auto|].
    intros k. unfold stored.
    destruct (lookupKeyOrProperty classes this k) as [p|]; [|reflexivity].
    now destruct (visited classes this p).
  - inversion Hnd as [|? ? Hnotin Hnd']; subst.
    assert (Hrest : forall p v, In (p, v) ps0 -> visited classes this p = true ->
              (exists kp, lookupKeyOrProperty classes this p = Some kp)
              /\ forall s0, exists w s',
                   serialize_property classes self this reference p v s0
                   = Return (w, s')).
    { intros p v Hin. apply Hfields. now right. }
    cbn [serialize_properties]. fold (visited classes this p0).
    destruct (visited classes this p0) eqn:Hv0.
    + destruct (Hfields p0 v0 (or_introl eq_refl) Hv0) as ((kp & Hkp) & Htot).
      destruct (Htot s) as (w0 & s1 & E0).
      unfold bind at 1. rewrite E0, Hkp. cbn [to_key].
      set (out1 := if is_nullish w0 then out else set_prop kp w0 out).
      destruct (IH out1 s1 Hnd' Hrest) as (out' & s' & E & Hnd1 & Hst).
      exists out', s'. split; [exact E|]. split.
      { intros H. apply Hnd1. unfold out1.
        destruct (is_nullish w0); [exact H|now apply keys_set_prop_nodup]. }
      intros k. specialize (Hst k). unfold stored in *.
      assert (Hother : lookupKeyOrProperty classes this k <> Some p0 ->
                       lookup k out1 = lookup k out).
      { intros H. unfold out1. destruct (is_nullish w0); [reflexivity|].
        apply lookup_set_prop_other. intros ->. apply H. now apply Hsym. }
      destruct (lookupKeyOrProperty classes this k) as [p|] eqn:Ek.
      * destruct (visited classes this p) eqn:Hvp.
        -- change (lookup p ((p0, v0) :: ps0))
             with (if String.eqb p p0 then Some v0 else lookup p ps0).
           destruct (String.eqb_spec p p0) as [->|Hne].
           ++ rewrite (lookup_not_in _ _ Hnotin) in Hst.
              assert (k = kp) as -> by (apply Hsym in Ek; congruence).
              exists s, w0, s1. split; [exact E0|]. rewrite Hst. unfold out1.
              destruct (is_nullish w0); [reflexivity|apply lookup_set_prop_same].
           ++ rewrite Hother in Hst by congruence. exact Hst.
        -- rewrite Hother in Hst; [exact Hst|]. intros [= ->]. congruence.
      * rewrite Hother in Hst; [exact Hst|discriminate].
    + destruct (IH out s Hnd' Hrest) as (out' & s' & E & Hnd1 & Hst).
      exists out', s'. split; [exact E|]. split; [exact Hnd1|].
      intros k. specialize (Hst k). unfold stored in *.
      destruct (lookupKeyOrProperty classes this k) as [p|]; [|exact Hst].
      destruct (visited classes this p) eqn:Hvp; [|exact Hst].
      change (lookup p ((p0, v0) :: ps0))
        with (if String.eqb p p0 then Some v0 else lookup p ps0).
      destruct (String.eqb_spec p p0) as [->|Hne]; [congruence|exact Hst].
Qed.

(** The loop of [parse] over entries that are wire keys of fields returns
    when [parseValue] does, and assigns to every field what [parseValue]
    returned for the entry under its key. *)
Lemma parse_entries_outcome c o whole es : forall a0 ps0 s,
  symmetric_keys classes (VInst a0 c ps0) ->
  NoDup (keys es) ->
  lookup "isProxy" ps0 = Some (VBool false) ->
  lookup "options" ps0 = Some o ->
  (forall k w, In (k, w) es ->
     getDeserializer classes (VInst a0 c ps0) k = None
     /\ exists p, lookupKeyOrProperty classes (VInst a0 c ps0) k = Some p
          /\ p <> "" /\ p <> "options" /\ p <> "isProxy"
          /\ forall y s1, peer c o y ->
               exists v' s1', parsed_field classes y k p w s1 = Return (v', s1')) ->
  exists ps' s',
    parse_entries classes (VInst a0 c ps0) whole es s
    = Return (VInst a0 c ps', s')
    /\ lookup "isProxy" ps' = Some (VBool false)
    /\ lookup "options" ps' = Some o
    /\ (NoDup (keys ps0) -> NoDup (keys ps'))
    /\ forall q, absorbed classes c o (VInst a0 c ps0) es ps0 ps' q.
Proof.
  induction es as [|[k0 w0] es IH]; intros a0 ps0 s Hsym Hnd Hp Ho Hes.
  - exists ps0, s. repeat split; auto. intros q. unfold absorbed.
    destruct (lookupKeyOrProperty classes (VInst a0 c ps0) q); reflexivity.
  - inversion Hnd as [|? ? Hnotin Hnd']; subst.
    destruct (Hes k0 w0 (or_introl eq_refl))
      as (Hd0 & p0 & Hk0 & Hne & Hno & Hnp & Htot).
    assert (Hpeer : peer c o (VInst a0 c ps0)) by (exists a0, ps0; auto).
    destruct (Htot _ s Hpeer) as (v0 & s1 & E0).
    assert (Estep : parse_entry classes (VInst a0 c ps0) whole k0 w0 s
                    = Return (VInst a0 c (set_prop p0 v0 ps0), s1)).
    { unfold parse_entry. rewrite Hd0, Hk0.
      destruct p0 as [|ch p0']; [congruence|].
      unfold bind. unfold parsed_field in E0. rewrite E0. reflexivity. }
    cbn [parse_entries]. unfold bind at 1. rewrite Estep.
    destruct (IH a0 (set_prop p0 v0 ps0) s1)
      as (ps' & s' & E & Hp' & Ho' & Hnd1 & Hall).
    + exact Hsym.
    + exact Hnd'.
    + rewrite lookup_set_prop_other by congruence. exact Hp.
    + rewrite lookup_set_prop_other by congruence. exact Ho.
    + intros k w Hin. exact (Hes k w (or_intror Hin)).
    + exists ps', s'. split; [exact E|]. split; [exact Hp'|].
      split; [exact Ho'|]. split.
      { intros H. apply Hnd1. now apply keys_set_prop_nodup. }
      intros q. pose proof (Hall q) as Hq. unfold absorbed in *.
      change (lookupKeyOrProperty classes (VInst a0 c (set_prop p0 v0 ps0)) q)
        with (lookupKeyOrProperty classes (VInst a0 c ps0) q) in Hq.
      pose proof (Hsym _ _ Hk0) as Hp0.
      destruct (lookupKeyOrProperty classes (VInst a0 c ps0) q) as [k|] eqn:Eq.
      * change (lookup k ((k0, w0) :: es))
          with (if String.eqb k k0 then Some w0 else lookup k es).
        destruct (String.eqb_spec k k0) as [->|Hne'].
        -- assert (q = p0) as -> by (apply Hsym in Eq; congruence).
           rewrite (lookup_not_in _ _ Hnotin) in Hq.
           rewrite lookup_set_prop_same in Hq.
           exists (VInst a0 c ps0), s, v0, s1. repeat split; auto.
        -- assert (Hqp : q <> p0) by (intros ->; congruence).
           destruct (lookup k es); [exact Hq|].
           now rewrite (lookup_set_prop_other _ _ _ _ Hqp) in Hq.
      * assert (Hqp : q <> p0) by (intros ->; congruence).
        now rewrite (lookup_set_prop_other _ _ _ _ Hqp) in Hq.
Qed.

(** [serialize] without a reference, on an instance that is not a proxy. *)
Lemma serialize_outcome b c qs s :
  lookup "isProxy" qs = Some (VBool false) ->
  symmetric_keys classes (VInst b c qs) ->
  NoDup (keys qs) ->
  (forall p v, In (p, v) qs -> visited classes (VInst b c qs) p = true ->
     (exists kp, lookupKeyOrProperty classes (VInst b c qs) p = Some kp)
     /\ forall s0, exists w s',
          serialized_field classes (VInst b c qs) p v s0 = Return (w, s')) ->
  exists out s',
    serialize classes (VInst b c qs) VUndef s = Return (VRec (next s) out, s')
    /\ NoDup (keys out)
    /\ forall k,
         stored classes (serialize classes) (VInst b c qs) VNull qs [] out k.
Proof.
  intros Hp Hsym Hnd Hf.
  destruct (serialize_properties_outcome (serialize classes) (VInst b c qs)
              VNull qs Hsym [] (after_alloc s) Hnd Hf)
    as (out & s' & E & Hnd' & Hst).
  exists out, s'. split; [|split; [apply Hnd'; constructor|exact Hst]].
  rewrite serialize_instance.
  replace (truthy (get_prop (VInst b c qs) "isProxy")) with false
    by (unfold get_prop; cbn [own_prop]; now rewrite Hp).
  change (effective_reference VUndef) with VNull.
  unfold bind at 1. unfold alloc. unfold bind at 1.
  unfold after_alloc in E. rewrite E. reflexivity.
Qed.

Lemma construct_with_options c o s :
  is_nullish o = false ->
  construct classes c o s
  = Return (VInst (next s) c
              (("isProxy", VBool false) :: ("options", o)
                 :: initial_props (classes c)),
            after_alloc s).
Proof. intros H. destruct o; try discriminate; reflexivity. Qed.

End RoundTripLoops.

Section RoundTripProof.
Variable classes : class_id -> ClassInfo.
Variables (a : addr) (c : class_id) (ps : record).
Hypothesis R : round_trip_conditions classes a c ps.

Local Abbreviation x := (VInst a c ps).
Local Abbreviation o := (get_prop (VInst a c ps) "options").
Local Abbreviation fps :=
  (("isProxy", VBool false) :: ("options", get_prop (VInst a c ps) "options")
     :: initial_props (classes c)).

Lemma rt_symmetric : symmetric_keys classes x.
Proof. intros k p. apply (rt_keys _ _ _ _ R). Qed.

Lemma rt_options_value : lookup "options" ps = Some o /\ is_nullish o = false.
Proof.
  destruct (rt_object _ _ _ _ R) as (o' & Hl & Hn).
  unfold get_prop. cbn [own_prop]. rewrite Hl. auto.
Qed.

Lemma rt_peer : peer c o x.
Proof.
  exists a, ps. split; [reflexivity|]. split.
  - exact (rt_plain _ _ _ _ R).
  - apply rt_options_value.
Qed.

Lemma rt_not_visited_isProxy : visited classes x "isProxy" = false.
Proof. unfold visited. rewrite (rt_isProxy _ _ _ _ R). apply andb_false_r. Qed.

Lemma rt_not_visited_options : visited classes x "options" = false.
Proof. unfold visited. rewrite (rt_options _ _ _ _ R). apply andb_false_r. Qed.

Lemma rt_field p v :
  In (p, v) ps -> visited classes x p = true ->
  p <> ""
  /\ exists k,
       lookupKeyOrProperty classes x p = Some k
       /\ lookupKeyOrProperty classes x k = Some p
       /\ getDeserializer classes x k = None
       /\ field_round_trips classes c o x k p v.
Proof.
  intros Hin Hv.
  destruct (rt_fields _ _ _ _ R p v Hin Hv) as (Hne & k & Hk & Hd & Hrt).
  split; [exact Hne|]. exists k. split; [exact Hk|].
  split; [exact (rt_keys _ _ _ _ R _ _ Hk)|]. split; [exact Hd|exact Hrt].
Qed.

(** [x.serialize()] returns, at any moment. *)
Lemma rt_wire s :
  exists out s',
    serialize classes x VUndef s = Return (VRec (next s) out, s')
    /\ NoDup (keys out)
    /\ forall k, stored classes (serialize classes) x VNull ps [] out k.
Proof.
  apply serialize_outcome.
  - exact (rt_plain _ _ _ _ R).
  - exact rt_symmetric.
  - exact (rt_nodup _ _ _ _ R).
  - intros p v Hin Hv.
    destruct (rt_field p v Hin Hv) as (_ & k & Hk & _ & _ & (Htot & _)).
    split; [now exists k|exact Htot].
Qed.

(** An entry of a wire object of [x] is what a serialized field of [x]
    was serialized to. *)
Lemma rt_wire_entry out k w :
  (forall k, stored classes (serialize classes) x VNull ps [] out k) ->
  lookup k out = Some w ->
  exists p v s1 s2,
    lookupKeyOrProperty classes x k = Some p
    /\ lookupKeyOrProperty classes x p = Some k
    /\ visited classes x p = true
    /\ lookup p ps = Some v
    /\ serialized_field classes x p v s1 = Return (w, s2)
    /\ is_nullish w = false.
Proof.
  intros Hst Hl. specialize (Hst k). unfold stored in Hst.
  destruct (lookupKeyOrProperty classes x k) as [p|] eqn:Ek;
    [|cbn [lookup] in Hst; congruence].
  destruct (visited classes x p) eqn:Hv; [|cbn [lookup] in Hst; congruence].
  destruct (lookup p ps) as [v|] eqn:El; [|cbn [lookup] in Hst; congruence].
  destruct Hst as (s1 & w' & s2 & Hs & Hk). cbn [lookup] in Hk.
  destruct (is_nullish w') eqn:Hn; [congruence|].
  assert (w' = w) as -> by congruence.
  exists p, v, s1, s2. repeat split; auto. exact (rt_symmetric _ _ Ek).
Qed.

(** A serialized field that a fresh instance has is one that [x] emits. *)
Lemma rt_fresh_field q v0 :
  lookup q fps = Some v0 -> visited classes x q = true ->
  exists v k,
    lookup q ps = Some v
    /\ lookupKeyOrProperty classes x q = Some k
    /\ lookupKeyOrProperty classes x k = Some q
    /\ forall s w s',
         serialized_field classes x q v s = Return (w, s') ->
         is_nullish w = false.
Proof.
  intros Hl Hv. cbn [lookup] in Hl.
  destruct (String.eqb_spec q "isProxy") as [->|_].
  { rewrite rt_not_visited_isProxy in Hv. discriminate. }
  destruct (String.eqb_spec q "options") as [->|_].
  { rewrite rt_not_visited_options in Hv. discriminate. }
  apply lookup_In in Hl.
  destruct (rt_initial _ _ _ _ R q v0 Hl Hv) as (v & Hlv & Hn).
  destruct (rt_field q v (lookup_In _ _ _ Hlv) Hv) as (_ & k & Hk & Hback & _).
  exists v, k. auto.
Qed.

(** [parse] of a wire object of [x] into a fresh instance returns. *)
Lemma rt_parsed out a0 s :
  NoDup (keys out) ->
  (forall k, stored classes (serialize classes) x VNull ps [] out k) ->
  exists ps_y s',
    parse classes (VInst a0 c fps) out s = Return (VInst a0 c ps_y, s')
    /\ lookup "isProxy" ps_y = Some (VBool false)
    /\ lookup "options" ps_y = Some o
    /\ NoDup (keys ps_y)
    /\ forall q, absorbed classes c o x out fps ps_y q.
Proof.
  intros Hnd Hst. unfold parse.
  destruct (parse_entries_outcome classes c o out out a0 fps s)
    as (ps_y & s' & E & Hp & Ho & Hnd1 & Hab).
  - exact rt_symmetric.
  - exact Hnd.
  - reflexivity.
  - reflexivity.
  - intros k w Hin. apply (In_lookup_nodup _ _ _ Hnd) in Hin.
    destruct (rt_wire_entry out k w Hst Hin)
      as (p & v & s1 & s2 & Hk & Hpk & Hv & Hl & Hs & Hn).
    destruct (rt_field p v (lookup_In _ _ _ Hl) Hv)
      as (Hne & k' & Hk' & _ & Hd & (_ & _ & Hrt)).
    assert (k' = k) as -> by congruence.
    split; [exact Hd|]. exists p. split; [exact Hk|]. split; [exact Hne|].
    split; [intros ->; rewrite rt_not_visited_options in Hv; discriminate|].
    split; [intros ->; rewrite rt_not_visited_isProxy in Hv; discriminate|].
    intros y t1 Hy.
    destruct (Hrt s1 w s2 Hs Hn y t1 Hy) as (v' & t2 & Hpv & _). eauto.
  - exists ps_y, s'. split; [exact E|]. split; [exact Hp|]. split; [exact Ho|].
    split; [apply Hnd1; exact (rt_initial_nodup _ _ _ _ R)|exact Hab].
Qed.

(** A serialized field of the parsed instance comes from an entry of the
    wire object, and is serialized to what [x] emits for the field. *)
Lemma rt_parsed_field out ps_y q v' :
  (forall k, stored classes (serialize classes) x VNull ps [] out k) ->
  (forall q, absorbed classes c o x out fps ps_y q) ->
  lookup q ps_y = Some v' -> visited classes x q = true ->
  exists k v,
    lookupKeyOrProperty classes x q = Some k
    /\ lookup q ps = Some v
    /\ (exists s1 w s2,
          serialized_field classes x q v s1 = Return (w, s2)
          /\ is_nullish w = false)
    /\ forall y' s2, peer c o y' ->
         exists w' s2',
           serialized_field classes y' q v' s2 = Return (w', s2')
           /\ forall s0 w0 s0',
                serialized_field classes x q v s0 = Return (w0, s0') ->
                same_content w' w0.
Proof.
  intros Hst Hab Hl Hv. pose proof (Hab q) as Hq. unfold absorbed in Hq.
  assert (Hemit : lookup q fps = Some v' ->
                  exists k w, lookupKeyOrProperty classes x q = Some k
                              /\ lookup k out = Some w).
  { intros E.
    destruct (rt_fresh_field q v' E Hv) as (v & k & Hlv & Hk & Hback & Hn).
    pose proof (Hst k) as Hs. unfold stored in Hs.
    rewrite Hback, Hv, Hlv in Hs.
    destruct Hs as (s1 & w & s2 & Hs & Hlk). cbn [lookup] in Hlk.
    rewrite (Hn _ _ _ Hs) in Hlk. now exists k, w. }
  destruct (lookupKeyOrProperty classes x q) as [k|] eqn:Ek.
  2: { rewrite Hq in Hl. destruct (Hemit Hl) as (k & w & Hk & _).
       discriminate. }
  destruct (lookup k out) as [w|] eqn:Ew.
  2: { rewrite Hq in Hl. destruct (Hemit Hl) as (k2 & w & Hk & Hw).
       congruence. }
  destruct Hq as (y & t1 & v2 & t2 & Hy & Hpv & Hl2).
  assert (v2 = v') as -> by congruence.
  destruct (rt_wire_entry out k w Hst Ew)
    as (p & v & s1 & s2 & Hk & Hpk & Hvp & Hlp & Hs & Hn).
  assert (p = q) as -> by (apply rt_symmetric in Ek; congruence).
  destruct (rt_field q v (lookup_In _ _ _ Hlp) Hv)
    as (_ & k' & Hk' & _ & _ & (_ & _ & Hrt)).
  assert (k' = k) as -> by congruence.
  destruct (Hrt s1 w s2 Hs Hn y t1 Hy) as (v3 & t3 & Hpv' & Hback).
  rewrite Hpv in Hpv'. injection Hpv' as <- <-.
  exists k, v. split; [reflexivity|]. split; [exact Hlp|].
  split; [now exists s1, w, s2|exact Hback].
Qed.

(** C4, as the code has it.  Under the conditions of
    [round_trip_conditions] (a key table that maps every entry back;
    [isProxy] and [options] not serialized; every serialized field with a
    wire key that is not the name of a field with a deserializer; every
    serialized field surviving the round trip on its own; and a
    constructor whose serialized fields the instance emits), parsing
    [x.serialize()] into a fresh instance of the class with the options of
    [x] and serializing that instance returns, and gives a wire object
    with the keys of [x.serialize()], each key once and each holding the
    same content. *)
Theorem round_trip_of_fields_that_round_trip :
  forall s : state,
    exists again expected s',
      round_trip classes (VInst a c ps) s = Return ((again, expected), s')
      /\ (exists s0 s1,
            serialize classes (VInst a c ps) VUndef s0 = Return (expected, s1))
      /\ NoDup (keys (record_of again))
      /\ NoDup (keys (record_of expected))
      /\ same_wire (record_of again) (record_of expected).
Proof.
  intros s. destruct rt_options_value as (Ho & Hon).
  destruct (rt_wire (after_alloc s)) as (out_w & s2 & Ew & Hndw & Hstw).
  destruct (rt_parsed out_w (next s) s2 Hndw Hstw)
    as (ps_y & s3 & Ey & Hyp & Hyo & Hndy & Hab).
  assert (Hypeer : peer c o (VInst (next s) c ps_y))
    by (exists (next s), ps_y; auto).
  destruct (serialize_outcome classes (next s) c ps_y s3 Hyp rt_symmetric Hndy)
    as (out_a & s4 & Ea & Hnda & Hsta).
  { intros q v' Hin Hv. apply (In_lookup_nodup _ _ _ Hndy) in Hin.
    destruct (rt_parsed_field out_w ps_y q v' Hstw Hab Hin Hv)
      as (k & v & Hk & Hl & _ & Hback).
    split; [now exists k|]. intros s0.
    destruct (Hback _ s0 Hypeer) as (w' & s' & E & _). eauto. }
  destruct (rt_wire s4) as (out_e & s5 & Ee & Hnde & Hste).
  exists (VRec (next s3) out_a), (VRec (next s4) out_e), s5.
  split; [|split; [|split; [exact Hnda|split; [exact Hnde|]]]].
  - unfold round_trip. unfold bind at 1.
    rewrite (construct_with_options classes c o s Hon).
    unfold bind at 1. rewrite Ew. cbn [record_of].
    unfold bind at 1. rewrite Ey.
    unfold bind at 1. rewrite Ea.
    unfold bind at 1. rewrite Ee. reflexivity.
  - eauto.
  - cbn [record_of]. intros k.
    pose proof (Hsta k) as Ha. pose proof (Hste k) as He.
    unfold stored in Ha, He.
    change (lookupKeyOrProperty classes (VInst (next s) c ps_y) k)
      with (lookupKeyOrProperty classes x k) in Ha.
    destruct (lookupKeyOrProperty classes x k) as [p|] eqn:Ek;
      [|cbn [lookup] in Ha, He; now rewrite Ha, He].
    change (visited classes (VInst (next s) c ps_y) p)
      with (visited classes x p) in Ha.
    destruct (visited classes x p) eqn:Hv;
      [|cbn [lookup] in Ha, He; now rewrite Ha, He].
    destruct (lookup p ps) as [v|] eqn:El.
    + destruct He as (t1 & w_e & t2 & Hse & Hle). cbn [lookup] in Hle.
      destruct (rt_field p v (lookup_In _ _ _ El) Hv)
        as (_ & k' & Hk' & _ & _ & (_ & Hnull & _)).
      destruct (lookup p ps_y) as [v'|] eqn:Ely.
      * destruct Ha as (u1 & w_a & u2 & Hsa & Hla). cbn [lookup] in Hla.
        destruct (rt_parsed_field out_w ps_y p v' Hstw Hab Ely Hv)
          as (k2 & v2 & Hk2 & Hl2 & (r1 & w & r2 & Hsw & Hnw) & Hback).
        assert (v2 = v) as -> by congruence.
        destruct (Hback _ u1 Hypeer) as (w' & u2' & Hsa' & Hsame).
        unfold serialized_field in Hsa'. rewrite Hsa in Hsa'.
        injection Hsa' as <- <-.
        pose proof (Hsame _ _ _ Hse) as Hc.
        assert (Hne : is_nullish w_e = false)
          by (rewrite <- (Hnull _ _ _ _ _ _ Hsw Hse); exact Hnw).
        assert (Hna : is_nullish w_a = false)
          by (rewrite (same_content_nullish _ _ Hc); exact Hne).
        rewrite Hla, Hle, Hna, Hne. exact Hc.
      * cbn [lookup] in Ha. rewrite Ha, Hle.
        destruct (is_nullish w_e) eqn:Hne; [exact I|]. exfalso.
        pose proof (Hstw k) as Hw. unfold stored in Hw.
        rewrite Ek, Hv, El in Hw.
        destruct Hw as (r1 & w_w & r2 & Hsw & Hlw). cbn [lookup] in Hlw.
        assert (Hnw : is_nullish w_w = false)
          by (rewrite (Hnull _ _ _ _ _ _ Hsw Hse); exact Hne).
        rewrite Hnw in Hlw.
        pose proof (Hab p) as Hp. unfold absorbed in Hp.
        rewrite (rt_symmetric _ _ Ek), Hlw in Hp.
        destruct Hp as (y & q1 & v2 & q2 & _ & _ & Hp). congruence.
    + cbn [lookup] in He. rewrite He.
      destruct (lookup p ps_y) as [v'|] eqn:Ely.
      * destruct (rt_parsed_field out_w ps_y p v' Hstw Hab Ely Hv)
          as (k2 & v2 & _ & Hl2 & _). congruence.
      * cbn [lookup] in Ha. now rewrite Ha.
Qed.

End RoundTripProof.

Lemma symmetric_table_sound (md : list (string * string)) :
  symmetric_table md = true ->
  forall k p, lookup k md = Some p -> lookup p md = Some k.
Proof.
  unfold symmetric_table. rewrite forallb_forall. intros H k p Hl.
  apply lookup_In in Hl. specialize (H _ Hl). cbn [fst snd] in H.
  destruct (lookup p md) as [k'|]; [|discriminate].
  apply String.eqb_eq in H. now subst.
Qed.

(** C4, the claim as stated fails: the options of the lamp do not ask to
    skip anything, its field [note] has no wire key, [serialize] emits it
    under ["null"], [parse] skips that key as unknown, and the second
    wire object has no ["null"]. *)
Lemma round_trip_loses_keyless_field :
  exists again expected s',
    round_trip Sample.classes Sample.annotated_lamp Sample.state0
    = Return ((again, expected), s')
    /\ truthy (get_prop (get_prop Sample.annotated_lamp "options")
                 "skipBasicSerializers") = false
    /\ lookup "null" (record_of expected) = Some (VStr "hi")
    /\ lookup "null" (record_of again) = None
    /\ record_of again <> record_of expected.
Proof.
  do 3 eexists. split; [vm_compute; reflexivity|].
  repeat split. discriminate.
Qed.

(** *** Fields that survive the round trip on their own *)

Section FieldsThatRoundTrip.
Variable classes : class_id -> ClassInfo.

Lemma same_content_primitive v : is_primitive v = true -> same_content v v.
Proof. destruct v; try discriminate; constructor. Qed.

Lemma same_content_primitives xs :
  forallb is_primitive xs = true -> Forall2 same_content xs xs.
Proof.
  induction xs as [|x xs IH]; cbn [forallb]; intros H; constructor;
    apply andb_prop in H as [Hx Hxs]; auto using same_content_primitive.
Qed.

Lemma serializeValue_untransformed self this p v s :
  is_ipso v = false ->
  serializeValue classes self this VNull p v VNull None s = Return (v, s).
Proof. destruct v; try discriminate; reflexivity. Qed.

Lemma serialize_items_untransformed self this p xs : forall s,
  forallb is_primitive xs = true ->
  serialize_items classes self this VNull p None xs None s = Return (xs, s).
Proof.
  induction xs as [|x xs IH]; intros s H; [reflexivity|].
  cbn [forallb] in H. apply andb_prop in H as [Hx Hxs].
  cbn [serialize_items option_map]. unfold bind at 1.
  rewrite serializeValue_untransformed
    by (destruct x; try discriminate; reflexivity).
  unfold bind at 1. now rewrite IH.
Qed.

Lemma compact_filtered xs s :
  compact xs s
  = match filter (fun v => negb (is_nullish v)) xs with
    | [] => Return (VNull, s)
    | y :: ys => Return (VArr (next s) (y :: ys), after_alloc s)
    end.
Proof.
  unfold compact. now destruct (filter (fun v => negb (is_nullish v)) xs).
Qed.

Lemma filter_all {A} (f : A -> bool) xs :
  forallb f xs = true -> filter f xs = xs.
Proof.
  induction xs as [|x xs IH]; [reflexivity|]. cbn [forallb filter].
  intros H. apply andb_prop in H as [Hx Hxs]. now rewrite Hx, IH.
Qed.

Lemma forallb_filter {A} (f g : A -> bool) xs :
  forallb f xs = true -> forallb f (filter g xs) = true.
Proof.
  induction xs as [|x xs IH]; [reflexivity|]. cbn [forallb filter].
  intros H. apply andb_prop in H as [Hx Hxs].
  destruct (g x); cbn [forallb]; [rewrite Hx|]; auto.
Qed.

Lemma forallb_filter_self {A} (f : A -> bool) xs :
  forallb f (filter f xs) = true.
Proof.
  induction xs as [|x xs IH]; [reflexivity|]. cbn [filter].
  destruct (f x) eqn:E; [|exact IH]. cbn [forallb]. now rewrite E.
Qed.

Lemma serialized_untransformed_primitive this p v s :
  getSerializer classes this p = None -> is_primitive v = true ->
  serialized_field classes this p v s = Return (v, s).
Proof.
  intros Hs Hv. unfold serialized_field.
  rewrite serialize_property_direct
    by (destruct v; try discriminate; reflexivity).
  rewrite Hs. change (reference_value VNull p) with VNull.
  apply serializeValue_untransformed. destruct v; try discriminate; reflexivity.
Qed.

Lemma serialized_untransformed_array this p b items s :
  getSerializer classes this p = None ->
  forallb is_primitive items = true ->
  serialized_field classes this p (VArr b items) s = compact items s.
Proof.
  intros Hs Hv. unfold serialized_field, serialize_property. rewrite Hs.
  change (reference_value VNull p) with VNull. cbn [is_nullish].
  unfold bind. now rewrite serialize_items_untransformed.
Qed.

Lemma parsed_untransformed_primitive this k p w s :
  getDeserializer classes this p = None ->
  is_primitive w = true -> is_nullish w = false ->
  parsed_field classes this k p w s = Return (w, s).
Proof.
  intros Hd Hw Hn. unfold parsed_field. rewrite Hd.
  destruct w; try discriminate; reflexivity.
Qed.

Lemma parse_each_untransformed this k xs : forall s,
  forallb is_primitive xs = true ->
  forallb (fun v => negb (is_nullish v)) xs = true ->
  parse_each this k None true xs s = Return (xs, s).
Proof.
  induction xs as [|x xs IH]; intros s Hp Hn; [reflexivity|].
  cbn [forallb] in Hp, Hn.
  apply andb_prop in Hp as [Hx Hxs]. apply andb_prop in Hn as [Hnx Hnxs].
  cbn [parse_each]. unfold bind at 1.
  replace (parseValue this k x None true s) with (Return (x, s))
    by (destruct x; try discriminate; reflexivity).
  unfold bind at 1. now rewrite IH.
Qed.

Lemma parsed_untransformed_array this k p b ys s :
  getDeserializer classes this p = None ->
  forallb is_primitive ys = true ->
  forallb (fun v => negb (is_nullish v)) ys = true ->
  parsed_field classes this k p (VArr b ys) s
  = Return (VArr (next s) ys, after_alloc s).
Proof.
  intros Hd Hp Hn. unfold parsed_field. rewrite Hd.
  change (parseValue this k (VArr b ys) None true s)
    with ((parsed <- parse_each this k None true ys ;;
           a <- alloc ;;
           ret (VArr a parsed)) s).
  unfold bind at 1. now rewrite parse_each_untransformed.
Qed.

(** A field without transforms that holds a primitive, or an array of
    primitives, survives the round trip on its own. *)
Lemma untransformed_field_round_trips a c ps o k p v :
  getSerializer classes (VInst a c ps) p = None ->
  getDeserializer classes (VInst a c ps) p = None ->
  is_primitive v = true
  \/ (exists b items, v = VArr b items /\ forallb is_primitive items = true) ->
  field_round_trips classes c o (VInst a c ps) k p v.
Proof.
  intros Hs Hd [Hv|(b & items & -> & Hv)].
  - split; [|split].
    + intros s. rewrite serialized_untransformed_primitive by assumption. eauto.
    + intros s w s' s0 w0 s0'.
      rewrite !serialized_untransformed_primitive by assumption.
      now intros [= <- _] [= <- _].
    + intros s w s'.
      rewrite serialized_untransformed_primitive by assumption.
      intros [= <- _] Hn y s1 (a1 & ps1 & -> & _).
      exists v, s1. split.
      * now apply parsed_untransformed_primitive.
      * intros y' s2 (a2 & ps2 & -> & _). exists v, s2. split.
        -- now apply serialized_untransformed_primitive.
        -- intros s0 w0 s0'.
           rewrite serialized_untransformed_primitive by assumption.
           intros [= <- _]. now apply same_content_primitive.
  - pose proof (fun this H s =>
        eq_trans (serialized_untransformed_array this p b items s H Hv)
                 (compact_filtered items s)) as Hx.
    split; [|split].
    + intros s. rewrite (Hx _ Hs).
      destruct (filter _ items); eauto.
    + intros s w s' s0 w0 s0'. rewrite !(Hx _ Hs).
      destruct (filter _ items); now intros [= <- _] [= <- _].
    + intros s w s'. rewrite (Hx _ Hs).
      destruct (filter _ items) as [|y ys] eqn:Ef; intros [= <- _];
        [discriminate|].
      intros _ y1 s1 (a1 & ps1 & -> & _).
      assert (Hp : forallb is_primitive (y :: ys) = true)
        by (rewrite <- Ef; now apply forallb_filter).
      assert (Hn : forallb (fun v => negb (is_nullish v)) (y :: ys) = true)
        by (rewrite <- Ef; apply forallb_filter_self).
      exists (VArr (next s1) (y :: ys)), (after_alloc s1). split.
      * now apply parsed_untransformed_array.
      * intros y' s2 (a2 & ps2 & -> & _).
        exists (VArr (next s2) (y :: ys)), (after_alloc s2). split.
        -- rewrite (serialized_untransformed_array (VInst a2 c ps2) p
                      (next s1) (y :: ys) s2 Hs Hp).
           rewrite compact_filtered, (filter_all _ _ Hn). reflexivity.
        -- intros s0 w0 s0'. rewrite (Hx _ Hs). intros [= <- _].
           constructor. now apply same_content_primitives.
Qed.

(** A boolean field with the default transforms that holds a primitive
    survives the round trip on its own. *)
Lemma boolean_field_round_trips a c ps o k p v :
  getSerializer classes (VInst a c ps) p = lookup "Boolean" defaultSerializers ->
  getDeserializer classes (VInst a c ps) p
  = lookup "Boolean" defaultDeserializers ->
  is_primitive v = true ->
  field_round_trips classes c o (VInst a c ps) k p v.
Proof.
  intros Hs Hd Hv.
  assert (Hx : forall a1 ps1 u s, is_primitive u = true ->
            serialized_field classes (VInst a1 c ps1) p u s
            = Return (if truthy u then VNum 1 else VNum 0, s)).
  { intros a1 ps1 u s Hu. unfold serialized_field, serialize_property.
    change (getSerializer classes (VInst a1 c ps1) p)
      with (getSerializer classes (VInst a c ps) p).
    rewrite Hs. destruct u; try discriminate; reflexivity. }
  split; [|split].
  - intros s. rewrite Hx by assumption. eauto.
  - intros s w s' s0 w0 s0'. rewrite !Hx by assumption.
    now intros [= <- _] [= <- _].
  - intros s w s'. rewrite Hx by assumption.
    intros [= <- _] _ y s1 (a1 & ps1 & -> & _).
    exists (VBool (truthy v)), s1. split.
    + unfold parsed_field.
      change (getDeserializer classes (VInst a1 c ps1) p)
        with (getDeserializer classes (VInst a c ps) p).
      rewrite Hd. now destruct (truthy v).
    + intros y' s2 (a2 & ps2 & -> & _).
      exists (if truthy v then VNum 1 else VNum 0), s2. split.
      * rewrite Hx by reflexivity. reflexivity.
      * intros s0 w0 s0'. rewrite Hx by assumption.
        intros [= <- _]. destruct (truthy v); constructor.
Qed.

End FieldsThatRoundTrip.

(** The socket with its levels meets the conditions of the round trip. *)
Lemma levelled_socket_round_trip_conditions :
  round_trip_conditions Sample.classes 90 Sample.accessory_id
    [("isProxy", VBool false); ("options", VRec 91 []);
     ("name", VStr "socket"); ("levels", VArr 92 [VNum 1; VNum 2; VNum 3])].
Proof.
  constructor.
  - apply symmetric_table_sound. reflexivity.
  - reflexivity.
  - reflexivity.
  - repeat constructor; simpl; intuition discriminate.
  - reflexivity.
  - exists (VRec 91 []). split; reflexivity.
  - intros p v [E|[E|[E|[E|[]]]]]; injection E as <- <-; intros Hv;
      try discriminate.
    + split; [discriminate|]. exists "9001". split; [reflexivity|].
      split; [reflexivity|].
      apply untransformed_field_round_trips; [reflexivity|reflexivity|].
      now left.
    + split; [discriminate|]. exists "15001". split; [reflexivity|].
      split; [reflexivity|].
      apply untransformed_field_round_trips; [reflexivity|reflexivity|].
      right. now exists 92, [VNum 1; VNum 2; VNum 3].
  - repeat constructor; simpl; intuition discriminate.
  - intros q v0 [].
Qed.

(** So does the lamp, whose [onOff] goes through the default transforms of
    boolean fields. *)
Lemma lamp_round_trip_conditions :
  round_trip_conditions Sample.classes 10 Sample.light_id
    [("isProxy", VBool false); ("options", VRec 11 []);
     ("onOff", VBool true); ("dimmer", VNum 5)].
Proof.
  constructor.
  - apply symmetric_table_sound. reflexivity.
  - reflexivity.
  - reflexivity.
  - repeat constructor; simpl; intuition discriminate.
  - reflexivity.
  - exists (VRec 11 []). split; reflexivity.
  - intros p v [E|[E|[E|[E|[]]]]]; injection E as <- <-; intros Hv;
      try discriminate.
    + split; [discriminate|]. exists "5850". split; [reflexivity|].
      split; [reflexivity|].
      apply boolean_field_round_trips; reflexivity.
    + split; [discriminate|]. exists "5851". split; [reflexivity|].
      split; [reflexivity|].
      apply untransformed_field_round_trips; [reflexivity|reflexivity|].
      now left.
  - repeat constructor; simpl; intuition discriminate.
  - intros q v0 [].
Qed.

(** And so does a hub, whose [light] holds a lamp and has a deserializer
    that parses the nested wire object into a lamp. *)
Lemma hub_round_trip_conditions :
  round_trip_conditions Cases.hub_classes 130 Cases.hub_id
    [("isProxy", VBool false); ("options", VRec 131 []);
     ("light", Sample.lamp)].
Proof.
  assert (Hx : forall y v s,
            peer Cases.hub_id (VRec 131 []) y ->
            v = Sample.lamp
            \/ v = VInst 0 Sample.light_id
                     [("isProxy", VBool false); ("options", VRec 1 []);
                      ("onOff", VBool true); ("dimmer", VNum 5)] ->
            serialized_field Cases.hub_classes y "light" v s
            = Return (VRec (next s) [("5850", VNum 1); ("5851", VNum 5)],
                      after_alloc s)).
  { intros y v s (a1 & ps1 & -> & _) [-> | ->]; reflexivity. }
  assert (Hself : peer Cases.hub_id (VRec 131 []) Cases.hub).
  { exists 130, (props_of Cases.hub). repeat split. }
  constructor.
  - apply symmetric_table_sound. reflexivity.
  - reflexivity.
  - reflexivity.
  - repeat constructor; simpl; intuition discriminate.
  - reflexivity.
  - exists (VRec 131 []). split; reflexivity.
  - intros p v [E|[E|[E|[]]]]; injection E as <- <-; intros Hv;
      try discriminate.
    split; [discriminate|]. exists "3311". split; [reflexivity|].
    split; [reflexivity|].
    split; [|split].
    + intros s. do 2 eexists. apply Hx; [exact Hself|now left].
    + intros s w s' s0 w0 s0'.
      rewrite !Hx by first [exact Hself|now left].
      now intros [= <- _] [= <- _].
    + intros s w s'. rewrite Hx by first [exact Hself|now left].
      intros [= <- _] _ y s1 (a1 & ps1 & -> & _).
      exists (VInst 0 Sample.light_id
                [("isProxy", VBool false); ("options", VRec 1 []);
                 ("onOff", VBool true); ("dimmer", VNum 5)]), s1.
      split; [reflexivity|].
      intros y' s2 Hy'.
      exists (VRec (next s2) [("5850", VNum 1); ("5851", VNum 5)]),
             (after_alloc s2).
      split; [apply Hx; [exact Hy'|now right]|].
      intros s0 w0 s0'. rewrite Hx by first [exact Hself|now left].
      intros [= <- _].
      apply same_rec with (qs' := [("5850", VNum 1); ("5851", VNum 5)]);
        [apply Permutation_refl|].
      repeat constructor.
  - repeat constructor; simpl; intuition discriminate.
  - intros q v0 [].
Qed.

(** The conditions on the fields are needed.  A field whose serializer no
    deserializer undoes comes back changed: [dimmer] is sent doubled, read
    as it was sent, and sent doubled again. *)
Lemma round_trip_doubles_one_way_field :
  exists again expected s',
    round_trip Cases.scaled_classes Cases.scaled Sample.state0
    = Return ((again, expected), s')
    /\ lookup "5851" (record_of expected) = Some (VNum 10)
    /\ lookup "5851" (record_of again) = Some (VNum 20).
Proof.
  do 3 eexists. split; [vm_compute; reflexivity|]. split; reflexivity.
Qed.

(** A field that the constructor initialises and the instance does not
    emit comes back with its initial value. *)
Lemma round_trip_restores_initial_field :
  exists again expected s',
    round_trip Cases.preset_classes Cases.unset_preset Sample.state0
    = Return ((again, expected), s')
    /\ lookup "5851" (record_of expected) = None
    /\ lookup "5851" (record_of again) = Some (VNum 50).
Proof.
  do 3 eexists. split; [vm_compute; reflexivity|]. split; reflexivity.
Qed.

Lemma round_trip_of_fields_that_round_trip_witness :
  exists again expected s',
    round_trip Sample.classes Cases.levelled_socket Sample.state0
    = Return ((again, expected), s')
    /\ (exists s0 s1,
          serialize Sample.classes Cases.levelled_socket VUndef s0
          = Return (expected, s1))
    /\ NoDup (keys (record_of again))
    /\ NoDup (keys (record_of expected))
    /\ same_wire (record_of again) (record_of expected).
Proof.
  apply (round_trip_of_fields_that_round_trip Sample.classes 90
           Sample.accessory_id _ levelled_socket_round_trip_conditions
           Sample.state0).
Defined.

(** The round trip of the socket, computed: the two wire objects carry the
    same name and the same levels, in arrays of their own. *)
Lemma levelled_socket_round_trip :
  round_trip Sample.classes Cases.levelled_socket Sample.state0
  = Return
      ((VRec 1004 [("9001", VStr "socket");
                   ("15001", VArr 1005 [VNum 1; VNum 2; VNum 3])],
        VRec 1006 [("9001", VStr "socket");
                   ("15001", VArr 1007 [VNum 1; VNum 2; VNum 3])]),
       {| next := 1008; logged := [] |}).
Proof. reflexivity. Qed.

(** * Further properties of the mapper *)

(** ** The decorators and their lookups *)

Section Decorators.
Variable classes : class_id -> ClassInfo.

(** X1.  Once [@ipsoKey(key)] has decorated [property], the lookup answers
    both ways for every instance of the class (wire key to field name and
    field name to wire key), and every other entry of the key table is as
    it was before the decorator ran. *)
Theorem ipsoKey_registers_both_directions :
  forall (c : class_id) (base : ClassInfo) (key property : string)
         (a : addr) (ps : record),
    md_ipsoKey (classes c) = md_ipsoKey (ipsoKey key property base) ->
    lookupKeyOrProperty classes (VInst a c ps) key = Some property
    /\ lookupKeyOrProperty classes (VInst a c ps) property = Some key
    /\ forall k, k <> key -> k <> property ->
         lookupKeyOrProperty classes (VInst a c ps) k
         = lookup k (md_ipsoKey base).
Proof.
  intros c base key property a ps H.
  unfold lookupKeyOrProperty. cbn [class_of]. rewrite H. cbn [md_ipsoKey ipsoKey].
  split; [apply lookup_set_prop_same|]. split.
  - destruct (String.eqb_spec property key) as [->|Hne].
    + apply lookup_set_prop_same.
    + rewrite lookup_set_prop_other by assumption. apply lookup_set_prop_same.
  - intros k Hk Hp. now rewrite !lookup_set_prop_other by assumption.
Qed.

End Decorators.

Lemma ipsoKey_registers_both_directions_witness :
  lookupKeyOrProperty Sample.classes Sample.lamp "5851" = Some "dimmer"
  /\ lookupKeyOrProperty Sample.classes Sample.lamp "dimmer" = Some "5851".
Proof.
  destruct (ipsoKey_registers_both_directions Sample.classes Sample.light_id
              (declare_field "dimmer" (Some "Number") None
                 (ipsoKey "5850" "onOff"
                    (declare_field "onOff" (Some "Boolean") None
                       (declare_field "note" None None IPSOObject_class))))
              "5851" "dimmer" 10
              [("isProxy", VBool false); ("options", VRec 11 []);
               ("onOff", VBool true); ("dimmer", VNum 5)] eq_refl)
    as (H1 & H2 & _).
  split; [exact H1|exact H2].
Defined.

Lemma ipsoKey_step_symmetric (base : ClassInfo) (key property : string) :
  (forall k p, lookup k (md_ipsoKey base) = Some p ->
               lookup p (md_ipsoKey base) = Some k) ->
  lookup key (md_ipsoKey base) = None ->
  lookup property (md_ipsoKey base) = None ->
  forall k p,
    lookup k (md_ipsoKey (ipsoKey key property base)) = Some p ->
    lookup p (md_ipsoKey (ipsoKey key property base)) = Some k.
Proof.
  intros Hsym Hkey Hprop k p.
  cbn [md_ipsoKey ipsoKey].
  assert (Hkp : lookup property
                  (set_prop key property (set_prop property key (md_ipsoKey base)))
                = Some key).
  { destruct (String.eqb_spec property key) as [->|Hne].
    - apply lookup_set_prop_same.
    - rewrite lookup_set_prop_other by assumption. apply lookup_set_prop_same. }
  destruct (String.eqb_spec k key) as [->|Hk].
  { rewrite lookup_set_prop_same. intros [= <-]. exact Hkp. }
  rewrite (lookup_set_prop_other _ _ _ _ Hk).
  destruct (String.eqb_spec k property) as [->|Hp].
  { rewrite lookup_set_prop_same. intros [= <-]. apply lookup_set_prop_same. }
  rewrite (lookup_set_prop_other _ _ _ _ Hp). intros H.
  pose proof (Hsym _ _ H) as Hback.
  assert (p <> key) by (intros ->; congruence).
  assert (p <> property) by (intros ->; congruence).
  now rewrite !lookup_set_prop_other by assumption.
Qed.

(** X2.  A key table that maps every entry back still does so after
    [@ipsoKey] has decorated any number of fields, provided the wire keys
    and field names of these declarations are distinct from one another
    and none of them was in the table. *)
Theorem ipsoKey_keeps_key_table_symmetric :
  forall (decls : list (string * string)) (base : ClassInfo),
    (forall k p, lookup k (md_ipsoKey base) = Some p ->
                 lookup p (md_ipsoKey base) = Some k) ->
    NoDup (map fst decls ++ map snd decls) ->
    (forall x, In x (map fst decls ++ map snd decls) ->
               lookup x (md_ipsoKey base) = None) ->
    forall k p,
      lookup k (md_ipsoKey (ipsoKeys decls base)) = Some p ->
      lookup p (md_ipsoKey (ipsoKeys decls base)) = Some k.
Proof.
  induction decls as [|[key property] decls IH]; intros base Hsym Hnd Hnew.
  - exact Hsym.
  - cbn [map fst snd app] in Hnd, Hnew.
    apply NoDup_cons_iff in Hnd as [Hkey Hnd].
    pose proof (NoDup_remove_2 _ _ _ Hnd) as Hprop.
    apply NoDup_remove_1 in Hnd.
    unfold ipsoKeys. cbn [fold_left fst snd].
    apply IH.
    + apply ipsoKey_step_symmetric.
      * exact Hsym.
      * apply Hnew. now left.
      * apply Hnew. right. apply in_or_app. right. now left.
    + exact Hnd.
    + intros x Hx. cbn [md_ipsoKey ipsoKey].
      assert (x <> key).
      { intros ->. apply Hkey. apply in_app_or in Hx as [Hx|Hx];
          apply in_or_app; [now left|right; now right]. }
      assert (x <> property) by (intros ->; now apply Hprop).
      rewrite !lookup_set_prop_other by assumption.
      apply Hnew. right. apply in_app_or in Hx as [Hx|Hx];
        apply in_or_app; [now left|right; now right].
Qed.

Lemma ipsoKey_keeps_key_table_symmetric_witness :
  lookup "dimmer"
    (md_ipsoKey
       (ipsoKeys [("5851", "dimmer"); ("9001", "name")]
          (ipsoKey "5850" "onOff" IPSOObject_class)))
  = Some "5851".
Proof.
  apply (ipsoKey_keeps_key_table_symmetric
           [("5851", "dimmer"); ("9001", "name")]
           (ipsoKey "5850" "onOff" IPSOObject_class)).
  - apply symmetric_table_sound. reflexivity.
  - repeat constructor; simpl; intuition discriminate.
  - intros x [<-|[<-|[<-|[<-|[]]]]]; reflexivity.
  - reflexivity.
Defined.

Section RedeclaredKey.
Variable classes : class_id -> ClassInfo.

(** X3.  When the same wire key is declared for two fields, the key
    resolves to the field declared last while both fields still resolve to
    the key: [parse] assigns an entry under the key to the second field,
    and the loop of [serialize] writes what either field is serialized to
    under the one key. *)
Theorem ipsoKey_redeclared_key_resolves_to_last_field :
  forall (c : class_id) (base : ClassInfo) (key first second : string)
         (a : addr) (ps : record),
    md_ipsoKey (classes c)
    = md_ipsoKey (ipsoKey key second (ipsoKey key first base)) ->
    first <> second -> key <> first -> key <> second ->
    (lookupKeyOrProperty classes (VInst a c ps) key = Some second
     /\ lookupKeyOrProperty classes (VInst a c ps) first = Some key
     /\ lookupKeyOrProperty classes (VInst a c ps) second = Some key)
    /\ (getDeserializer classes (VInst a c ps) key = None ->
        second <> "" ->
        forall obj v s,
          parse_entry classes (VInst a c ps) obj key v s
          = (pv <- parseValue (VInst a c ps) key v
                     (getDeserializer classes (VInst a c ps) second)
                     (match getDeserializer classes (VInst a c ps) second with
                      | Some d => splitArrays d
                      | None => true
                      end) ;;
             ret (assign (VInst a c ps) second pv)) s)
    /\ (forall self reference p v rest out s v' s',
          p = first \/ p = second ->
          visited classes (VInst a c ps) p = true ->
          serialize_property classes self (VInst a c ps) reference p v s
          = Return (v', s') ->
          is_nullish v' = false ->
          serialize_properties classes self (VInst a c ps) reference
            ((p, v) :: rest) out s
          = serialize_properties classes self (VInst a c ps) reference
              rest (set_prop key v' out) s').
Proof.
  intros c base key first second a ps H H12 Hk1 Hk2.
  assert (L : lookupKeyOrProperty classes (VInst a c ps) key = Some second
              /\ lookupKeyOrProperty classes (VInst a c ps) first = Some key
              /\ lookupKeyOrProperty classes (VInst a c ps) second = Some key).
  { unfold lookupKeyOrProperty. cbn [class_of]. rewrite H.
    cbn [md_ipsoKey ipsoKey]. split; [apply lookup_set_prop_same|]. split.
    - rewrite lookup_set_prop_other by congruence.
      rewrite lookup_set_prop_other by congruence.
      rewrite lookup_set_prop_other by congruence.
      apply lookup_set_prop_same.
    - rewrite lookup_set_prop_other by congruence.
      apply lookup_set_prop_same. }
  split; [exact L|]. destruct L as (Lk & L1 & L2). split.
  - intros Hd Hne obj v s. unfold parse_entry. rewrite Hd, Lk.
    destruct second as [|ch rest]; [congruence|reflexivity].
  - intros self reference p v rest out s v' s' Hp Hv Hs Hn.
    unfold visited in Hv. apply andb_prop in Hv as [Hu Hser].
    apply negb_true_iff in Hu.
    rewrite (serialize_properties_step classes self (VInst a c ps) reference
               p v rest out s v' s' Hu Hser Hs), Hn.
    now destruct Hp as [-> | ->]; [rewrite L1|rewrite L2].
Qed.

End RedeclaredKey.

Lemma ipsoKey_redeclared_key_resolves_to_last_field_witness :
  lookupKeyOrProperty Cases.twin_classes Cases.twin "5850" = Some "power"
  /\ lookupKeyOrProperty Cases.twin_classes Cases.twin "onOff" = Some "5850"
  /\ lookupKeyOrProperty Cases.twin_classes Cases.twin "power" = Some "5850".
Proof.
  apply (ipsoKey_redeclared_key_resolves_to_last_field Cases.twin_classes 0
           (declare_field "power" (Some "Number") None
              (declare_field "onOff" (Some "Number") None IPSOObject_class))
           "5850" "onOff" "power" 100
           [("isProxy", VBool false); ("options", VRec 101 []);
            ("onOff", VNum 1); ("power", VNum 60)]);
    [reflexivity|discriminate|discriminate|discriminate].
Defined.

(** On a whole instance of [Twin]: the wire object has the one key, with
    the value of the field serialized last, and [parse] assigns an entry
    under the key to [power] and leaves [onOff]. *)
Lemma twin_fields_share_one_key :
  serialize Cases.twin_classes Cases.twin VUndef Sample.state0
  = Return (VRec 1000 [("5850", VNum 60)], after_alloc Sample.state0)
  /\ parse Cases.twin_classes Cases.twin [("5850", VNum 7)] Sample.state0
     = Return (Sample.instance 100 0 [("onOff", VNum 1); ("power", VNum 7)],
               Sample.state0).
Proof. split; reflexivity. Qed.

(** ** parse, further *)

Section ParseFurther.
Variable classes : class_id -> ClassInfo.

Lemma parseValue_array this key b items transform s :
  parseValue this key (VArr b items) transform true s
  = (parsed <- parse_each this key transform true items ;;
     a <- alloc ;;
     ret (VArr a parsed)) s.
Proof. reflexivity. Qed.

Lemma parseValue_unsplit this key v transform s :
  is_array v = false ->
  parseValue this key v transform true s
  = parseValue this key v transform false s.
Proof. destruct v; try discriminate; reflexivity. Qed.

Lemma parseValue_scalar this key v transform s :
  parseValue this key v transform false s
  = (if typeof_object v then
       match transform with
       | Some t => ret (kernel t v this)
       | None => log (NoDeserializer key) ;;; ret VUndef
       end
     else
       t <- transform_applies this transform ;;
       match t with
       | Some t => ret (kernel t v this)
       | None => ret v
       end) s.
Proof. destruct v; reflexivity. Qed.

(** With a transform, the key only names the log entry that is never
    written. *)
Lemma parseValue_key_irrelevant this d split v :
  forall key key' s,
    parseValue this key v (Some d) split s
    = parseValue this key' v (Some d) split s.
Proof.
  induction v as [| |b|z|str|a xs IH|a ps _|a c ps _] using value_nested_ind;
    intros key key' s; try reflexivity.
  destruct split; [|reflexivity].
  rewrite !parseValue_array.
  assert (E : forall s0, parse_each this key (Some d) true xs s0
                         = parse_each this key' (Some d) true xs s0).
  { induction xs as [|x xs IHxs]; intros s0; [reflexivity|].
    inversion IH as [|? ? Hx Hxs]; subst.
    cbn [parse_each]. unfold bind. rewrite (Hx key key' s0).
    destruct (parseValue this key' x (Some d) true s0) as [[y s1]|];
      [|reflexivity].
    now rewrite (IHxs Hxs s1). }
  unfold bind. now rewrite E.
Qed.

(** X5.  A field that has a deserializer (declared, or the default of a
    boolean field) is accepted by [parse] under its own name as well as
    under its wire key: both entries give the same instance, the same log
    and the same allocations. *)
Theorem parse_accepts_field_name :
  forall (this : value) (obj obj' : record) (key field : string)
         (d : PropertyTransform) (v : value) (s : state),
    getDeserializer classes this field = Some d ->
    getDeserializer classes this key = None ->
    lookupKeyOrProperty classes this key = Some field ->
    field <> "" ->
    parse_entry classes this obj key v s
    = parse_entry classes this obj' field v s.
Proof.
  intros this obj obj' key field d v s Hd Hk Hl Hne.
  unfold parse_entry. rewrite Hd, Hk, Hl, Hd.
  destruct field as [|ch field]; [congruence|].
  unfold bind.
  now rewrite (parseValue_key_irrelevant this d (splitArrays d) v key
                 (String ch field) s).
Qed.

(** X6.  When the options of the instance ask to skip the basic
    serializers, [parseValue] hands a raw value that is not object-shaped
    and not an array back unchanged if the transform is not [neverSkip],
    and runs the transform if it is; an object-shaped value that is not an
    array is always run through the transform. *)
Theorem skip_option_spares_nested_parsing :
  forall (this : value) (key : string) (t : PropertyTransform) (v : value)
         (s : state),
    is_nullish (get_prop this "options") = false ->
    truthy (get_prop (get_prop this "options") "skipBasicSerializers") = true ->
    is_array v = false ->
    parseValue this key v (Some t) (splitArrays t) s
    = Return (if typeof_object v || neverSkip t then kernel t v this else v, s).
Proof.
  intros this key t v s Ho Hs Ha.
  assert (E : parseValue this key v (Some t) (splitArrays t) s
              = parseValue this key v (Some t) false s).
  { destruct (splitArrays t); [now apply parseValue_unsplit|reflexivity]. }
  rewrite E, parseValue_scalar.
  destruct (typeof_object v); [reflexivity|].
  unfold bind, transform_applies, skipBasicSerializers. cbn [orb].
  destruct (neverSkip t); [reflexivity|].
  unfold bind. destruct (get_prop this "options"); try discriminate;
    unfold ret; rewrite Hs; reflexivity.
Qed.

Lemma transform_applies_returns this transform s :
  is_nullish (get_prop this "options") = false ->
  exists t, transform_applies this transform s = Return (t, s).
Proof.
  intros Ho. unfold transform_applies, skipBasicSerializers.
  destruct transform as [t|]; [|now exists None].
  destruct (neverSkip t); [now exists (Some t)|].
  unfold bind, ret, throw.
  destruct (get_prop this "options"); try discriminate; eauto.
Qed.

Lemma parseValue_returns this transform split v :
  is_nullish (get_prop this "options") = false ->
  forall key s, exists r s', parseValue this key v transform split s = Return (r, s').
Proof.
  intros Ho.
  assert (Hscalar : forall x key s,
            exists r s', parseValue this key x transform false s = Return (r, s')).
  { intros x key s. rewrite parseValue_scalar.
    destruct (typeof_object x).
    - destruct transform; unfold bind, log, ret; eauto.
    - unfold bind.
      destruct (transform_applies_returns this transform s Ho) as (t & ->).
      destruct t; unfold ret; eauto. }
  induction v as [| |b|z|str|a xs IH|a ps _|a c ps _] using value_nested_ind;
    intros key s;
    try (destruct split;
         [rewrite parseValue_unsplit by reflexivity|]; apply Hscalar).
  destruct split; [|apply Hscalar].
  rewrite parseValue_array. unfold bind at 1.
  assert (E : forall s0, exists ys s1,
            parse_each this key transform true xs s0 = Return (ys, s1)).
  { induction xs as [|x xs IHxs]; intros s0; [unfold parse_each, ret; eauto|].
    inversion IH as [|? ? Hx Hxs]; subst.
    cbn [parse_each]. unfold bind at 1.
    destruct (Hx key s0) as (y & s1 & ->). unfold bind at 1.
    destruct (IHxs Hxs s1) as (ys & s2 & ->). unfold ret. eauto. }
  destruct (E s) as (ys & s1 & ->). unfold bind, alloc, ret. eauto.
Qed.

Lemma parse_total :
  forall (a : addr) (c : class_id) (ps : record) (obj : record) (s : state),
    is_nullish (get_prop (VInst a c ps) "options") = false ->
    getDeserializer classes (VInst a c ps) "options" = None ->
    (forall k, lookupKeyOrProperty classes (VInst a c ps) k <> Some "options") ->
    exists ps' s',
      parse classes (VInst a c ps) obj s = Return (VInst a c ps', s')
      /\ lookup "options" ps' = lookup "options" ps.
Proof.
  intros a c ps obj s Ho Hd Hk. unfold parse.
  generalize obj at 1. intros whole.
  revert ps s Ho Hd Hk.
  induction obj as [|[key v] es IH]; intros ps s Ho Hd Hk.
  - exists ps, s. split; reflexivity.
  - cbn [parse_entries]. unfold bind.
    assert (Hstep : exists ps1 s1,
              parse_entry classes (VInst a c ps) whole key v s
              = Return (VInst a c ps1, s1)
              /\ lookup "options" ps1 = lookup "options" ps).
    { unfold parse_entry.
      destruct (getDeserializer classes (VInst a c ps) key) as [d|] eqn:Ed.
      - unfold bind.
        destruct (parseValue_returns (VInst a c ps) (Some d) (splitArrays d) v
                    Ho key s) as (r & s1 & ->).
        exists (set_prop key r ps), s1. split; [reflexivity|].
        apply lookup_set_prop_other. intros <-. congruence.
      - destruct (lookupKeyOrProperty classes (VInst a c ps) key)
          as [[|ch p]|] eqn:El.
        + unfold bind, log, ret. eauto.
        + unfold bind.
          destruct (parseValue_returns (VInst a c ps)
                      (getDeserializer classes (VInst a c ps) (String ch p))
                      (match getDeserializer classes (VInst a c ps) (String ch p)
                       with Some d => splitArrays d | None => true end) v
                      Ho key s) as (r & s1 & ->).
          exists (set_prop (String ch p) r ps), s1. split; [reflexivity|].
          apply lookup_set_prop_other. intros E. apply (Hk key). congruence.
        + unfold bind, log, ret. eauto. }
    destruct Hstep as (ps1 & s1 & -> & Hopt).
    destruct (IH ps1 s1) as (ps' & s' & -> & Hopt').
    + unfold get_prop in *. cbn [own_prop] in *. now rewrite Hopt.
    + exact Hd.
    + exact Hk.
    + exists ps', s'. split; [reflexivity|congruence].
Qed.

(** X7.  [parse] is total on an instance whose [options] is an object,
    provided the class gives no way to assign [options] (no key resolves
    to it and it has no deserializer): whatever the wire object, [parse]
    returns the same instance (same address, same class), with [options]
    untouched. *)
Theorem parse_never_throws :
  forall (a : addr) (c : class_id) (ps : record) (obj : record) (s : state),
    is_nullish (get_prop (VInst a c ps) "options") = false ->
    getDeserializer classes (VInst a c ps) "options" = None ->
    (forall k, lookupKeyOrProperty classes (VInst a c ps) k <> Some "options") ->
    exists ps' s',
      parse classes (VInst a c ps) obj s = Return (VInst a c ps', s')
      /\ lookup "options" ps' = lookup "options" ps.
Proof.
  intros a c ps obj s Ho Hd Hk.
  destruct (parse_total a c ps obj s Ho Hd Hk) as (ps' & s' & Hparse & Hopt).
  exists ps', s'. split; [exact Hparse|exact Hopt].
Qed.


Lemma In_keys_set_prop {A} k k' (v : A) ps :
  In k (keys ps) -> In k (keys (set_prop k' v ps)).
Proof.
  unfold keys. induction ps as [|[k0 v0] ps IH]; [intros []|].
  cbn [set_prop]. destruct (String.eqb_spec k' k0) as [->|Hne].
  - exact (fun H => H).
  - cbn [map fst In]. intros [H|H]; [now left|right; now apply IH].
Qed.

Lemma assigned_field_class this this' key :
  class_of classes this' = class_of classes this ->
  assigned_field classes this' key = assigned_field classes this key.
Proof.
  intros H. unfold assigned_field.
  now rewrite (getDeserializer_class classes this this' key H),
              (lookupKeyOrProperty_class classes this this' key H).
Qed.

(** One turn of the loop keeps the instance and its property names, and
    changes the value of the assigned field only. *)
Lemma parse_entry_instance whole a c ps key v s this' s' :
  parse_entry classes (VInst a c ps) whole key v s = Return (this', s') ->
  exists ps',
    this' = VInst a c ps'
    /\ (forall k, In k (keys ps) -> In k (keys ps'))
    /\ (forall q, assigned_field classes (VInst a c ps) key <> Some q ->
                  lookup q ps' = lookup q ps).
Proof.
  unfold parse_entry, assigned_field, bind, log, ret.
  destruct (getDeserializer classes (VInst a c ps) key) as [d|].
  - destruct (parseValue _ _ _ _ _ s) as [[pv s2]|]; [|discriminate].
    intros [= <- _]. cbn [assign]. eexists. split; [reflexivity|]. split.
    + intros k. apply In_keys_set_prop.
    + intros q Hq. apply lookup_set_prop_other. congruence.
  - destruct (lookupKeyOrProperty classes (VInst a c ps) key) as [[|ch p]|].
    + intros [= <- _]. exists ps. repeat split; auto.
    + destruct (parseValue _ _ _ _ _ s) as [[pv s2]|]; [|discriminate].
      intros [= <- _]. cbn [assign]. eexists. split; [reflexivity|]. split.
      * intros k. apply In_keys_set_prop.
      * intros q Hq. apply lookup_set_prop_other. congruence.
    + intros [= <- _]. exists ps. repeat split; auto.
Qed.

Lemma parse_entries_instance whole es : forall a c ps s this' s',
  parse_entries classes (VInst a c ps) whole es s = Return (this', s') ->
  exists ps',
    this' = VInst a c ps'
    /\ (forall k, In k (keys ps) -> In k (keys ps'))
    /\ (forall q,
           (forall key, In key (keys es) ->
                        assigned_field classes (VInst a c ps) key <> Some q) ->
           lookup q ps' = lookup q ps).
Proof.
  induction es as [|[key v] es IH]; intros a c ps s this' s'.
  - intros [= <- _]. exists ps. repeat split; auto.
  - cbn [parse_entries]. unfold bind.
    destruct (parse_entry classes (VInst a c ps) whole key v s)
      as [[t1 s1]|] eqn:E; [|discriminate].
    destruct (parse_entry_instance _ _ _ _ _ _ _ _ _ E) as (ps1 & -> & Hk1 & Hf1).
    intros H. destruct (IH _ _ _ _ _ _ H) as (ps' & -> & Hk & Hf).
    exists ps'. split; [reflexivity|]. split.
    + intros k Hin. apply Hk, Hk1, Hin.
    + intros q Hq. rewrite Hf.
      * apply Hf1. apply Hq. now left.
      * intros key' Hin.
        rewrite (assigned_field_class (VInst a c ps) (VInst a c ps1) key')
          by reflexivity.
        apply Hq. now right.
Qed.

(** X8.  Whenever [parse] returns, it returns the instance it was called
    on (same address, same class); every property the instance had is
    still there, and a property that no entry of the wire object is
    assigned to holds what it held. *)
Theorem parse_returns_this_and_keeps_properties :
  forall (a : addr) (c : class_id) (ps : record) (obj : record)
         (s s' : state) (this' : value),
    parse classes (VInst a c ps) obj s = Return (this', s') ->
    exists ps',
      this' = VInst a c ps'
      /\ (forall k, In k (keys ps) -> In k (keys ps'))
      /\ (forall q,
             (forall key, In key (keys obj) ->
                          assigned_field classes (VInst a c ps) key <> Some q) ->
             lookup q ps' = lookup q ps).
Proof.
  intros a c ps obj s s' this' H.
  exact (parse_entries_instance obj obj a c ps s this' s' H).
Qed.

(** *** Unknown keys *)







End ParseFurther.

(** ** serialize, further *)

Section SerializeFurther.
Variable classes : class_id -> ClassInfo.

Lemma serialize_property_never_null_key self this reference ps :
  forall out s out' s',
    serialize_properties classes self this reference ps out s
    = Return (out', s') ->
    forall k v,
      lookup k out' = Some v ->
      lookup k out = Some v
      \/ (is_nullish v = false
          /\ exists p x, In (p, x) ps /\ visited classes this p = true
                         /\ k = to_key (lookupKeyOrProperty classes this p)).
Proof.
  induction ps as [|[p x] ps IH]; intros out s out' s'.
  - intros [= <- _] k v H. now left.
  - cbn [serialize_properties]. fold (visited classes this p).
    destruct (visited classes this p) eqn:Hv.
    + unfold bind.
      destruct (serialize_property classes self this reference p x s)
        as [[v' s1]|]; [|discriminate].
      intros H k v Hl.
      destruct (IH _ _ _ _ H k v Hl) as [Hout|(Hn & q & y & Hin & Hq & Hk)].
      * destruct (is_nullish v') eqn:Hn; [now left|].
        destruct (String.eqb_spec k (to_key (lookupKeyOrProperty classes this p)))
          as [->|Hne].
        -- rewrite lookup_set_prop_same in Hout. injection Hout as <-.
           right. split; [exact Hn|]. exists p, x. repeat split; auto.
           now left.
        -- rewrite (lookup_set_prop_other _ _ _ _ Hne) in Hout. now left.
      * right. split; [exact Hn|]. exists q, y. repeat split; auto. now right.
    + intros H k v Hl.
      destruct (IH _ _ _ _ H k v Hl) as [Hout|(Hn & q & y & Hin & Hq & Hk)];
        [now left|].
      right. split; [exact Hn|]. exists q, y. repeat split; auto. now right.
Qed.

(** X9.  Whatever the reference, the object that [serialize] returns for
    an instance is a fresh one, none of its values is null or undefined,
    and each of its keys is the wire key (or ["null"], for want of one) of
    an own property of the instance that is neither underscore-prefixed
    nor excluded with [@doNotSerialize]. *)
Theorem serialize_emits_only_visited_fields :
  forall (a : addr) (c : class_id) (ps : record) (reference : value)
         (s s' : state) (w : value),
    truthy (get_prop (VInst a c ps) "isProxy") = false ->
    serialize classes (VInst a c ps) reference s = Return (w, s') ->
    exists out,
      w = VRec (next s) out
      /\ forall k v,
           lookup k out = Some v ->
           is_nullish v = false
           /\ exists p x,
                In (p, x) ps
                /\ starts_with_underscore p = false
                /\ isSerializable classes (VInst a c ps) p = true
                /\ k = to_key (lookupKeyOrProperty classes (VInst a c ps) p).
Proof.
  intros a c ps reference s s' w Hp. rewrite serialize_instance, Hp.
  unfold bind at 1. unfold alloc. unfold bind at 1.
  destruct (serialize_properties _ _ _ _ _ _ _) as [[out s1]|] eqn:E;
    [|discriminate].
  intros [= <- _]. exists out. split; [reflexivity|].
  intros k v Hl.
  destruct (serialize_property_never_null_key _ _ _ _ _ _ _ _ E k v Hl)
    as [H|(Hn & p & x & Hin & Hv & Hk)]; [discriminate|].
  split; [exact Hn|]. exists p, x.
  unfold visited in Hv. apply andb_prop in Hv as [Hu Hs].
  apply negb_true_iff in Hu. repeat split; auto.
Qed.

(** X10.  When the options of the instance ask to skip the basic
    serializers, a serialize transform that is not [neverSkip] is not run
    at all: [serializeValue] returns what it returns without a transform,
    for plain values and for nested instances alike. *)
Theorem skip_option_disables_serializer :
  forall (self : value -> value -> M value) (this reference : value)
         (propName : string) (v refValue : value) (t : PropertyTransform)
         (s : state),
    is_nullish (get_prop this "options") = false ->
    truthy (get_prop (get_prop this "options") "skipBasicSerializers") = true ->
    neverSkip t = false ->
    serializeValue classes self this reference propName v refValue (Some t) s
    = serializeValue classes self this reference propName v refValue None s.
Proof.
  intros self this reference propName v refValue t s Ho Hs Hn.
  assert (E : forall s0, transform_applies this (Some t) s0
                         = transform_applies this None s0).
  { intros s0. unfold transform_applies, skipBasicSerializers. rewrite Hn.
    unfold bind.
    destruct (get_prop this "options"); try discriminate;
      unfold ret; rewrite Hs; reflexivity. }
  unfold serializeValue.
  destruct v;
    try (destruct (negb (is_nullish refValue)
                   && (negb (isRequired classes this reference propName)
                       && strict_eq refValue _));
         [reflexivity|unfold bind; now rewrite E]).
  unfold bind at 1 3.
  destruct (self (VInst a cls props) refValue s) as [[w s1]|]; [|reflexivity].
  destruct (isSerializedObjectEmpty _ _ _ _); [reflexivity|].
  unfold bind. now rewrite E.
Qed.

Lemma raises_needs_reference x r :
  raises classes x r -> is_nullish r = true -> False.
Proof.
  induction 1 as [a c ps r0 p b items Hp Hin Hv Hsp Hn Hl
                 |a c ps r0 p v x rx Hp Hin Hv Hcall Hr IH
                 |a c ps r0 u Hp Hl Hr IH]; intros Hnull.
  - destruct r0; try discriminate; discriminate Hn.
  - apply IH.
    assert (Er : effective_reference r0 = VNull)
      by (destruct r0; try discriminate; reflexivity).
    rewrite Er in Hcall.
    destruct Hcall as [_|? ? ? ? _ _ _ _ _|? ? ? ? ? ? _ _ E _ _ _];
      try reflexivity.
    discriminate E.
  - apply IH. destruct r0; try discriminate; reflexivity.
Qed.

Lemma serialize_total_without_reference :
  forall (this reference : value) (s : state),
    is_ipso this = true ->
    well_typed this = true ->
    is_nullish reference = true ->
    exists a out s',
      serialize classes this reference s = Return (VRec a out, s').
Proof.
  intros this reference s Hi Hw Hn.
  destruct (serialize classes this reference s) as [[w s']|e] eqn:E.
  - destruct (serialize_returns_record classes _ _ _ _ _ E) as (a & out & ->).
    eauto.
  - exfalso. destruct (serialize_throw_explained classes this) as [Q _].
    apply Q in E as [[_ Hr]|[_ [H|H]]]; [|congruence|congruence].
    eapply raises_needs_reference; eassumption.
Qed.

(** X11.  Without a reference, [serialize] cannot fail on a well-typed
    instance (with the instances nested in it, [isProxy] is false and
    [options] is an object): it returns a plain object. *)
Theorem serialize_without_reference_never_throws :
  forall (this reference : value) (s : state),
    is_ipso this = true ->
    well_typed this = true ->
    is_nullish reference = true ->
    exists a out s',
      serialize classes this reference s = Return (VRec a out, s').
Proof.
  intros this reference s Hi Hw Hn.
  destruct (serialize_total_without_reference this reference s Hi Hw Hn)
    as (a & out & s' & H).
  exists a, out, s'. exact H.
Qed.

(** X12.  For an instance that is not a proxy, whose options do not ask
    to skip, whose serialized fields hold primitives and have wire keys in
    a key table that maps every entry back, [serialize()] returns a fresh
    object in which every serialized field appears under its wire key with
    the value its serializer gives (the raw value without a serializer),
    and is absent when that value is null or undefined. *)
Theorem serialize_emits_each_field_under_its_key :
  forall (a : addr) (c : class_id) (ps : record) (s : state),
    truthy (get_prop (VInst a c ps) "isProxy") = false ->
    options_apply_all (VInst a c ps) ->
    (forall p v, In (p, v) ps -> visited classes (VInst a c ps) p = true ->
                 is_primitive v = true) ->
    symmetric_keys classes (VInst a c ps) ->
    NoDup (keys ps) ->
    (forall p v, In (p, v) ps -> visited classes (VInst a c ps) p = true ->
                 exists k, lookupKeyOrProperty classes (VInst a c ps) p = Some k) ->
    exists out,
      serialize classes (VInst a c ps) VUndef s
      = Return (VRec (next s) out, after_alloc s)
      /\ forall p v k,
           lookup p ps = Some v ->
           visited classes (VInst a c ps) p = true ->
           lookupKeyOrProperty classes (VInst a c ps) p = Some k ->
           lookup k out
           = if is_nullish (emitted classes (VInst a c ps) p v) then None
             else Some (emitted classes (VInst a c ps) p v).
Proof.
  intros a c ps s Hp Ho Hflat Hsym Hnd Hkeys.
  exists (emit classes (VInst a c ps) ps []). split.
  - now apply serialize_primitive_instance.
  - intros p v k Hl Hv Hk.
    rewrite (lookup_emit classes (VInst a c ps) ps [] k Hsym Hnd Hkeys).
    now rewrite (Hsym _ _ Hk), Hv, Hl.
Qed.

Lemma serializeValue_plain self this reference propName x rx s :
  is_ipso x = false ->
  serializeValue classes self this reference propName x rx None s
  = Return (if negb (is_nullish rx)
               && (negb (isRequired classes this reference propName)
                   && strict_eq rx x)
            then VNull else x, s).
Proof.
  intros Hx. unfold serializeValue.
  destruct x; try discriminate;
    destruct (negb (is_nullish rx)
              && (negb (isRequired classes this reference propName)
                  && strict_eq rx _)); reflexivity.
Qed.

Lemma serialize_items_plain self this reference propName items :
  forall refItems s,
    forallb (fun x => negb (is_ipso x)) items = true ->
    List.length refItems = List.length items ->
    serialize_items classes self this reference propName None items
      (Some refItems) s
    = Return (differing_items (isRequired classes this reference propName)
                items refItems, s).
Proof.
  induction items as [|x items IH]; intros refItems s Hall Hlen.
  - reflexivity.
  - destruct refItems as [|r rs]; [discriminate|].
    cbn [forallb] in Hall. apply andb_prop in Hall as [Hx Hall].
    apply negb_true_iff in Hx.
    cbn [serialize_items hd option_map tl]. unfold bind at 1.
    rewrite (serializeValue_plain self this reference propName x r s Hx).
    unfold bind at 1. rewrite IH; auto.
Qed.

(** X13.  An array of values that are not instances, serialized item by
    item without a transform against a reference array of the same length,
    gives the array of the items that differ from their reference items
    (all items, when the field is required), null items removed, or
    nothing when none is left: the items that remain move up, so positions
    in the output do not match positions in the value. *)
Theorem array_is_serialized_to_its_differing_items :
  forall (self : value -> value -> M value) (this reference : value)
         (propName : string) (b b' : addr) (items refItems : list value)
         (s : state),
    getSerializer classes this propName = None ->
    reference_value reference propName = VArr b' refItems ->
    List.length refItems = List.length items ->
    forallb (fun x => negb (is_ipso x)) items = true ->
    serialize_property classes self this reference propName (VArr b items) s
    = compact
        (differing_items (isRequired classes this reference propName)
           items refItems) s.
Proof.
  intros self this reference propName b b' items refItems s Hser Href Hlen Hall.
  unfold serialize_property. rewrite Hser, Href. cbn [is_nullish].
  apply Nat.eqb_eq in Hlen. rewrite Hlen. apply Nat.eqb_eq in Hlen.
  unfold bind. now rewrite serialize_items_plain.
Qed.

(** X14.  An empty array in a field whose arrays are split is never
    emitted: with no reference value, or against an empty reference array,
    the loop of [serialize] stores nothing for the field. *)
Theorem empty_array_is_omitted :
  forall (self : value -> value -> M value) (this reference : value)
         (propName : string) (b : addr) (rest : list (string * value))
         (out : record) (s : state),
    visited classes this propName = true ->
    splits classes this propName = true ->
    is_nullish (reference_value reference propName) = true
    \/ (exists b', reference_value reference propName = VArr b' []) ->
    serialize_properties classes self this reference
      ((propName, VArr b []) :: rest) out s
    = serialize_properties classes self this reference rest out s.
Proof.
  intros self this reference propName b rest out s Hv Hsp Href.
  unfold visited in Hv. apply andb_prop in Hv as [Hu Hs].
  apply negb_true_iff in Hu.
  rewrite (serialize_properties_step classes self this reference propName
             (VArr b []) rest out s VNull s Hu Hs); [reflexivity|].
  unfold serialize_property. fold (splits classes this propName). rewrite Hsp.
  destruct Href as [Hn|(b' & Hr)].
  - now rewrite Hn.
  - now rewrite Hr.
Qed.

End SerializeFurther.

(** ** merge, further *)

Section MergeFurther.

Lemma props_extensional (l1 : record) : forall l2 : record,
  NoDup (keys l1) ->
  keys l1 = keys l2 ->
  (forall k, lookup k l1 = lookup k l2) ->
  l1 = l2.
Proof.
  unfold keys.
  induction l1 as [|[k1 v1] l1 IH]; intros [|[k2 v2] l2] Hnd Hk Hl;
    try discriminate; [reflexivity|].
  cbn [map fst] in Hk. injection Hk as <- Hk.
  inversion Hnd as [|? ? Hnotin Hnd']; subst.
  pose proof (Hl k1) as H1. cbn [lookup] in H1.
  rewrite String.eqb_refl in H1. injection H1 as <-.
  f_equal. apply IH; auto.
  intros k. pose proof (Hl k) as Hk'. cbn [lookup] in Hk'.
  destruct (String.eqb_spec k k1) as [E|Hne]; [|exact Hk'].
  rewrite E. rewrite (lookup_not_in _ _ Hnotin).
  symmetry. apply lookup_not_in. unfold keys. now rewrite <- Hk.
Qed.

Lemma keys_overwritten p ps : keys (overwritten p ps) = keys ps.
Proof.
  unfold keys, overwritten. rewrite map_map. now apply map_ext.
Qed.

Lemma lookup_overwritten p ps k :
  lookup k (overwritten p ps)
  = match lookup k ps, lookup k p with
    | Some _, Some v => Some v
    | old, _ => old
    end.
Proof.
  induction ps as [|[k0 v0] ps IH]; [reflexivity|].
  cbn [overwritten map fst snd lookup].
  destruct (String.eqb_spec k k0) as [->|Hne].
  - now destruct (lookup k0 p).
  - exact IH.
Qed.

Lemma merge_closed_form a c ps p :
  NoDup (keys ps) -> NoDup (keys p) ->
  merge (VInst a c ps) p = VInst a c (overwritten p ps).
Proof.
  intros Hps Hp. unfold merge.
  destruct (merge_entries_instance a c p ps) as (ps' & Hm & Hk).
  rewrite Hm. f_equal. apply props_extensional.
  - now rewrite Hk.
  - now rewrite Hk, keys_overwritten.
  - intros k. rewrite (merge_entries_lookup a c p ps ps' k Hp Hm).
    now rewrite lookup_overwritten.
Qed.

(** X15.  Merging the same partial object a second time changes nothing:
    [t.merge(p).merge(p)] leaves [t] as [t.merge(p)] left it. *)
Theorem merge_is_idempotent :
  forall (a : addr) (c : class_id) (ps p : record),
    NoDup (keys ps) -> NoDup (keys p) ->
    merge (merge (VInst a c ps) p) p = merge (VInst a c ps) p.
Proof.
  intros a c ps p Hps Hp.
  rewrite (merge_closed_form a c ps p Hps Hp).
  rewrite merge_closed_form; [|now rewrite keys_overwritten|exact Hp].
  f_equal. apply props_extensional.
  - now rewrite !keys_overwritten.
  - now rewrite !keys_overwritten.
  - intros k. rewrite !lookup_overwritten.
    destruct (lookup k ps); destruct (lookup k p); reflexivity.
Qed.

(** X16.  Two partial objects that share no key can be merged in either
    order: [t.merge(p).merge(q)] and [t.merge(q).merge(p)] leave [t] with
    the same properties. *)
Theorem merges_of_disjoint_partials_commute :
  forall (a : addr) (c : class_id) (ps p q : record),
    NoDup (keys ps) -> NoDup (keys p) -> NoDup (keys q) ->
    (forall k, In k (keys p) -> ~ In k (keys q)) ->
    merge (merge (VInst a c ps) p) q = merge (merge (VInst a c ps) q) p.
Proof.
  intros a c ps p q Hps Hp Hq Hdis.
  rewrite (merge_closed_form a c ps p Hps Hp).
  rewrite (merge_closed_form a c ps q Hps Hq).
  rewrite !merge_closed_form; try assumption;
    try (now rewrite keys_overwritten).
  f_equal. apply props_extensional.
  - now rewrite !keys_overwritten.
  - now rewrite !keys_overwritten.
  - intros k. rewrite !lookup_overwritten.
    destruct (lookup k ps) as [old|]; [|reflexivity].
    destruct (lookup k p) as [v|] eqn:Ep; destruct (lookup k q) as [w|] eqn:Eq;
      try reflexivity.
    exfalso. apply (Hdis k); eapply lookup_in_keys; eassumption.
Qed.

End MergeFurther.

(** ** The proxy layer, further *)

Section ProxyFurther.
Import ProxyLayer.

Lemma read_through_default_proxy a xv key x st s :
  is_method key = false -> own_prop xv key = Some x ->
  key <> "isProxy" -> key <> "underlyingObject" -> key <> "unproxy" ->
  read (Wrapper a (Plain xv) None st) key s
  = match elements (Plain x) with
    | Some (first :: rest) =>
        if instanceof_IPSOObject first then
          (ws <- wrap_each (first :: rest) ;;
           b <- alloc ;;
           ret (Data (Items b ws))) s
        else Return (Data (Plain x), s)
    | Some [] => Return (Data (Plain x), s)
    | None =>
        if is_ipso x then
          (w <- createProxy (Plain x) None None ;;
           ret (Data w)) s
        else Return (Data (Plain x), s)
    end.
Proof.
  intros Hm Ho H1 H2 H3.
  change (read (Wrapper a (Plain xv) None st) key s)
    with ((if String.eqb key "isProxy" then ret (Data (Plain (VBool true)))
           else if String.eqb key "underlyingObject" then ret (Data (Plain xv))
           else if String.eqb key "unproxy" then read (Plain xv) "unproxy"
           else
             r <- read (Plain xv) key ;;
             match r with
             | Method m =>
                 if String.eqb key "clone" then ret (WrappingClone (Plain xv))
                 else ret (Method m)
             | Data d =>
                 match elements d with
                 | Some (first :: rest) =>
                     if instanceof_IPSOObject first then
                       ws <- wrap_each (first :: rest) ;;
                       a <- alloc ;;
                       ret (Data (Items a ws))
                     else ret (Data d)
                 | Some [] => ret (Data d)
                 | None =>
                     if instanceof_IPSOObject d then
                       w <- createProxy d None None ;;
                       ret (Data w)
                     else ret (Data d)
                 end
             | other => ret other
             end) s).
  apply String.eqb_neq in H1, H2, H3. rewrite H1, H2, H3.
  unfold bind at 1. rewrite (read_own xv key x s Hm Ho).
  destruct (elements (Plain x)) as [[|first rest]|];
    cbn [instanceof_IPSOObject];
    [reflexivity
    |destruct (instanceof_IPSOObject first); reflexivity
    |destruct (is_ipso x); reflexivity].
Qed.

Lemma get_prop_own v key x :
  get_prop v key = x -> x <> VUndef -> own_prop v key = Some x.
Proof.
  unfold get_prop. destruct (own_prop v key); intros <- H; congruence.
Qed.


Lemma wrap_each_instances xs : forall s,
  forallb is_ipso xs = true ->
  exists ws s',
    wrap_each (map Plain xs) s = Return (ws, s')
    /\ Forall2
         (fun w x => forall s0, call_unproxy w s0 = Return (Data (Plain x), s0))
         ws xs.
Proof.
  induction xs as [|x xs IH]; intros s Hall.
  - exists [], s. split; [reflexivity|constructor].
  - cbn [forallb] in Hall. apply andb_prop in Hall as [Hx Hxs].
    cbn [map wrap_each instanceof_IPSOObject]. rewrite Hx.
    unfold bind at 1. unfold createProxy at 1. unfold bind at 1.
    unfold alloc at 1. unfold ret at 1. unfold bind at 1.
    destruct (IH (after_alloc s) Hxs) as (ws & s' & E & Hall').
    unfold after_alloc in E. rewrite E.
    exists (Wrapper (next s) (Plain x) None None :: ws), s'.
    split; [reflexivity|]. constructor; [|exact Hall'].
    intros s0. unfold call_unproxy, bind.
    rewrite (read_unproxy_method (Wrapper (next s) (Plain x) None None) Hx s0).
    reflexivity.
Qed.

Lemma wrap_each_stranger xs : forall s,
  forallb is_ipso xs = false ->
  wrap_each (map Plain xs) s = Throw TypeError.
Proof.
  induction xs as [|x xs IH]; intros s Hall; [discriminate|].
  cbn [forallb] in Hall. cbn [map wrap_each instanceof_IPSOObject].
  destruct (is_ipso x) eqn:Hx; [|reflexivity].
  cbn [andb] in Hall.
  unfold bind at 1. unfold createProxy at 1. unfold bind at 1.
  unfold alloc at 1. unfold ret at 1. unfold bind at 1.
  now rewrite IH.
Qed.

(** X18.  Through a proxy created without a custom getter, reading a
    field that holds a non-empty array whose first item is an instance
    gives a new array of proxies, one per item, each unwrapping to its
    item, when every item is an instance; when some later item is not an
    instance the read throws a TypeError. *)
Theorem proxy_read_wraps_array_items :
  forall (a b : addr) (xv first : value) (rest : list value) (key : string)
         (st : option handler) (s : state),
    is_ipso xv = true -> is_method key = false ->
    key <> "isProxy" -> key <> "underlyingObject" -> key <> "unproxy" ->
    get_prop xv key = VArr b (first :: rest) ->
    is_ipso first = true ->
    (forallb is_ipso rest = true ->
     exists b' ws s',
       read (Wrapper a (Plain xv) None st) key s
       = Return (Data (Items b' ws), s')
       /\ Forall2
            (fun w x =>
               forall s0, call_unproxy w s0 = Return (Data (Plain x), s0))
            ws (first :: rest))
    /\ (forallb is_ipso rest = false ->
        read (Wrapper a (Plain xv) None st) key s = Throw TypeError).
Proof.
  intros a b xv first rest key st s Hx Hm H1 H2 H3 Hget Hfirst.
  assert (Ho : own_prop xv key = Some (VArr b (first :: rest)))
    by (apply get_prop_own; [exact Hget|discriminate]).
  rewrite (read_through_default_proxy a xv key _ st s Hm Ho H1 H2 H3).
  cbn [elements map instanceof_IPSOObject]. rewrite Hfirst.
  change (Plain first :: map Plain rest) with (map Plain (first :: rest)).
  split.
  - intros Hrest.
    destruct (wrap_each_instances (first :: rest) s) as (ws & s' & E & Hall).
    { cbn [forallb]. now rewrite Hfirst, Hrest. }
    unfold bind at 1. rewrite E.
    exists (next s'), ws, (after_alloc s'). split; [reflexivity|exact Hall].
  - intros Hrest. unfold bind at 1.
    rewrite wrap_each_stranger; [reflexivity|].
    cbn [forallb]. now rewrite Hfirst, Hrest.
Qed.

End ProxyFurther.

(** ** clone *)

Section CloneFacts.
Variable classes : class_id -> ClassInfo.

(** X19.  [clone] cannot fail on a well-typed instance of a class that
    gives no way to assign [options]: it returns a new instance of the
    same class, at a fresh address, whose [options] is the very object the
    original holds (the options are shared, not copied). *)
Theorem clone_returns_new_instance_sharing_options :
  forall (a : addr) (c : class_id) (ps : record) (s : state),
    well_typed (VInst a c ps) = true ->
    getDeserializer classes (VInst a c ps) "options" = None ->
    (forall k, lookupKeyOrProperty classes (VInst a c ps) k <> Some "options") ->
    exists ps' s',
      clone classes (VInst a c ps) s = Return (VInst (next s) c ps', s')
      /\ get_prop (VInst (next s) c ps') "options"
         = get_prop (VInst a c ps) "options"
      /\ strict_eq (get_prop (VInst (next s) c ps') "options")
           (get_prop (VInst a c ps) "options") = true.
Proof.
  intros a c ps s Hw Hd Hk.
  destruct (well_typed_instance a c ps Hw) as (_ & Ho & _).
  unfold clone.
  set (o := get_prop (VInst a c ps) "options") in *.
  assert (Hfresh : construct classes c o s
                   = Return (VInst (next s) c
                               (("isProxy", VBool false) :: ("options", o)
                                  :: initial_props (classes c)),
                             after_alloc s)).
  { destruct o; try discriminate; reflexivity. }
  unfold bind at 1. rewrite Hfresh. unfold bind at 1.
  destruct (serialize_total_without_reference classes (VInst a c ps) VUndef
              (after_alloc s) eq_refl Hw eq_refl) as (r & out & s1 & ->).
  cbn [record_of].
  destruct (parse_total classes (next s) c
              (("isProxy", VBool false) :: ("options", o)
                 :: initial_props (classes c)) out s1)
    as (ps' & s' & Hparse & Hopt).
  - exact Ho.
  - exact Hd.
  - exact Hk.
  - exists ps', s'. split; [exact Hparse|].
    assert (E : get_prop (VInst (next s) c ps') "options" = o).
    { unfold get_prop. cbn [own_prop]. rewrite Hopt. reflexivity. }
    split; [exact E|]. rewrite E.
    destruct o; try discriminate; cbn [strict_eq];
      auto using Bool.eqb_reflx, Z.eqb_refl, String.eqb_refl, Nat.eqb_refl.
Qed.

End CloneFacts.

(** ** Instances of the further properties *)

Lemma parse_accepts_field_name_witness :
  parse_entry Sample.classes Sample.dark_lamp [("5850", VNum 1)] "5850"
    (VNum 1) Sample.state0
  = parse_entry Sample.classes Sample.dark_lamp [("onOff", VNum 1)] "onOff"
      (VNum 1) Sample.state0.
Proof.
  apply (parse_accepts_field_name Sample.classes Sample.dark_lamp
           [("5850", VNum 1)] [("onOff", VNum 1)] "5850" "onOff"
           (buildPropertyTransform boolean_deserializer_kernel None (Some true))
           (VNum 1) Sample.state0);
    try reflexivity.
  discriminate.
Defined.

Lemma skip_option_spares_nested_parsing_witness :
  parseValue Cases.raw_lamp "5851" (VNum 5) (Some Cases.doubling)
    (splitArrays Cases.doubling) Sample.state0
  = Return (VNum 5, Sample.state0)
  /\ parseValue Cases.raw_lamp "5851" (VRec 7 []) (Some Cases.doubling)
       (splitArrays Cases.doubling) Sample.state0
     = Return (VNull, Sample.state0).
Proof.
  split.
  - apply (skip_option_spares_nested_parsing Cases.raw_lamp "5851"
             Cases.doubling (VNum 5) Sample.state0); reflexivity.
  - apply (skip_option_spares_nested_parsing Cases.raw_lamp "5851"
             Cases.doubling (VRec 7 []) Sample.state0); reflexivity.
Defined.

(** No key of the lamp's class resolves to [options]. *)
Lemma lamp_options_unreachable :
  forall k, lookupKeyOrProperty Sample.classes Sample.lamp k <> Some "options".
Proof.
  intros k H. unfold lookupKeyOrProperty in H. apply lookup_In in H.
  vm_compute in H.
  repeat (destruct H as [H|H]; [discriminate H|]). exact H.
Qed.

Lemma parse_never_throws_witness :
  exists ps' s',
    parse Sample.classes Sample.lamp
      [("5850", VRec 3 []); ("zz", VNull); ("5851", VArr 4 [VNum 1])]
      Sample.state0
    = Return (VInst 10 Sample.light_id ps', s')
    /\ lookup "options" ps' = Some (VRec 11 []).
Proof.
  apply (parse_never_throws Sample.classes 10 Sample.light_id
           [("isProxy", VBool false); ("options", VRec 11 []);
            ("onOff", VBool true); ("dimmer", VNum 5)]
           [("5850", VRec 3 []); ("zz", VNull); ("5851", VArr 4 [VNum 1])]
           Sample.state0 eq_refl eq_refl lamp_options_unreachable).
Defined.

Lemma parse_returns_this_and_keeps_properties_witness :
  exists ps',
    VInst 14 Sample.light_id
      [("isProxy", VBool false); ("options", VRec 15 []);
       ("onOff", VBool true); ("dimmer", VNum 9)]
    = VInst 14 Sample.light_id ps'
    /\ (forall k,
           In k (keys [("isProxy", VBool false); ("options", VRec 15 []);
                       ("onOff", VBool false)]) ->
           In k (keys ps'))
    /\ (forall q,
           (forall key, In key (keys [("5850", VNum 1); ("5851", VNum 9)]) ->
              assigned_field Sample.classes
                (VInst 14 Sample.light_id
                   [("isProxy", VBool false); ("options", VRec 15 []);
                    ("onOff", VBool false)]) key
              <> Some q) ->
           lookup q ps'
           = lookup q [("isProxy", VBool false); ("options", VRec 15 []);
                       ("onOff", VBool false)]).
Proof.
  apply (parse_returns_this_and_keeps_properties Sample.classes 14
           Sample.light_id
           [("isProxy", VBool false); ("options", VRec 15 []);
            ("onOff", VBool false)]
           [("5850", VNum 1); ("5851", VNum 9)]
           Sample.state0 Sample.state0).
  reflexivity.
Defined.


(** On a whole wire object: the entry before the unknown key is parsed,
    the unknown key is skipped with its two warnings, and the entry after
    it is parsed all the same. *)
Lemma unknown_key_between_known_keys :
  parse Sample.classes Sample.dark_lamp
    [("5850", VNum 1); ("zz", VNum 1); ("5851", VNum 7)] Sample.state0
  = Return
      (Sample.instance 14 Sample.light_id
         [("onOff", VBool true); ("dimmer", VNum 7)],
       warned "zz" [("5850", VNum 1); ("zz", VNum 1); ("5851", VNum 7)]
         Sample.state0).
Proof. reflexivity. Qed.

Lemma serialize_emits_only_visited_fields_witness :
  exists out,
    VRec 1000 [("5850", VNum 1); ("5851", VNum 5); ("null", VStr "hi")]
    = VRec (next Sample.state0) out
    /\ forall k v,
         lookup k out = Some v ->
         is_nullish v = false
         /\ exists p x,
              In (p, x)
                [("isProxy", VBool false); ("options", VRec 13 []);
                 ("onOff", VBool true); ("dimmer", VNum 5);
                 ("note", VStr "hi")]
              /\ starts_with_underscore p = false
              /\ isSerializable Sample.classes Sample.annotated_lamp p = true
              /\ k = to_key (lookupKeyOrProperty Sample.classes
                               Sample.annotated_lamp p).
Proof.
  apply (serialize_emits_only_visited_fields Sample.classes 12 Sample.light_id
           [("isProxy", VBool false); ("options", VRec 13 []);
            ("onOff", VBool true); ("dimmer", VNum 5); ("note", VStr "hi")]
           VNull Sample.state0 (after_alloc Sample.state0)
           (VRec 1000 [("5850", VNum 1); ("5851", VNum 5); ("null", VStr "hi")])
           eq_refl eq_refl).
Defined.

Lemma skip_option_disables_serializer_witness :
  serializeValue Sample.classes (serialize Sample.classes) Cases.raw_lamp VNull
    "dimmer" (VNum 5) VNull (Some Cases.doubling) Sample.state0
  = serializeValue Sample.classes (serialize Sample.classes) Cases.raw_lamp VNull
      "dimmer" (VNum 5) VNull None Sample.state0.
Proof.
  apply (skip_option_disables_serializer Sample.classes
           (serialize Sample.classes) Cases.raw_lamp VNull "dimmer" (VNum 5)
           VNull Cases.doubling Sample.state0); reflexivity.
Defined.

Lemma serialize_without_reference_never_throws_witness :
  exists a out s',
    serialize Sample.classes Sample.socket VUndef Sample.state0
    = Return (VRec a out, s').
Proof.
  apply (serialize_without_reference_never_throws Sample.classes Sample.socket
           VUndef Sample.state0); reflexivity.
Defined.

(** The key table of the lamp's class maps every entry back. *)
Lemma lamp_symmetric_keys : symmetric_keys Sample.classes Sample.lamp.
Proof.
  intros k p. unfold lookupKeyOrProperty.
  apply symmetric_table_sound. reflexivity.
Qed.

Lemma serialize_emits_each_field_under_its_key_witness :
  exists out,
    serialize Sample.classes Sample.lamp VUndef Sample.state0
    = Return (VRec (next Sample.state0) out, after_alloc Sample.state0)
    /\ lookup "5850" out = Some (VNum 1)
    /\ lookup "5851" out = Some (VNum 5).
Proof.
  destruct (serialize_emits_each_field_under_its_key Sample.classes 10
              Sample.light_id
              [("isProxy", VBool false); ("options", VRec 11 []);
               ("onOff", VBool true); ("dimmer", VNum 5)] Sample.state0)
    as (out & Hs & Hout).
  - reflexivity.
  - split; reflexivity.
  - intros p v [E|[E|[E|[E|[]]]]]; injection E as <- <-; intros Hv;
      try discriminate Hv; reflexivity.
  - exact lamp_symmetric_keys.
  - repeat constructor; simpl; intuition discriminate.
  - intros p v [E|[E|[E|[E|[]]]]]; injection E as <- <-; intros Hv;
      try discriminate; eexists; reflexivity.
  - exists out. split; [exact Hs|]. split.
    + apply (Hout "onOff" (VBool true) "5850"); reflexivity.
    + apply (Hout "dimmer" (VNum 5) "5851"); reflexivity.
Defined.

Lemma array_is_serialized_to_its_differing_items_witness :
  serialize_property Sample.classes (serialize Sample.classes) Sample.socket
    Cases.other_socket "levels" (VArr 22 [VNum 1; VNum 2; VNum 3]) Sample.state0
  = Return (VArr 1000 [VNum 2], after_alloc Sample.state0).
Proof.
  apply (array_is_serialized_to_its_differing_items Sample.classes
           (serialize Sample.classes) Sample.socket Cases.other_socket "levels"
           22 62 [VNum 1; VNum 2; VNum 3] [VNum 1; VNum 7; VNum 3]
           Sample.state0); reflexivity.
Defined.

Lemma empty_array_is_omitted_witness :
  serialize_properties Sample.classes (serialize Sample.classes)
    Cases.bare_socket VNull [("levels", VArr 72 [])] [] Sample.state0
  = serialize_properties Sample.classes (serialize Sample.classes)
      Cases.bare_socket VNull [] [] Sample.state0.
Proof.
  apply (empty_array_is_omitted Sample.classes (serialize Sample.classes)
           Cases.bare_socket VNull "levels" 72 [] [] Sample.state0);
    try reflexivity.
  left. reflexivity.
Defined.

Lemma merge_is_idempotent_witness :
  merge (merge (VInst 10 Sample.light_id
                  [("onOff", VBool true); ("dimmer", VNum 5)])
           [("dimmer", VNum 9)])
    [("dimmer", VNum 9)]
  = merge (VInst 10 Sample.light_id [("onOff", VBool true); ("dimmer", VNum 5)])
      [("dimmer", VNum 9)].
Proof.
  apply (merge_is_idempotent 10 Sample.light_id
           [("onOff", VBool true); ("dimmer", VNum 5)] [("dimmer", VNum 9)]);
    repeat constructor; simpl; intuition discriminate.
Defined.

Lemma merges_of_disjoint_partials_commute_witness :
  merge (merge (VInst 10 Sample.light_id
                  [("onOff", VBool true); ("dimmer", VNum 5)])
           [("dimmer", VNum 9)])
    [("onOff", VBool false)]
  = merge (merge (VInst 10 Sample.light_id
                    [("onOff", VBool true); ("dimmer", VNum 5)])
             [("onOff", VBool false)])
      [("dimmer", VNum 9)].
Proof.
  apply (merges_of_disjoint_partials_commute 10 Sample.light_id
           [("onOff", VBool true); ("dimmer", VNum 5)]
           [("dimmer", VNum 9)] [("onOff", VBool false)]);
    try (repeat constructor; simpl; intuition discriminate).
  intros k [<-|[]] [E|[]]. discriminate E.
Defined.


Lemma proxy_read_wraps_array_items_witness :
  (exists b' ws s',
      ProxyLayer.read
        (ProxyLayer.Wrapper 90 (ProxyLayer.Plain Cases.chandelier) None None)
        "lightList" Sample.state0
      = Return (ProxyLayer.Data (ProxyLayer.Items b' ws), s')
      /\ Forall2
           (fun w x =>
              forall s0,
                ProxyLayer.call_unproxy w s0
                = Return (ProxyLayer.Data (ProxyLayer.Plain x), s0))
           ws [Sample.lamp; Sample.dark_lamp])
  /\ ProxyLayer.read
       (ProxyLayer.Wrapper 90 (ProxyLayer.Plain Cases.odd_chandelier) None None)
       "lightList" Sample.state0
     = Throw TypeError.
Proof.
  split.
  - apply (proxy_read_wraps_array_items 90 82 Cases.chandelier Sample.lamp
             [Sample.dark_lamp] "lightList" None Sample.state0);
      try reflexivity; discriminate.
  - apply (proxy_read_wraps_array_items 90 86 Cases.odd_chandelier Sample.lamp
             [VNum 3] "lightList" None Sample.state0);
      try reflexivity; discriminate.
Defined.

Lemma clone_returns_new_instance_sharing_options_witness :
  exists ps' s',
    clone Sample.classes Sample.lamp Sample.state0
    = Return (VInst (next Sample.state0) Sample.light_id ps', s')
    /\ get_prop (VInst (next Sample.state0) Sample.light_id ps') "options"
       = get_prop Sample.lamp "options"
    /\ strict_eq
         (get_prop (VInst (next Sample.state0) Sample.light_id ps') "options")
         (get_prop Sample.lamp "options") = true.
Proof.
  apply (clone_returns_new_instance_sharing_options Sample.classes 10
           Sample.light_id
           [("isProxy", VBool false); ("options", VRec 11 []);
            ("onOff", VBool true); ("dimmer", VNum 5)] Sample.state0
           eq_refl eq_refl lamp_options_unreachable).
Defined.

(** ** Whole objects *)

Section WholeObjects.
Variable classes : class_id -> ClassInfo.

(** X20.  [parse] of a wire object whose entries are wire keys of fields
    and carry primitives (with a key table that maps every entry back and
    options that do not ask to skip) logs nothing and allocates nothing;
    it leaves every field whose wire key the object lacks as it was, and
    sets every field whose wire key the object has to what the field's
    deserializer makes of the value (the value itself without one). *)
Theorem parse_sets_each_field_from_its_wire_key :
  forall (a : addr) (c : class_id) (ps : record) (obj : record) (s : state),
    options_apply_all (VInst a c ps) ->
    symmetric_keys classes (VInst a c ps) ->
    NoDup (keys obj) ->
    (forall k w, In (k, w) obj -> plain_entry classes (VInst a c ps) k w) ->
    exists ps',
      parse classes (VInst a c ps) obj s = Return (VInst a c ps', s)
      /\ (forall q,
            lookupKeyOrProperty classes (VInst a c ps) q = None ->
            lookup q ps' = lookup q ps)
      /\ (forall q k,
            lookupKeyOrProperty classes (VInst a c ps) q = Some k ->
            lookup k obj = None ->
            lookup q ps' = lookup q ps)
      /\ (forall q k w,
            lookupKeyOrProperty classes (VInst a c ps) q = Some k ->
            lookup k obj = Some w ->
            exists parent,
              lookup q ps'
              = Some (apply_transform
                        (getDeserializer classes (VInst a c ps) q) w parent)).
Proof.
  intros a c ps obj s Ho Hsym Hnd Hplain.
  destruct (lookup_absorb classes obj a c ps Hsym Hnd) as (ps' & Hab & _ & Hall).
  { intros k w Hin. destruct (Hplain k w Hin) as (_ & (p & Hp & _) & _).
    now exists p. }
  exists ps'. split; [|split; [|split]].
  - unfold parse. rewrite parse_entries_plain by assumption. now rewrite Hab.
  - intros q Hq. pose proof (Hall q) as H. now rewrite Hq in H.
  - intros q k Hq Hk. pose proof (Hall q) as H. now rewrite Hq, Hk in H.
  - intros q k w Hq Hk. pose proof (Hall q) as H. now rewrite Hq, Hk in H.
Qed.

Lemma serialize_properties_values self this reference ps :
  forall out s out' s',
    serialize_properties classes self this reference ps out s
    = Return (out', s') ->
    forall k v,
      lookup k out' = Some v ->
      lookup k out = Some v
      \/ exists p x s1 s2,
           In (p, x) ps /\ visited classes this p = true
           /\ k = to_key (lookupKeyOrProperty classes this p)
           /\ serialize_property classes self this reference p x s1
              = Return (v, s2)
           /\ is_nullish v = false.
Proof.
  induction ps as [|[p x] ps IH]; intros out s out' s'.
  - intros [= <- _] k v H. now left.
  - cbn [serialize_properties]. fold (visited classes this p).
    destruct (visited classes this p) eqn:Hv.
    + unfold bind.
      destruct (serialize_property classes self this reference p x s)
        as [[v' s1]|] eqn:E; [|discriminate].
      intros H k v Hl.
      destruct (IH _ _ _ _ H k v Hl)
        as [Hout|(q & y & t1 & t2 & Hin & Hq & Hk & Hy & Hn)].
      * destruct (is_nullish v') eqn:Hn; [now left|].
        destruct (String.eqb_spec k (to_key (lookupKeyOrProperty classes this p)))
          as [Ek|Hne].
        -- rewrite Ek, lookup_set_prop_same in Hout. injection Hout as <-.
           right. exists p, x, s, s1. repeat split; auto. now left.
        -- rewrite (lookup_set_prop_other _ _ _ _ Hne) in Hout. now left.
      * right. exists q, y, t1, t2. repeat split; auto. now right.
    + intros H k v Hl.
      destruct (IH _ _ _ _ H k v Hl)
        as [Hout|(q & y & t1 & t2 & Hin & Hq & Hk & Hy & Hn)]; [now left|].
      right. exists q, y, t1, t2. repeat split; auto. now right.
Qed.

(** X21.  Serialized against itself, an instance sends no unchanged
    optional value: every key of [x.serialize(x)] is the wire key of a
    field that is required, or holds null or undefined, or holds something
    that is not a primitive, or holds a value that [===] does not find
    equal to itself. *)
Theorem serialize_against_itself_keeps_only_required :
  forall (a : addr) (c : class_id) (ps : record) (s s' : state) (out : record)
         (r : addr),
    truthy (get_prop (VInst a c ps) "isProxy") = false ->
    NoDup (keys ps) ->
    serialize classes (VInst a c ps) (VInst a c ps) s = Return (VRec r out, s') ->
    forall k v,
      lookup k out = Some v ->
      exists p x,
        In (p, x) ps
        /\ k = to_key (lookupKeyOrProperty classes (VInst a c ps) p)
        /\ (isRequired classes (VInst a c ps) (VInst a c ps) p = true
            \/ is_nullish x = true
            \/ is_primitive x = false
            \/ strict_eq x x = false).
Proof.
  intros a c ps s s' out r Hp Hnd. rewrite serialize_instance, Hp.
  assert (Er : effective_reference (VInst a c ps) = VInst a c ps).
  { unfold effective_reference. cbn [is_ipso andb]. now rewrite Hp. }
  rewrite Er.
  unfold bind at 1. unfold alloc. unfold bind at 1.
  destruct (serialize_properties _ _ _ _ _ _ _) as [[out1 s1]|] eqn:E;
    [|discriminate].
  intros [= _ <- _] k v Hl.
  destruct (serialize_properties_values _ _ _ _ _ _ _ _ E k v Hl)
    as [H|(p & x & t1 & t2 & Hin & Hv & Hk & Hx & Hn)]; [discriminate|].
  exists p, x. split; [exact Hin|]. split; [exact Hk|].
  destruct (isRequired classes (VInst a c ps) (VInst a c ps) p) eqn:Hreq;
    [now left|right].
  destruct (is_nullish x) eqn:Hnull; [now left|right].
  destruct (is_primitive x) eqn:Hprim; [right|now left].
  destruct (strict_eq x x) eqn:Hse; [exfalso|reflexivity].
  rewrite serialize_property_direct in Hx
    by (destruct x; try discriminate; reflexivity).
  assert (Href : reference_value (VInst a c ps) p = x).
  { unfold reference_value. cbn [is_nullish own_prop].
    now rewrite (In_lookup_nodup _ _ _ Hnd Hin). }
  rewrite Href in Hx. unfold serializeValue in Hx.
  destruct x; try discriminate; rewrite Hreq, Hse in Hx;
    cbn [is_nullish negb andb] in Hx; injection Hx as <- _; discriminate.
Qed.

End WholeObjects.

Lemma parse_sets_each_field_from_its_wire_key_witness :
  exists ps',
    parse Sample.classes Sample.lamp [("5850", VNum 0); ("5851", VNum 9)]
      Sample.state0
    = Return (VInst 10 Sample.light_id ps', Sample.state0)
    /\ (exists parent,
          lookup "onOff" ps'
          = Some (apply_transform
                    (getDeserializer Sample.classes Sample.lamp "onOff")
                    (VNum 0) parent))
    /\ (exists parent,
          lookup "dimmer" ps'
          = Some (apply_transform
                    (getDeserializer Sample.classes Sample.lamp "dimmer")
                    (VNum 9) parent)).
Proof.
  destruct (parse_sets_each_field_from_its_wire_key Sample.classes 10
              Sample.light_id
              [("isProxy", VBool false); ("options", VRec 11 []);
               ("onOff", VBool true); ("dimmer", VNum 5)]
              [("5850", VNum 0); ("5851", VNum 9)] Sample.state0)
    as (ps' & Hparse & _ & _ & Hset).
  - split; reflexivity.
  - exact lamp_symmetric_keys.
  - repeat constructor; simpl; intuition discriminate.
  - intros k w [E|[E|[]]]; injection E as <- <-;
      (split; [reflexivity|]); (split; [|split; reflexivity]).
    + exists "onOff". repeat split; discriminate.
    + exists "dimmer". repeat split; discriminate.
  - exists ps'. split; [exact Hparse|]. split.
    + apply (Hset "onOff" "5850" (VNum 0)); reflexivity.
    + apply (Hset "dimmer" "5851" (VNum 9)); reflexivity.
Defined.

Lemma serialize_against_itself_keeps_only_required_witness :
  exists p x,
    In (p, x)
      [("isProxy", VBool false); ("options", VRec 11 []);
       ("onOff", VBool true); ("dimmer", VNum 5)]
    /\ "5851" = to_key (lookupKeyOrProperty Sample.classes Sample.lamp p)
    /\ (isRequired Sample.classes Sample.lamp Sample.lamp p = true
        \/ is_nullish x = true
        \/ is_primitive x = false
        \/ strict_eq x x = false).
Proof.
  apply (serialize_against_itself_keeps_only_required Sample.classes 10
           Sample.light_id
           [("isProxy", VBool false); ("options", VRec 11 []);
            ("onOff", VBool true); ("dimmer", VNum 5)]
           Sample.state0 (after_alloc Sample.state0) [("5851", VNum 5)] 1000
           eq_refl
           ltac:(repeat constructor; simpl; intuition discriminate)
           eq_refl "5851" (VNum 5) eq_refl).
Defined.
